(** * Pokémon Master: a shallow embedding of [script.js]

    The development follows the class [PokemonMaster]: the values and
    built-ins of the host language it relies on come first (strings,
    numbers, [Set], [JSON], [localStorage], [Array.prototype.sort]), then
    the record shapes, the controller state, its methods in source order,
    the detail modal with its requests in flight, and finally the
    properties of the fetch / filter / paginate / favourites pipeline, of
    the start-up, of the transformer and of the modal.

    Conventions.
    - A string is a Rocq [string]: the text's bytes (UTF-8).  Every
      operation is exact on ASCII text, which is what the catalogue's names,
      numbers and type tags are made of; case mapping leaves bytes above 127
      untouched.
    - A number is an exact decimal.  Ids, counters and pages are integers
      ([Z]); the rounding and the overflow of doubles are outside the model.
    - [String.prototype.localeCompare] (collation) and the remote API are
      parameters of the development. *)

From Stdlib Require Import ZArith String Ascii List Bool Lia QArith DecimalString.
From Stdlib Require Import Sorted Permutation DecimalFacts DecimalPos.
From stdpp Require Import gmap strings list.

Import ListNotations.
Local Open Scope string_scope.
Local Open Scope list_scope.
Local Open Scope Z_scope.

(* ===================================================================== *)
(** * Strings *)
(* ===================================================================== *)

Module JsString.

(** [c.toLowerCase()] and [c.toUpperCase()] on one byte. *)
Definition lowerChar (c : ascii) : ascii :=
  let n := nat_of_ascii c in
  if ((65 <=? n)%nat && (n <=? 90)%nat)%bool then ascii_of_nat (n + 32) else c.

Definition upperChar (c : ascii) : ascii :=
  let n := nat_of_ascii c in
  if ((97 <=? n)%nat && (n <=? 122)%nat)%bool then ascii_of_nat (n - 32) else c.

Fixpoint toLowerCase (s : string) : string :=
  match s with
  | EmptyString => EmptyString
  | String c r => String (lowerChar c) (toLowerCase r)
  end.

Fixpoint toUpperCase (s : string) : string :=
  match s with
  | EmptyString => EmptyString
  | String c r => String (upperChar c) (toUpperCase r)
  end.

(** [s.charAt(0)]: the first character, or the empty string. *)
Definition charAt0 (s : string) : string :=
  match s with
  | EmptyString => EmptyString
  | String c _ => String c EmptyString
  end.

(** [s.slice(1)]. *)
Definition slice1 (s : string) : string :=
  match s with
  | EmptyString => EmptyString
  | String _ r => r
  end.

(** [s.startsWith(sub)], the inner test of [includes]. *)
Fixpoint startsWith (s sub : string) {struct sub} : bool :=
  match sub, s with
  | EmptyString, _ => true
  | String _ _, EmptyString => false
  | String a sub', String b s' => Ascii.eqb a b && startsWith s' sub'
  end.

(** [s.includes(sub)]: [sub] occurs at some position of [s]. *)
Fixpoint includes (s sub : string) : bool :=
  startsWith s sub ||
  match s with
  | EmptyString => false
  | String _ s' => includes s' sub
  end.

(** The first [n] characters of [pad] repeated for ever. *)
Fixpoint cycleTake (n : nat) (pad cur : string) : string :=
  match n with
  | O => EmptyString
  | S n' =>
      match cur with
      | String c r => String c (cycleTake n' pad r)
      | EmptyString =>
          match pad with
          | String c r => String c (cycleTake n' pad r)
          | EmptyString => EmptyString
          end
      end
  end.

(** [s.padStart(target, pad)]. *)
Definition padStart (target : nat) (pad s : string) : string :=
  cycleTake (target - String.length s) pad pad +:+ s.

(** A string is truthy when it is not empty. *)
Definition truthy (s : string) : bool :=
  match s with
  | EmptyString => false
  | String _ _ => true
  end.

(** [sub] occurs in [s]: the relation [includes] decides. *)
Definition Substring (sub s : string) : Prop :=
  exists pre post : string, s = pre +:+ sub +:+ post.

End JsString.

(* ===================================================================== *)
(** * Numbers *)
(* ===================================================================== *)

Module JsNumber.

(** [n.toString()] for a safe integer, one of magnitude below [2^53]: the
    decimal digits, after a minus sign when negative.  Beyond that range
    the text of a JavaScript number is another: a double does not hold
    every integer, and from [10^21] on the text is in exponent form.  What
    is proved of this text is proved of safe integers. *)
Definition toString (n : Z) : string :=
  NilZero.string_of_int (Z.to_int n).

(** [Math.ceil(a / b)] for integers [a] and [b > 0]. *)
Definition ceilDiv (a b : Z) : Z := - ((- a) / b).

End JsNumber.


(* ===================================================================== *)
(** * Values, errors and completions *)
(* ===================================================================== *)

(** The values that reach the favourites set, the persistent store and a
    method's caller.  [JNumber m scale] is the decimal [m / 10^scale], kept
    in lowest terms ([scale = 0] or [m] not a multiple of ten), so an
    integer [n] is [JNumber n 0]. *)
#[warnings="-register-all"]
Inductive JsValue : Type :=
| JUndefined
| JNull
| JBool (b : bool)
| JNumber (m : Z) (scale : N)
| JString (s : string)
| JArray (items : list JsValue)
| JObject (fields : list (string * JsValue)).

Definition JInt (n : Z) : JsValue := JNumber n 0.

(** The exceptions the modelled code can meet. *)
Inductive JsError : Type :=
| Error (msg : string)
| SyntaxError (msg : string)
| TypeError (msg : string)
| SecurityError (msg : string)
| QuotaExceededError (msg : string).

(** [SameValueZero], the equality of [Set] and of [Array.prototype.includes].
    Primitives are compared by value.  Arrays and objects are compared by
    identity; the only ones the program ever holds are those a call of
    [JSON.parse] has just made, each a distinct object, so two of them are
    never the same value. *)
Definition sameValueZero (x y : JsValue) : bool :=
  match x, y with
  | JUndefined, JUndefined => true
  | JNull, JNull => true
  | JBool a, JBool b => Bool.eqb a b
  | JNumber m s, JNumber m' s' => (m =? m') && (s =? s')%N
  | JString a, JString b => String.eqb a b
  | _, _ => false
  end.

(* ===================================================================== *)
(** * Set *)
(* ===================================================================== *)

(** A [Set] keeps its members in insertion order, without repetition. *)
Module JsSet.

Definition t : Type := list JsValue.

Definition empty : t := [].

Definition has (s : t) (v : JsValue) : bool := existsb (sameValueZero v) s.

Definition add (s : t) (v : JsValue) : t := if has s v then s else s ++ [v].

Definition delete (s : t) (v : JsValue) : t :=
  List.filter (fun x => negb (sameValueZero v x)) s.

Definition size (s : t) : Z := Z.of_nat (length s).

(** [Array.from(s)]. *)
Definition toArray (s : t) : list JsValue := s.

(** The characters of a string as its iterator yields them: one per code
    point, that is a lead byte with the continuation bytes after it. *)
Definition isContinuation (c : ascii) : bool :=
  let n := N_of_ascii c in ((128 <=? n) && (n <? 192))%N.

Fixpoint codePoints (cur : option string) (s : string) : list string :=
  match s with
  | EmptyString => match cur with Some c => [c] | None => [] end
  | String b r =>
      if isContinuation b then
        match cur with
        | Some c => codePoints (Some (c +:+ String b EmptyString)) r
        | None => codePoints (Some (String b EmptyString)) r
        end
      else
        match cur with
        | Some c => c :: codePoints (Some (String b EmptyString)) r
        | None => codePoints (Some (String b EmptyString)) r
        end
  end.

(** [new Set(iterable)]: [undefined] and [null] give the empty set, an
    array its elements, a string its characters; anything else is not
    iterable. *)
Definition ofIterable (v : JsValue) : JsError + t :=
  match v with
  | JUndefined | JNull => inr empty
  | JArray items => inr (fold_left add items empty)
  | JString s => inr (fold_left add (map JString (codePoints None s)) empty)
  | JBool _ => inl (TypeError "boolean is not iterable")
  | JNumber _ _ => inl (TypeError "number is not iterable")
  | JObject _ => inl (TypeError "object is not iterable")
  end.

End JsSet.

(* ===================================================================== *)
(** * JSON *)
(* ===================================================================== *)

Module JSON.

Definition chr (n : N) : ascii := ascii_of_N n.
Definition str1 (n : N) : string := String (chr n) EmptyString.

(** The quotation mark and the reverse solidus, by code. *)
Definition quote : string := str1 34.
Definition backslash : string := str1 92.

(** ** Numbers *)

Definition isDigit (c : ascii) : bool :=
  let n := N_of_ascii c in ((48 <=? n) && (n <=? 57))%N.

Definition digitVal (c : ascii) : Z := Z.of_N (N_of_ascii c) - 48.

(** The longest run of digits at the head of [s]: its value after [acc],
    its length after [len], and what follows. *)
Fixpoint digits (acc : Z) (len : N) (s : string) : Z * N * string :=
  match s with
  | String c r =>
      if isDigit c then digits (10 * acc + digitVal c) (len + 1)%N r
      else (acc, len, s)
  | EmptyString => (acc, len, s)
  end.

(** Lowest terms of [m / 10^scale]. *)
Fixpoint reduce (fuel : nat) (m : Z) (scale : N) : JsValue :=
  match fuel with
  | O => JNumber m scale
  | S f =>
      if ((0 <? scale)%N && (m mod 10 =? 0))%bool
      then reduce f (m / 10) (scale - 1)%N
      else JNumber m scale
  end.

(** The number [m * 10^(e - scale)]. *)
Definition decimal (m : Z) (scale : N) (e : Z) : JsValue :=
  if Z.of_N scale <=? e then JNumber (m * 10 ^ (e - Z.of_N scale)) 0
  else let sc := Z.to_N (Z.of_N scale - e) in reduce (N.to_nat sc) m sc.

(** [-? int frac? exp?] *)
Definition parseNumber (s : string) : option (JsValue * string) :=
  let '(sign, s1) :=
    match s with
    | String c r => if (N_of_ascii c =? 45)%N then (-1, r) else (1, s)
    | EmptyString => (1, s)
    end in
  let intPart :=
    match s1 with
    | String c r =>
        if (N_of_ascii c =? 48)%N then Some (0, r)
        else if isDigit c then let '(v, _, r') := digits 0 0 s1 in Some (v, r')
        else None
    | EmptyString => None
    end in
  match intPart with
  | None => None
  | Some (i, s2) =>
      let fracPart :=
        match s2 with
        | String c r =>
            if (N_of_ascii c =? 46)%N then
              let '(v, len, r') := digits i 0 r in
              if (len =? 0)%N then None else Some (v, len, r')
            else Some (i, 0%N, s2)
        | EmptyString => Some (i, 0%N, s2)
        end in
      match fracPart with
      | None => None
      | Some (m, scale, s3) =>
          let expPart :=
            match s3 with
            | String c r =>
                if ((N_of_ascii c =? 101) || (N_of_ascii c =? 69))%N then
                  let '(esign, r1) :=
                    match r with
                    | String d r' =>
                        if (N_of_ascii d =? 45)%N then (-1, r')
                        else if (N_of_ascii d =? 43)%N then (1, r')
                        else (1, r)
                    | EmptyString => (1, r)
                    end in
                  let '(v, len, r2) := digits 0 0 r1 in
                  if (len =? 0)%N then None else Some (esign * v, r2)
                else Some (0, s3)
            | EmptyString => Some (0, s3)
            end in
          match expPart with
          | None => None
          | Some (e, s4) => Some (decimal (sign * m) scale e, s4)
          end
      end
  end.

(** ** Strings *)

Definition hexVal (c : ascii) : option N :=
  let n := N_of_ascii c in
  if ((48 <=? n) && (n <=? 57))%N then Some (n - 48)%N
  else if ((97 <=? n) && (n <=? 102))%N then Some (n - 87)%N
  else if ((65 <=? n) && (n <=? 70))%N then Some (n - 55)%N
  else None.

Definition hex4 (a b c d : ascii) : option N :=
  match hexVal a, hexVal b, hexVal c, hexVal d with
  | Some x, Some y, Some z, Some w => Some (((x * 16 + y) * 16 + z) * 16 + w)%N
  | _, _, _, _ => None
  end.

(** The bytes of one code point. *)
Definition utf8 (cp : N) : string :=
  (if cp <? 128 then str1 cp
   else if cp <? 2048 then str1 (192 + cp / 64) +:+ str1 (128 + cp mod 64)
   else if cp <? 65536 then
     str1 (224 + cp / 4096) +:+ str1 (128 + (cp / 64) mod 64)
     +:+ str1 (128 + cp mod 64)
   else
     str1 (240 + cp / 262144) +:+ str1 (128 + (cp / 4096) mod 64)
     +:+ str1 (128 + (cp / 64) mod 64) +:+ str1 (128 + cp mod 64))%N.

Definition isHighSurrogate (u : N) : bool := ((55296 <=? u) && (u <? 56320))%N.
Definition isLowSurrogate (u : N) : bool := ((56320 <=? u) && (u <? 57344))%N.

(** The character an escape letter stands for. *)
Definition simpleEscape (c : ascii) : option N :=
  let n := N_of_ascii c in
  (if n =? 34 then Some 34        (* quotation mark *)
   else if n =? 92 then Some 92   (* reverse solidus *)
   else if n =? 47 then Some 47   (* solidus *)
   else if n =? 98 then Some 8    (* b *)
   else if n =? 102 then Some 12  (* f *)
   else if n =? 110 then Some 10  (* n *)
   else if n =? 114 then Some 13  (* r *)
   else if n =? 116 then Some 9   (* t *)
   else None)%N.

Definition consTo (pre : string) (r : option (string * string))
  : option (string * string) :=
  match r with
  | Some (body, rest) => Some (pre +:+ body, rest)
  | None => None
  end.

(** The characters of a string literal after its opening quotation mark,
    up to the closing one; a surrogate pair of escapes is one code
    point. *)
Fixpoint parseChars (s : string) : option (string * string) :=
  match s with
  | EmptyString => None
  | String c r =>
      let n := N_of_ascii c in
      if (n =? 34)%N then Some (EmptyString, r)
      else if (n <? 32)%N then None
      else if (n =? 92)%N then
        match r with
        | EmptyString => None
        | String e r1 =>
            match simpleEscape e with
            | Some k => consTo (str1 k) (parseChars r1)
            | None =>
                if (N_of_ascii e =? 117)%N then
                  match r1 with
                  | String h1 (String h2 (String h3 (String h4 r2))) =>
                      match hex4 h1 h2 h3 h4 with
                      | None => None
                      | Some u =>
                          match r2 with
                          | String b (String v (String l1 (String l2
                              (String l3 (String l4 r3))))) =>
                              match hex4 l1 l2 l3 l4 with
                              | Some w =>
                                  if (isHighSurrogate u && isLowSurrogate w
                                      && (N_of_ascii b =? 92)%N
                                      && (N_of_ascii v =? 117)%N)%bool
                                  then consTo
                                         (utf8 (65536 + (u - 55296) * 1024
                                                + (w - 56320))%N)
                                         (parseChars r3)
                                  else consTo (utf8 u) (parseChars r2)
                              | None => consTo (utf8 u) (parseChars r2)
                              end
                          | _ => consTo (utf8 u) (parseChars r2)
                          end
                      end
                  | _ => None
                  end
                else None
            end
        end
      else consTo (String c EmptyString) (parseChars r)
  end.

(** ** Values *)

Definition isSpace (c : ascii) : bool :=
  let n := N_of_ascii c in
  ((n =? 32) || (n =? 9) || (n =? 10) || (n =? 13))%N.

Fixpoint skipSpace (s : string) : string :=
  match s with
  | String c r => if isSpace c then skipSpace r else s
  | EmptyString => s
  end.

(** [s] begins with the literal [lit]: what follows it. *)
Fixpoint expect (lit s : string) : option string :=
  match lit, s with
  | EmptyString, _ => Some s
  | String a lit', String b s' => if Ascii.eqb a b then expect lit' s' else None
  | String _ _, EmptyString => None
  end.

(** The elements of an array after its opening bracket, [s] standing at
    the first character of an element. *)
Fixpoint parseElements (value : string -> option (JsValue * string))
    (n : nat) (acc : list JsValue) (s : string)
  : option (list JsValue * string) :=
  match n with
  | O => None
  | S n' =>
      match value s with
      | None => None
      | Some (v, rest) =>
          match skipSpace rest with
          | String c r =>
              if (N_of_ascii c =? 44)%N
              then parseElements value n' (acc ++ [v]) (skipSpace r)
              else if (N_of_ascii c =? 93)%N then Some (acc ++ [v], r)
              else None
          | EmptyString => None
          end
      end
  end.

(** The members of an object after its opening brace, [s] standing at
    the quotation mark of a key. *)
Fixpoint parseMembers (value : string -> option (JsValue * string))
    (n : nat) (acc : list (string * JsValue)) (s : string)
  : option (list (string * JsValue) * string) :=
  match n with
  | O => None
  | S n' =>
      match s with
      | String q r0 =>
          if (N_of_ascii q =? 34)%N then
            match parseChars r0 with
            | None => None
            | Some (key, r1) =>
                match skipSpace r1 with
                | String c r2 =>
                    if (N_of_ascii c =? 58)%N then
                      match value (skipSpace r2) with
                      | None => None
                      | Some (v, rest) =>
                          match skipSpace rest with
                          | String d r =>
                              if (N_of_ascii d =? 44)%N
                              then parseMembers value n' (acc ++ [(key, v)])
                                     (skipSpace r)
                              else if (N_of_ascii d =? 125)%N
                              then Some (acc ++ [(key, v)], r)
                              else None
                          | EmptyString => None
                          end
                      end
                    else None
                | EmptyString => None
                end
            end
          else None
      | EmptyString => None
      end
  end.

(** One value at the head of [s] (no leading space).  [fuel] bounds the
    nesting depth. *)
Fixpoint parseValue (fuel : nat) (s : string) : option (JsValue * string) :=
  match fuel with
  | O => None
  | S f =>
      match s with
      | EmptyString => None
      | String c r =>
          let n := N_of_ascii c in
          if (n =? 110)%N then
            match expect "null" s with Some r' => Some (JNull, r') | None => None end
          else if (n =? 116)%N then
            match expect "true" s with Some r' => Some (JBool true, r') | None => None end
          else if (n =? 102)%N then
            match expect "false" s with Some r' => Some (JBool false, r') | None => None end
          else if (n =? 34)%N then
            match parseChars r with
            | Some (body, r') => Some (JString body, r')
            | None => None
            end
          else if (n =? 91)%N then
            match skipSpace r with
            | EmptyString => None
            | String d r' as r1 =>
                if (N_of_ascii d =? 93)%N then Some (JArray [], r')
                else
                  match parseElements (parseValue f) (String.length r1) [] r1 with
                  | Some (items, r2) => Some (JArray items, r2)
                  | None => None
                  end
            end
          else if (n =? 123)%N then
            match skipSpace r with
            | EmptyString => None
            | String d r' as r1 =>
                if (N_of_ascii d =? 125)%N then Some (JObject [], r')
                else
                  match parseMembers (parseValue f) (String.length r1) [] r1 with
                  | Some (fields, r2) => Some (JObject fields, r2)
                  | None => None
                  end
            end
          else parseNumber s
      end
  end.

(** [JSON.parse(text)]: one value between optional white space, or a
    [SyntaxError].  A value nests less deep than the text is long, so the
    fuel never runs out on a well-formed text. *)
Definition parse (text : string) : JsError + JsValue :=
  match parseValue (S (String.length text)) (skipSpace text) with
  | Some (v, rest) =>
      match skipSpace rest with
      | EmptyString => inr v
      | String _ _ => inl (SyntaxError "Unexpected non-whitespace character after JSON")
      end
  | None => inl (SyntaxError "Unexpected token in JSON")
  end.

(** ** Serialization *)

Definition natString (n : N) : string := NilZero.string_of_uint (N.to_uint n).

Fixpoint zeros (n : nat) : string :=
  match n with
  | O => EmptyString
  | S n' => String (chr 48) (zeros n')
  end.

(** [s] without its trailing zeros. *)
Fixpoint trimZeros (s : string) : string :=
  match s with
  | EmptyString => EmptyString
  | String c r =>
      match trimZeros r with
      | EmptyString => if (N_of_ascii c =? 48)%N then EmptyString else String c EmptyString
      | String _ _ as r' => String c r'
      end
  end.

(** [Number::toString] in radix ten.  With [s] the significant digits,
    [k] their count and [n] the position of the decimal point: plain
    digits up to 21 places, a leading [0.] down to 10^-6, and the
    exponent form outside. *)
Definition numberToString (m : Z) (scale : N) : string :=
  if m =? 0 then "0"
  else
    let sign := if m <? 0 then "-" else "" in
    let d := natString (Z.abs_N m) in
    let s := trimZeros d in
    let k := Z.of_nat (String.length s) in
    let n := Z.of_nat (String.length d) - Z.of_N scale in
    sign +:+
    (if (k <=? n) && (n <=? 21) then s +:+ zeros (Z.to_nat (n - k))
     else if (0 <? n) && (n <=? 21) then
       substring 0 (Z.to_nat n) s +:+ "." +:+
       substring (Z.to_nat n) (String.length s - Z.to_nat n) s
     else if (-6 <? n) && (n <=? 0) then "0." +:+ zeros (Z.to_nat (- n)) +:+ s
     else
       let e := n - 1 in
       let es := (if e <? 0 then "-" else "+") +:+ natString (Z.abs_N e) in
       match s with
       | String c (String _ _ as r) => String c ("." +:+ r) +:+ "e" +:+ es
       | _ => s +:+ "e" +:+ es
       end).

Definition hexDigit (n : N) : string :=
  if (n <? 10)%N then str1 (48 + n) else str1 (87 + n).

Definition hexUnit (u : N) : string :=
  (hexDigit (u / 4096) +:+ hexDigit ((u / 256) mod 16)
   +:+ hexDigit ((u / 16) mod 16) +:+ hexDigit (u mod 16))%N.

(** [QuoteJSONString] without the enclosing quotation marks: the two-letter
    escapes, [\u00xx] for the other control characters and [\udxxx] for a
    surrogate that stands alone. *)
Fixpoint escapeChars (s : string) : string :=
  match s with
  | EmptyString => EmptyString
  | String c r =>
      let n := N_of_ascii c in
      if (n =? 34)%N then backslash +:+ quote +:+ escapeChars r
      else if (n =? 92)%N then backslash +:+ backslash +:+ escapeChars r
      else if (n =? 8)%N then backslash +:+ "b" +:+ escapeChars r
      else if (n =? 9)%N then backslash +:+ "t" +:+ escapeChars r
      else if (n =? 10)%N then backslash +:+ "n" +:+ escapeChars r
      else if (n =? 12)%N then backslash +:+ "f" +:+ escapeChars r
      else if (n =? 13)%N then backslash +:+ "r" +:+ escapeChars r
      else if (n <? 32)%N then backslash +:+ "u" +:+ hexUnit n +:+ escapeChars r
      else if (n =? 237)%N then
        match r with
        | String b2 (String b3 r') =>
            if (160 <=? N_of_ascii b2)%N
            then backslash +:+ "u"
                 +:+ hexUnit (53248 + (N_of_ascii b2 mod 64) * 64
                              + N_of_ascii b3 mod 64)%N
                 +:+ escapeChars r'
            else String c (escapeChars r)
        | _ => String c (escapeChars r)
        end
      else String c (escapeChars r)
  end.

Definition quoteString (s : string) : string := quote +:+ escapeChars s +:+ quote.

Fixpoint join (sep : string) (l : list string) : string :=
  match l with
  | [] => EmptyString
  | [x] => x
  | x :: r => x +:+ sep +:+ join sep r
  end.

Definition isUndefined (v : JsValue) : bool :=
  match v with JUndefined => true | _ => false end.

(** [JSON.stringify(v)] for a value other than [undefined], with no
    indentation.  An [undefined] element of an array is written [null]; a
    field holding [undefined] is left out. *)
Fixpoint stringify (v : JsValue) : string :=
  match v with
  | JUndefined => "null"
  | JNull => "null"
  | JBool true => "true"
  | JBool false => "false"
  | JNumber m scale => numberToString m scale
  | JString s => quoteString s
  | JArray items => "[" +:+ join "," (map stringify items) +:+ "]"
  | JObject fields =>
      "{" +:+
      join ","
        ((fix members (l : list (string * JsValue)) : list string :=
            match l with
            | [] => []
            | (k, x) :: r =>
                if isUndefined x then members r
                else (quoteString k +:+ ":" +:+ stringify x) :: members r
            end) fields)
      +:+ "}"
  end.

End JSON.

(* ===================================================================== *)
(** * localStorage *)
(* ===================================================================== *)

(** The synchronous key-value store of the browser.  Its entries are
    strings; [readable] and [writable] say whether the browser lets the page
    read it and accepts a write (storage can be disabled, or full). *)
Module Storage.

Record t : Type := mk {
  entries : gmap string string;
  readable : bool;
  writable : bool
}.

(** [localStorage.getItem(key)]: the entry, or [null]. *)
Definition getItem (key : string) (ls : t) : JsError + option string :=
  if readable ls then inr (entries ls !! key)
  else inl (SecurityError "The operation is insecure").

(** [localStorage.setItem(key, value)]. *)
Definition setItem (key value : string) (ls : t) : JsError + t :=
  if writable ls
  then inr (mk (<[key := value]> (entries ls)) (readable ls) (writable ls))
  else inl (QuotaExceededError "The quota has been exceeded").

End Storage.

(* ===================================================================== *)
(** * Arrays *)
(* ===================================================================== *)

Module JsArray.

(** [arr.slice(start, end)]: a negative index counts from the end, and
    both are clamped to the array. *)
Definition slice {A : Type} (start finish : Z) (l : list A) : list A :=
  let len := Z.of_nat (length l) in
  let clamp i := if i <? 0 then Z.max (len + i) 0 else Z.min i len in
  let k := clamp start in
  firstn (Z.to_nat (Z.max (clamp finish - k) 0)) (skipn (Z.to_nat k) l).

(** [arr.includes(x)] on an array of strings. *)
Definition includes (l : list string) (x : string) : bool :=
  existsb (String.eqb x) l.

(** [arr[0]], or [undefined]. *)
Definition first {A : Type} (l : list A) : option A :=
  match l with
  | [] => None
  | x :: _ => Some x
  end.

(** One step of the insertion: [x] goes before the first element it
    compares below, so after the elements it is equal to. *)
Fixpoint insert {A : Type} (compareFn : A -> A -> JsError + Z) (x : A)
    (sorted : list A) : JsError + list A :=
  match sorted with
  | [] => inr [x]
  | y :: r =>
      match compareFn x y with
      | inl e => inl e
      | inr c =>
          if c <? 0 then inr (x :: y :: r)
          else
            match insert compareFn x r with
            | inl e => inl e
            | inr r' => inr (y :: r')
            end
      end
  end.

Fixpoint sortInto {A : Type} (compareFn : A -> A -> JsError + Z)
    (sorted : list A) (l : list A) : JsError + list A :=
  match l with
  | [] => inr sorted
  | x :: r =>
      match insert compareFn x sorted with
      | inl e => inl e
      | inr sorted' => sortInto compareFn sorted' r
      end
  end.

(** [arr.sort(compareFn)].  The sort is stable; an exception of the
    comparator ends it.  Which pairs are compared is left to the engine:
    the model inserts the elements one by one, the element being placed
    as first argument.  With a consistent comparator every stable sort
    returns this array. *)
Definition sort {A : Type} (compareFn : A -> A -> JsError + Z) (l : list A)
  : JsError + list A :=
  sortInto compareFn [] l.

End JsArray.

(* ===================================================================== *)
(** * The remote payload and the normalized record *)
(* ===================================================================== *)

(** [{ name, url }], the API's reference to a named resource. *)
Module Resource.
Record t : Type := mk { name : string }.
End Resource.

(** The body of [GET /pokemon/{id}], as far as the transformer reads it. *)
Module Payload.

Record TypeSlot : Type := mkType { type : Resource.t }.
Record StatEntry : Type := mkStat { stat : Resource.t; base_stat : Z }.
Record AbilitySlot : Type := mkAbility { ability : Resource.t }.
Record MoveEntry : Type := mkMove { move : Resource.t }.

(** [sprites.other['official-artwork'].front_default] and
    [sprites.front_default]; [None] is [null]. *)
Record Sprites : Type := mkSprites {
  official_artwork : option string;
  front_default : option string
}.

Record t : Type := mk {
  id : Z;
  name : string;
  types : list TypeSlot;
  sprites : Sprites;
  stats : list StatEntry;
  height : Z;
  weight : Z;
  abilities : list AbilitySlot;
  moves : list MoveEntry
}.

End Payload.

Module Pokemon.

Record t : Type := mk {
  id : Z;
  name : string;
  displayName : string;
  number : string;
  types : list string;
  image : option string;
  stats : gmap string Z;
  height : Q;
  weight : Q;
  abilities : list string;
  moves : list string
}.

End Pokemon.

(** [a || b] on two strings that may be [null]. *)
Definition orElse (a b : option string) : option string :=
  match a with
  | Some s => if JsString.truthy s then a else b
  | None => b
  end.

(** [capitalizeFirstLetter(string)] *)
Definition capitalizeFirstLetter (s : string) : string :=
  JsString.toUpperCase (JsString.charAt0 s) +:+ JsString.slice1 s.

(** [transformPokemonData(data)] *)
Definition transformPokemonData (data : Payload.t) : Pokemon.t :=
  {| Pokemon.id := Payload.id data;
     Pokemon.name := Payload.name data;
     Pokemon.displayName := capitalizeFirstLetter (Payload.name data);
     Pokemon.number := JsString.padStart 3 "0" (JsNumber.toString (Payload.id data));
     Pokemon.types := map (fun type => Resource.name (Payload.type type)) (Payload.types data);
     Pokemon.image :=
       orElse (Payload.official_artwork (Payload.sprites data))
              (Payload.front_default (Payload.sprites data));
     Pokemon.stats :=
       fold_left
         (fun acc stat => <[Resource.name (Payload.stat stat) := Payload.base_stat stat]> acc)
         (Payload.stats data) ∅;
     Pokemon.height := (inject_Z (Payload.height data) / 10)%Q;
     Pokemon.weight := (inject_Z (Payload.weight data) / 10)%Q;
     Pokemon.abilities :=
       map (fun ability => Resource.name (Payload.ability ability)) (Payload.abilities data);
     Pokemon.moves :=
       map (fun move => Resource.name (Payload.move move))
         (JsArray.slice 0 5 (Payload.moves data)) |}.

(* ===================================================================== *)
(** * The controller's state *)
(* ===================================================================== *)

(** [this.currentFilters] *)
Module Filters.

Record t : Type := mk {
  search : string;
  type : string;
  sort : string;
  showFavorites : bool
}.

Definition withSearch (v : string) (f : t) : t := mk v (type f) (sort f) (showFavorites f).
Definition withType (v : string) (f : t) : t := mk (search f) v (sort f) (showFavorites f).
Definition withSort (v : string) (f : t) : t := mk (search f) (type f) v (showFavorites f).
Definition withShowFavorites (v : bool) (f : t) : t := mk (search f) (type f) (sort f) v.

End Filters.

(** What the page shows, as far as the controller writes it: one card per
    rendered record instead of its markup, the counters, the visibility of
    the controls and the notification. *)
Module Dom.

Record Card : Type := mkCard { shown : Pokemon.t; favorite : bool }.

Record t : Type := mk {
  pokeContainer : list Card;
  emptyState : bool;
  loadMore : bool;
  clearSearch : bool;
  searchInput : string;
  toggleFavorites : bool;
  totalCount : Z;
  showingCount : Z;
  favoritesCount : Z;
  notification : option (string * string);
  loadingScreen : bool
}.

Definition initial : t :=
  mk [] false false false "" false 0 0 0 None true.

Definition withCards (c : list Card) (e : bool) (d : t) : t :=
  mk c e (loadMore d) (clearSearch d) (searchInput d) (toggleFavorites d)
     (totalCount d) (showingCount d) (favoritesCount d) (notification d)
     (loadingScreen d).
Definition withLoadMore (v : bool) (d : t) : t :=
  mk (pokeContainer d) (emptyState d) v (clearSearch d) (searchInput d)
     (toggleFavorites d) (totalCount d) (showingCount d) (favoritesCount d)
     (notification d) (loadingScreen d).
Definition withClearSearch (v : bool) (d : t) : t :=
  mk (pokeContainer d) (emptyState d) (loadMore d) v (searchInput d)
     (toggleFavorites d) (totalCount d) (showingCount d) (favoritesCount d)
     (notification d) (loadingScreen d).
Definition withSearchInput (v : string) (d : t) : t :=
  mk (pokeContainer d) (emptyState d) (loadMore d) (clearSearch d) v
     (toggleFavorites d) (totalCount d) (showingCount d) (favoritesCount d)
     (notification d) (loadingScreen d).
Definition withToggleFavorites (v : bool) (d : t) : t :=
  mk (pokeContainer d) (emptyState d) (loadMore d) (clearSearch d)
     (searchInput d) v (totalCount d) (showingCount d) (favoritesCount d)
     (notification d) (loadingScreen d).
Definition withStats (total showing favs : Z) (d : t) : t :=
  mk (pokeContainer d) (emptyState d) (loadMore d) (clearSearch d)
     (searchInput d) (toggleFavorites d) total showing favs (notification d)
     (loadingScreen d).
Definition withNotification (message kind : string) (d : t) : t :=
  mk (pokeContainer d) (emptyState d) (loadMore d) (clearSearch d)
     (searchInput d) (toggleFavorites d) (totalCount d) (showingCount d)
     (favoritesCount d) (Some (message, kind)) (loadingScreen d).
Definition withLoadingScreen (v : bool) (d : t) : t :=
  mk (pokeContainer d) (emptyState d) (loadMore d) (clearSearch d)
     (searchInput d) (toggleFavorites d) (totalCount d) (showingCount d)
     (favoritesCount d) (notification d) v.

(** The records on screen, in order. *)
Definition visible (d : t) : list Pokemon.t := map shown (pokeContainer d).

End Dom.

(** A line of the console. *)
Inductive ConsoleEntry : Type :=
| ConsoleLog (message : string)
| ConsoleError (message : string) (error : JsError).

(** The instance of [PokemonMaster] with the page, the persistent store and
    the console it acts on.  [pokemonPerPage] is assigned once, by the
    constructor, and is a constant here. *)
Record State : Type := mkState {
  pokemon : list Pokemon.t;
  filteredPokemon : list Pokemon.t;
  favorites : JsSet.t;
  currentPage : Z;
  isLoading : bool;
  currentFilters : Filters.t;
  dom : Dom.t;
  localStorage : Storage.t;
  console : list ConsoleEntry
}.

Definition pokemonPerPage : Z := 20.

Definition withPokemon (v : list Pokemon.t) (st : State) : State :=
  mkState v (filteredPokemon st) (favorites st) (currentPage st) (isLoading st)
    (currentFilters st) (dom st) (localStorage st) (console st).
Definition withFilteredPokemon (v : list Pokemon.t) (st : State) : State :=
  mkState (pokemon st) v (favorites st) (currentPage st) (isLoading st)
    (currentFilters st) (dom st) (localStorage st) (console st).
Definition withFavorites (v : JsSet.t) (st : State) : State :=
  mkState (pokemon st) (filteredPokemon st) v (currentPage st) (isLoading st)
    (currentFilters st) (dom st) (localStorage st) (console st).
Definition withCurrentPage (v : Z) (st : State) : State :=
  mkState (pokemon st) (filteredPokemon st) (favorites st) v (isLoading st)
    (currentFilters st) (dom st) (localStorage st) (console st).
Definition withIsLoading (v : bool) (st : State) : State :=
  mkState (pokemon st) (filteredPokemon st) (favorites st) (currentPage st) v
    (currentFilters st) (dom st) (localStorage st) (console st).
Definition withCurrentFilters (v : Filters.t) (st : State) : State :=
  mkState (pokemon st) (filteredPokemon st) (favorites st) (currentPage st)
    (isLoading st) v (dom st) (localStorage st) (console st).
Definition withDom (v : Dom.t) (st : State) : State :=
  mkState (pokemon st) (filteredPokemon st) (favorites st) (currentPage st)
    (isLoading st) (currentFilters st) v (localStorage st) (console st).
Definition withLocalStorage (v : Storage.t) (st : State) : State :=
  mkState (pokemon st) (filteredPokemon st) (favorites st) (currentPage st)
    (isLoading st) (currentFilters st) (dom st) v (console st).
Definition consoleWrite (entry : ConsoleEntry) (st : State) : State :=
  mkState (pokemon st) (filteredPokemon st) (favorites st) (currentPage st)
    (isLoading st) (currentFilters st) (dom st) (localStorage st)
    (console st ++ [entry]).

(** [new PokemonMaster()], before [init] runs, on a page whose store is
    [store]. *)
Definition constructor (store : Storage.t) : State :=
  {| pokemon := [];
     filteredPokemon := [];
     favorites := JsSet.empty;
     currentPage := 1;
     isLoading := false;
     currentFilters := Filters.mk "" "all" "number" false;
     dom := Dom.initial;
     localStorage := store;
     console := [] |}.

(* ===================================================================== *)
(** * Methods that run on the state and may throw *)
(* ===================================================================== *)

(** A computation ends with a value or an exception, and leaves a state
    either way. *)
Definition M (A : Type) : Type := State -> (JsError + A) * State.

Definition ret {A : Type} (a : A) : M A := fun st => (inr a, st).

Definition throw {A : Type} (e : JsError) : M A := fun st => (inl e, st).

Definition bind {A B : Type} (m : M A) (k : A -> M B) : M B :=
  fun st =>
    match m st with
    | (inr a, st') => k a st'
    | (inl e, st') => (inl e, st')
    end.

(** The value of an expression that may throw. *)
Definition eval {A : Type} (r : JsError + A) : M A := fun st => (r, st).

(** A statement that cannot throw. *)
Definition exec (f : State -> State) : M JsValue := fun st => (inr JUndefined, f st).

Definition gets {A : Type} (f : State -> A) : M A := fun st => (inr (f st), st).

(** [try { body } catch (error) { handler }] *)
Definition tryCatch {A : Type} (body : M A) (handler : JsError -> M A) : M A :=
  fun st =>
    match body st with
    | (inr a, st') => (inr a, st')
    | (inl e, st') => handler e st'
    end.

Declare Scope js_scope.
Delimit Scope js_scope with js.
Notation "'let*' x ':=' m 'in' k" := (bind m (fun x => k))
  (at level 10, x name, m at level 100, k at level 200) : js_scope.
Notation "m ';;' k" := (bind m (fun _ => k))
  (at level 100, k at level 200, right associativity) : js_scope.

(** What [Promise.allSettled] reports for one promise. *)
Inductive Settled : Type :=
| Fulfilled (value : Pokemon.t)
| Rejected (reason : JsError).

(** [results.filter(result => result.status === 'fulfilled').map(result =>
    result.value)] *)
Fixpoint fulfilledValues (results : list Settled) : list Pokemon.t :=
  match results with
  | [] => []
  | Fulfilled value :: r => value :: fulfilledValues r
  | Rejected _ :: r => fulfilledValues r
  end.

(* ===================================================================== *)
(** * The class [PokemonMaster] *)
(* ===================================================================== *)

Section PokemonMaster.

(** [a.localeCompare(b)]: negative, zero or positive. *)
Variable localeCompare : string -> string -> Z.

(** The outcome of [fetch] for [/pokemon/{id}], of the test of
    [response.ok] and of [response.json()]: the decoded body, or the
    failure that rejects the promise. *)
Variable fetch : Z -> JsError + Payload.t.

Local Open Scope js_scope.

(** ** Stats and UI updates *)

(** [updateStats()] *)
Definition updateStats (st : State) : State :=
  withDom
    (Dom.withStats (Z.of_nat (length (pokemon st)))
       (Z.of_nat (length (filteredPokemon st)))
       (JsSet.size (favorites st)) (dom st))
    st.

(** [showLoading()] and [hideLoading()] *)
Definition showLoading (st : State) : State := withIsLoading true st.
Definition hideLoading (st : State) : State := withIsLoading false st.

(** [hideLoadingScreen()]; the half-second delay is not modelled. *)
Definition hideLoadingScreen (st : State) : State :=
  withDom (Dom.withLoadingScreen false (dom st)) st.

(** [showNotification(message, type)]; the timer that hides it again is
    not modelled. *)
Definition showNotification (message kind : string) (st : State) : State :=
  withDom (Dom.withNotification message kind (dom st)) st.

(** [toggleLoadMore()] *)
Definition toggleLoadMore (st : State) : State :=
  let totalPages :=
    JsNumber.ceilDiv (Z.of_nat (length (filteredPokemon st))) pokemonPerPage in
  withDom (Dom.withLoadMore (currentPage st <? totalPages) (dom st)) st.

(** [toggleClearSearch()] *)
Definition toggleClearSearch (st : State) : State :=
  withDom
    (Dom.withClearSearch (JsString.truthy (Filters.search (currentFilters st)))
       (dom st))
    st.

(** ** Rendering *)

(** [createPokemonCard(pokemon)] *)
Definition createPokemonCard (st : State) (pokemon : Pokemon.t) : Dom.Card :=
  Dom.mkCard pokemon (JsSet.has (favorites st) (JInt (Pokemon.id pokemon))).

(** [renderPokemon()] *)
Definition renderPokemon (st : State) : State :=
  let startIndex := 0 in
  let endIndex := currentPage st * pokemonPerPage in
  let pokemonToShow := JsArray.slice startIndex endIndex (filteredPokemon st) in
  withDom
    (match pokemonToShow with
     | [] => Dom.withCards [] true (dom st)
     | _ :: _ =>
         Dom.withCards (map (createPokemonCard st) pokemonToShow) false (dom st)
     end)
    st.

(** ** Filtering and sorting *)

(** The search filter. *)
Definition searchFilter (filters : Filters.t) (filtered : list Pokemon.t)
  : list Pokemon.t :=
  if JsString.truthy (Filters.search filters) then
    List.filter
      (fun pokemon =>
         JsString.includes (Pokemon.name pokemon) (Filters.search filters)
         || JsString.includes (JsString.toLowerCase (Pokemon.displayName pokemon))
              (Filters.search filters)
         || JsString.includes (Pokemon.number pokemon) (Filters.search filters))
      filtered
  else filtered.

(** The type filter. *)
Definition typeFilter (filters : Filters.t) (filtered : list Pokemon.t)
  : list Pokemon.t :=
  if negb (String.eqb (Filters.type filters) "all") then
    List.filter
      (fun pokemon => JsArray.includes (Pokemon.types pokemon) (Filters.type filters))
      filtered
  else filtered.

(** The favourites filter. *)
Definition favoritesFilter (filters : Filters.t) (favs : JsSet.t)
    (filtered : list Pokemon.t) : list Pokemon.t :=
  if Filters.showFavorites filters then
    List.filter (fun pokemon => JsSet.has favs (JInt (Pokemon.id pokemon))) filtered
  else filtered.

(** The comparator of the sort.  [a.types[0]] is [undefined] when [a] has
    no type, and calling a method on it throws; [b.types[0]], an argument,
    is converted to a string. *)
Definition compareFn (sortKey : string) (a b : Pokemon.t) : JsError + Z :=
  if String.eqb sortKey "name" then
    inr (localeCompare (Pokemon.displayName a) (Pokemon.displayName b))
  else if String.eqb sortKey "type" then
    match JsArray.first (Pokemon.types a) with
    | None =>
        inl (TypeError "Cannot read properties of undefined (reading 'localeCompare')")
    | Some ta =>
        inr (localeCompare ta
               (match JsArray.first (Pokemon.types b) with
                | Some tb => tb
                | None => "undefined"
                end))
    end
  else inr (Pokemon.id a - Pokemon.id b).

(** The records that pass the three filters, before the sort. *)
Definition selected (all : list Pokemon.t) (filters : Filters.t) (favs : JsSet.t)
  : list Pokemon.t :=
  favoritesFilter filters favs (typeFilter filters (searchFilter filters all)).

(** The filtered set as a function of the full record set, the filter
    state and the favourites. *)
Definition recompute (all : list Pokemon.t) (filters : Filters.t) (favs : JsSet.t)
  : JsError + list Pokemon.t :=
  JsArray.sort (compareFn (Filters.sort filters)) (selected all filters favs).

(** [applyFilters()].  [filtered] starts as a copy of [this.pokemon], so
    the sort in place leaves [this.pokemon] as it is. *)
Definition applyFilters : M JsValue :=
  let* filtered :=
    (fun st => eval (recompute (pokemon st) (currentFilters st) (favorites st)) st) in
  exec (withFilteredPokemon filtered) ;;
  exec (withCurrentPage 1) ;;
  exec renderPokemon ;;
  exec updateStats ;;
  exec toggleLoadMore.

(** ** Pagination *)

(** [loadMorePokemon()] *)
Definition loadMorePokemon (st : State) : State :=
  if isLoading st then st
  else
    let totalPages :=
      JsNumber.ceilDiv (Z.of_nat (length (filteredPokemon st))) pokemonPerPage in
    if currentPage st >=? totalPages then st
    else toggleLoadMore (renderPokemon (withCurrentPage (currentPage st + 1) st)).

(** ** Favourites *)

Definition favoritesKey : string := "pokemonMasterFavorites".

(** [saveFavorites()] *)
Definition saveFavorites : M JsValue :=
  tryCatch
    (let* favoriteIds := gets (fun st => JsSet.toArray (favorites st)) in
     let* store :=
       (fun st =>
          eval (Storage.setItem favoritesKey (JSON.stringify (JArray favoriteIds))
                  (localStorage st)) st) in
     exec (withLocalStorage store) ;;
     exec updateStats)
    (fun error => exec (consoleWrite (ConsoleError "Error saving favorites:" error))).

(** [toggleFavorite(pokemonId)]; it has no [return] statement. *)
Definition toggleFavorite (pokemonId : Z) : M JsValue :=
  (fun st =>
     if JsSet.has (favorites st) (JInt pokemonId) then
       (exec (withFavorites (JsSet.delete (favorites st) (JInt pokemonId))) ;;
        exec (showNotification "Removed from favorites" "success")) st
     else
       (exec (withFavorites (JsSet.add (favorites st) (JInt pokemonId))) ;;
        exec (showNotification "Added to favorites!" "success")) st) ;;
  saveFavorites ;;
  applyFilters ;;
  ret JUndefined.

(** [loadFavorites()] *)
Definition loadFavorites : M JsValue :=
  tryCatch
    (let* saved := (fun st => eval (Storage.getItem favoritesKey (localStorage st)) st) in
     match saved with
     | Some text =>
         if JsString.truthy text then
           let* favoriteIds := eval (JSON.parse text) in
           let* set := eval (JsSet.ofIterable favoriteIds) in
           exec (withFavorites set)
         else ret JUndefined
     | None => ret JUndefined
     end)
    (fun error => exec (consoleWrite (ConsoleError "Error loading favorites:" error))).

(** ** Pokémon data management *)

(** [fetchPokemonData(id)], once its promise has settled. *)
Definition fetchPokemonData (id : Z) : Settled :=
  match fetch id with
  | inr data => Fulfilled (transformPokemonData data)
  | inl reason => Rejected reason
  end.

Section Loader.

(** The two constants of [loadPokemon]. *)
Variables totalPokemon batchSize : Z.

(** The inner loop, [for (let j = i; j < i + batchSize && j <=
    totalPokemon; j++)], from [j] on.  It runs at most
    [totalPokemon + 1 - j] times, which is what [n] counts down. *)
Fixpoint fillBatch (n : nat) (i j : Z) : list Settled :=
  match n with
  | O => []
  | S n' =>
      if (j <? i + batchSize) && (j <=? totalPokemon)
      then fetchPokemonData j :: fillBatch n' i (j + 1)
      else []
  end.

(** [await Promise.allSettled(batch)] for the batch that starts at [i]:
    one result per request, in the order of the requests. *)
Definition batchResults (i : Z) : list Settled :=
  fillBatch (Z.to_nat (totalPokemon + 1 - i)) i i.

(** The body of the outer loop. *)
Definition loadBatch (i : Z) : M JsValue :=
  let successfulPokemon := fulfilledValues (batchResults i) in
  exec (fun st => withPokemon (pokemon st ++ successfulPokemon) st) ;;
  exec updateStats ;;
  if i =? 1 then applyFilters else ret JUndefined.

(** The outer loop, [for (let i = 1; i <= totalPokemon; i +=
    batchSize)], from [i] on.  [None] when [fuel] iterations do not end
    it. *)
Fixpoint loadBatches (fuel : nat) (i : Z) (st : State)
  : option ((JsError + JsValue) * State) :=
  match fuel with
  | O => None
  | S fuel' =>
      if i <=? totalPokemon then
        match loadBatch i st with
        | (inr _, st') => loadBatches fuel' (i + batchSize) st'
        | (inl error, st') => Some (inl error, st')
        end
      else Some (inr JUndefined, st)
  end.

(** [loadPokemon()] with its constants as parameters: the loop inside
    [try], the report of an exception in [catch], [hideLoading] in
    [finally]. *)
Definition loadPokemonWith (fuel : nat) (st : State)
  : option ((JsError + JsValue) * State) :=
  match loadBatches fuel 1 (showLoading st) with
  | None => None
  | Some (inr _, st') =>
      Some (inr JUndefined,
            hideLoading
              (consoleWrite
                 (ConsoleLog
                    ("✅ Loaded "
                     +:+ JsNumber.toString (Z.of_nat (length (pokemon st')))
                     +:+ " Pokémon"))
                 st'))
  | Some (inl error, st') =>
      Some (inr JUndefined,
            hideLoading
              (showNotification "Error loading Pokémon data" "error"
                 (consoleWrite (ConsoleError "Error loading Pokémon:" error) st')))
  end.

End Loader.

(** [loadPokemon()]: the first generation, twenty at a time. *)
Definition loadPokemon : nat -> State -> option ((JsError + JsValue) * State) :=
  loadPokemonWith 151 20.

(** ** Event listeners *)

(** The events [setupEventListeners] subscribes to, those of the detail
    modal apart. *)
Inductive Event : Type :=
| SearchInput (value : string)
| ClearSearchClick
| TypeFilterChange (value : string)
| SortSelectChange (value : string)
| ToggleFavoritesClick
| LoadMoreClick
| EnterKey (inSearchInput : bool)
| FavoriteButtonClick (pokemonId : Z).

Definition setFilters (f : Filters.t -> Filters.t) (st : State) : State :=
  withCurrentFilters (f (currentFilters st)) st.

(** The listener of each event. *)
Definition handle (ev : Event) : M JsValue :=
  match ev with
  | SearchInput value =>
      exec (setFilters (Filters.withSearch (JsString.toLowerCase value))) ;;
      applyFilters ;;
      exec toggleClearSearch
  | ClearSearchClick =>
      exec (fun st => withDom (Dom.withSearchInput "" (dom st)) st) ;;
      exec (setFilters (Filters.withSearch "")) ;;
      applyFilters ;;
      exec toggleClearSearch
  | TypeFilterChange value =>
      exec (setFilters (Filters.withType value)) ;;
      applyFilters
  | SortSelectChange value =>
      exec (setFilters (Filters.withSort value)) ;;
      applyFilters
  | ToggleFavoritesClick =>
      exec (setFilters
              (fun f => Filters.withShowFavorites (negb (Filters.showFavorites f)) f)) ;;
      exec (fun st =>
              withDom
                (Dom.withToggleFavorites (Filters.showFavorites (currentFilters st))
                   (dom st))
                st) ;;
      applyFilters
  | LoadMoreClick => exec loadMorePokemon
  | EnterKey inSearchInput =>
      if inSearchInput then ret JUndefined else exec loadMorePokemon
  | FavoriteButtonClick pokemonId => toggleFavorite pokemonId
  end.

(** ** Start-up *)

(** [init()]: the favourites, the listeners, the catalogue, then the
    loading screen goes and the success notification shows. *)
Definition init (fuel : nat) (st : State) : option ((JsError + JsValue) * State) :=
  match loadFavorites st with
  | (inl error, st1) => Some (inl error, st1)
  | (inr _, st1) =>
      match loadPokemon fuel st1 with
      | None => None
      | Some (inl error, st2) => Some (inl error, st2)
      | Some (inr _, st2) =>
          Some (inr JUndefined,
                consoleWrite (ConsoleLog "🎮 Pokémon Master initialized")
                  (showNotification "Pokédex loaded successfully!" "success"
                     (hideLoadingScreen st2)))
      end
  end.

End PokemonMaster.

(* ===================================================================== *)
(** * The detail modal *)
(* ===================================================================== *)

(** The body of [GET /pokemon-species/{id}], as far as the code reads it.
    [flavor_text_entries] is [None] when the body has no such field, which
    the optional chaining of [getEnglishDescription] allows for. *)
Module Species.

Record FlavorEntry : Type := mkEntry {
  flavor_text : string;
  language : Resource.t
}.

Record t : Type := mk { flavor_text_entries : option (list FlavorEntry) }.

End Species.

(** [text.replace(/\f/g, ' ')]: a space for every form feed. *)
Fixpoint replaceFormFeeds (text : string) : string :=
  match text with
  | EmptyString => EmptyString
  | String c r =>
      String (if (N_of_ascii c =? 12)%N then ascii_of_N 32 else c) (replaceFormFeeds r)
  end.

(** [getEnglishDescription(speciesData)]; [None] is [null]. *)
Definition getEnglishDescription (speciesData : Species.t) : option string :=
  let englishEntry :=
    match Species.flavor_text_entries speciesData with
    | Some entries =>
        List.find
          (fun entry => String.eqb (Resource.name (Species.language entry)) "en")
          entries
    | None => None
    end in
  match englishEntry with
  | Some entry => Some (replaceFormFeeds (Species.flavor_text entry))
  | None => None
  end.

(** What the modal shows, as far as the controller writes it: whether it
    is open, its title and its body.  The body is the markup the page came
    with, the loading spinner, the details of a record or the failure
    message.  The details stand for their markup by what it is made of: the
    record, the favourite flag and the description; [pokemonId] is the id
    the listener of their favourite button holds. *)
Module Modal.

Record Content : Type := mkContent {
  about : Pokemon.t;
  favorite : bool;
  description : string
}.

Inductive Body : Type :=
| Static
| Loading
| Details (content : Content) (pokemonId : Z)
| Failed.

Record t : Type := mk {
  show : bool;
  modalName : string;
  modalBody : Body
}.

Definition withShow (v : bool) (m : t) : t := mk v (modalName m) (modalBody m).
Definition withModalName (v : string) (m : t) : t := mk (show m) v (modalBody m).
Definition withModalBody (v : Body) (m : t) : t := mk (show m) (modalName m) v.

End Modal.

(** A call of [showPokemonDetails] that waits for the species: the record
    it found and the id it was called with. *)
Record Request : Type := mkRequest {
  requestPokemon : Pokemon.t;
  requestId : Z
}.

(** The controller, the modal, and the calls of [showPokemonDetails] whose
    request is in flight, oldest first. *)
Record Page : Type := mkPage {
  master : State;
  modal : Modal.t;
  pending : list Request
}.

Definition withMaster (v : State) (pg : Page) : Page := mkPage v (modal pg) (pending pg).
Definition withModal (v : Modal.t) (pg : Page) : Page := mkPage (master pg) v (pending pg).
Definition withPending (v : list Request) (pg : Page) : Page :=
  mkPage (master pg) (modal pg) v.

(** [createModalContent(pokemon, speciesData)].  The description is
    [description || 'No description available.']. *)
Definition createModalContent (st : State) (pokemon : Pokemon.t)
    (speciesData : Species.t) : Modal.Content :=
  let isFavorite := JsSet.has (favorites st) (JInt (Pokemon.id pokemon)) in
  let description := getEnglishDescription speciesData in
  Modal.mkContent pokemon isFavorite
    (match description with
     | Some text => if JsString.truthy text then text else "No description available."
     | None => "No description available."
     end).

(** [closeModal()] *)
Definition closeModal (pg : Page) : Page :=
  withModal (Modal.withShow false (modal pg)) pg.

(** [showPokemonDetails(pokemonId)] up to its [await]: nothing when no
    record has the id; else the title, the spinner, the modal opens, and
    the request for the species leaves. *)
Definition showPokemonDetails (pokemonId : Z) (pg : Page) : Page :=
  match List.find (fun p => Pokemon.id p =? pokemonId) (pokemon (master pg)) with
  | None => pg
  | Some pokemon =>
      withPending (pending pg ++ [mkRequest pokemon pokemonId])
        (withModal
           (Modal.withShow true
              (Modal.withModalBody Modal.Loading
                 (Modal.withModalName (Pokemon.displayName pokemon) (modal pg))))
           pg)
  end.

(** [showPokemonDetails] from its [await] on, when the request has
    settled with [outcome]: the species, or the failure that rejects the
    promise.  The favourites are read now, not when the call began. *)
Definition showPokemonDetailsResume (rq : Request) (outcome : JsError + Species.t)
    (pg : Page) : Page :=
  match outcome with
  | inr speciesData =>
      let modalContent := createModalContent (master pg) (requestPokemon rq) speciesData in
      withModal
        (Modal.withModalBody (Modal.Details modalContent (requestId rq)) (modal pg))
        pg
  | inl error =>
      withModal (Modal.withModalBody Modal.Failed (modal pg))
        (withMaster
           (consoleWrite (ConsoleError "Error loading Pokémon details:" error) (master pg))
           pg)
  end.

Section DetailModal.

Variable localeCompare : string -> string -> Z.

(** What happens on the page: the events of the controls, a click on a
    card, the clicks in the modal, the Escape key, and the settling of a
    request in flight. *)
Inductive PageEvent : Type :=
| Control (ev : Event)
| CardClick (pokemonId : Z)
| ModalCloseClick
| ModalClick (onBackdrop : bool)
| EscapeKey
| ModalFavoriteClick
| SpeciesSettled (k : nat) (outcome : JsError + Species.t).

(** The listener [setupModalEventListeners(pokemonId)] gives the
    favourite button of the details. *)
Definition modalFavoriteListener (pokemonId : Z) (pg : Page)
  : (JsError + JsValue) * Page :=
  match toggleFavorite localeCompare pokemonId (master pg) with
  | (inl error, st) => (inl error, withMaster st pg)
  | (inr _, st) =>
      (inr JUndefined, showPokemonDetails pokemonId (closeModal (withMaster st pg)))
  end.

(** The listener of each event of the page.  The favourite button of the
    modal exists while the body is the details; a request settles once. *)
Definition pageHandle (ev : PageEvent) (pg : Page) : (JsError + JsValue) * Page :=
  match ev with
  | Control ev =>
      match handle localeCompare ev (master pg) with
      | (r, st) => (r, withMaster st pg)
      end
  | CardClick pokemonId => (inr JUndefined, showPokemonDetails pokemonId pg)
  | ModalCloseClick => (inr JUndefined, closeModal pg)
  | ModalClick onBackdrop =>
      (inr JUndefined, if onBackdrop then closeModal pg else pg)
  | EscapeKey => (inr JUndefined, closeModal pg)
  | ModalFavoriteClick =>
      match Modal.modalBody (modal pg) with
      | Modal.Details _ pokemonId => modalFavoriteListener pokemonId pg
      | _ => (inr JUndefined, pg)
      end
  | SpeciesSettled k outcome =>
      match pending pg !! k with
      | Some rq =>
          (inr JUndefined,
           showPokemonDetailsResume rq outcome
             (withPending (take k (pending pg) ++ drop (S k) (pending pg)) pg))
      | None => (inr JUndefined, pg)
      end
  end.

(** The page after a run of events, an exception ending only the listener
    that threw. *)
Definition pageRun (events : list PageEvent) (pg : Page) : Page :=
  fold_left (fun pg ev => snd (pageHandle ev pg)) events pg.

End DetailModal.

(* ===================================================================== *)
(** * The vocabulary of the properties *)
(* ===================================================================== *)

(** [text] occurs in the name, in the lowercased display name or in the
    padded number of [pokemon]. *)
Definition MatchesSearch (text : string) (pokemon : Pokemon.t) : Prop :=
  JsString.Substring text (Pokemon.name pokemon)
  \/ JsString.Substring text (JsString.toLowerCase (Pokemon.displayName pokemon))
  \/ JsString.Substring text (Pokemon.number pokemon).

(** A record with at least one type. *)
Definition Typed (pokemon : Pokemon.t) : Prop := Pokemon.types pokemon <> [].

(** The filtered set a call of [applyFilters] leaves, or what it throws. *)
Definition filteredOutput (r : (JsError + JsValue) * State) : JsError + list Pokemon.t :=
  match r with
  | (inr _, st') => inr (filteredPokemon st')
  | (inl e, _) => inl e
  end.

(** The comparator [(a, b) => key(a) - key(b)] of a sort by an integer
    key. *)
Definition byKey {A : Type} (key : A -> Z) (a b : A) : JsError + Z :=
  inr (key a - key b).

(** The filtered set is the recomputation over the state. *)
Definition UpToDate (localeCompare : string -> string -> Z) (st : State) : Prop :=
  recompute localeCompare (pokemon st) (currentFilters st) (favorites st)
  = inr (filteredPokemon st).

(** The events that change a field of the filter state. *)
Definition changesFilters (ev : Event) : bool :=
  match ev with
  | SearchInput _ | ClearSearchClick | TypeFilterChange _ | SortSelectChange _
  | ToggleFavoritesClick => true
  | LoadMoreClick | EnterKey _ | FavoriteButtonClick _ => false
  end.

(** The number of pages of the filtered set, as [loadMorePokemon] and
    [toggleLoadMore] compute it. *)
Definition totalPages (st : State) : Z :=
  JsNumber.ceilDiv (Z.of_nat (length (filteredPokemon st))) pokemonPerPage.

(** A decoded value [new Set] makes no member of: [null], or a value that is
    not iterable. *)
Definition Memberless (v : JsValue) : Prop :=
  match v with
  | JNull | JBool _ | JNumber _ _ | JObject _ => True
  | JUndefined | JString _ | JArray _ => False
  end.

(** The store gives [loadFavorites] nothing to make a set of: it cannot be
    read, has no entry under the key or an empty one, or its entry is not
    JSON or decodes to a memberless value. *)
Definition NothingToLoad (store : Storage.t) : Prop :=
  Storage.readable store = false
  \/ Storage.entries store !! favoritesKey = None
  \/ Storage.entries store !! favoritesKey = Some ""
  \/ exists text,
      Storage.entries store !! favoritesKey = Some text
      /\ ((exists e, JSON.parse text = inl e)
          \/ exists v, JSON.parse text = inr v /\ Memberless v).

(** The message [toggleFavorite] shows for the new membership. *)
Definition toggleMessage (nowMember : bool) : string :=
  if nowMember then "Added to favorites!" else "Removed from favorites".

(** The store after a write of the favourites [favs] that succeeds. *)
Definition saved (favs : JsSet.t) (store : Storage.t) : Storage.t :=
  Storage.mk
    (<[favoritesKey := JSON.stringify (JArray (JsSet.toArray favs))]> (Storage.entries store))
    (Storage.readable store) (Storage.writable store).

(** The records of the ids [first], [first + 1], ... ([count] of them)
    whose request succeeds, in the order of the ids. *)
Definition fetched (fetch : Z -> JsError + Payload.t) (first count : Z) : list Pokemon.t :=
  fulfilledValues (map (fetchPokemonData fetch) (seqZ first count)).

(** What the loop leaves of the state it is given. *)
Definition SameSession (st st' : State) : Prop :=
  favorites st' = favorites st
  /\ currentFilters st' = currentFilters st
  /\ isLoading st' = isLoading st
  /\ localStorage st' = localStorage st
  /\ Dom.notification (dom st') = Dom.notification (dom st)
  /\ console st' = console st.

(** [rest] does not go on with a digit. *)
Definition NoDigitAhead (rest : string) : Prop :=
  match rest with
  | String c _ => JSON.isDigit c = false
  | EmptyString => True
  end.

(** A numeral that does not start with a zero. *)
Definition NonzeroHead (u : Decimal.uint) : Prop :=
  match u with
  | Decimal.Nil | Decimal.D0 _ => False
  | _ => True
  end.

(** An integer of at most 21 digits, which [Number::toString] writes in
    full. *)
Definition Plain (n : Z) : Prop :=
  (String.length (JSON.natString (Z.abs_N n)) <= 21)%nat.

(** [Number.isSafeInteger(n)]: an integer a double holds exactly, which
    [Number::toString] writes in decimal digits. *)
Definition SafeInteger (n : Z) : Prop := - 2 ^ 53 < n < 2 ^ 53.


(** [rest] goes on with a comma or with the closing bracket. *)
Definition Delimited (rest : string) : Prop :=
  exists r, rest = String (JSON.chr 44) r \/ rest = String (JSON.chr 93) r.

(** The texts of [ids], separated by commas. *)
Definition idTexts (ids : list Z) : string :=
  JSON.join "," (map JsNumber.toString ids).

(** The test of the three filters on one record: each filter that is on
    lets it through. *)
Definition passes (filters : Filters.t) (favs : JsSet.t) (p : Pokemon.t) : bool :=
  (negb (JsString.truthy (Filters.search filters))
   || (JsString.includes (Pokemon.name p) (Filters.search filters)
       || JsString.includes (JsString.toLowerCase (Pokemon.displayName p))
            (Filters.search filters)
       || JsString.includes (Pokemon.number p) (Filters.search filters)))
  && (String.eqb (Filters.type filters) "all"
      || JsArray.includes (Pokemon.types p) (Filters.type filters))
  && (negb (Filters.showFavorites filters) || JsSet.has favs (JInt (Pokemon.id p))).

(** The same test, spelled out. *)
Definition Passes (filters : Filters.t) (favs : JsSet.t) (p : Pokemon.t) : Prop :=
  (Filters.search filters = "" \/ MatchesSearch (Filters.search filters) p)
  /\ (Filters.type filters = "all" \/ In (Filters.type filters) (Pokemon.types p))
  /\ (Filters.showFavorites filters = false
      \/ JsSet.has favs (JInt (Pokemon.id p)) = true).

(** The cards, the empty-state message, the button to load more and the
    three counters show the state: the first pages of the filtered set
    with the favourite flags of now, and the sizes. *)
Definition InSync (st : State) : Prop :=
  let pokemonToShow :=
    JsArray.slice 0 (currentPage st * pokemonPerPage) (filteredPokemon st) in
  Dom.pokeContainer (dom st) = map (createPokemonCard st) pokemonToShow
  /\ Dom.emptyState (dom st) = match pokemonToShow with [] => true | _ :: _ => false end
  /\ Dom.loadMore (dom st) = (currentPage st <? totalPages st)
  /\ Dom.totalCount (dom st) = Z.of_nat (length (pokemon st))
  /\ Dom.showingCount (dom st) = Z.of_nat (length (filteredPokemon st))
  /\ Dom.favoritesCount (dom st) = JsSet.size (favorites st).

(** The button that clears the search shows when there is a search text,
    and the favourites toggle is lit when the favourites filter is on. *)
Definition ControlsInSync (st : State) : Prop :=
  Dom.clearSearch (dom st) = JsString.truthy (Filters.search (currentFilters st))
  /\ Dom.toggleFavorites (dom st) = Filters.showFavorites (currentFilters st).

(** The text is ASCII, where the case mapping of the model is that of the
    language. *)
Definition isAscii (s : string) : bool :=
  forallb (fun c => (N_of_ascii c <? 128)%N) (list_ascii_of_string s).

(** A form feed occurs in the text. *)
Definition HasFormFeed (s : string) : Prop :=
  In (ascii_of_N 12) (list_ascii_of_string s).

(** [pokemon.types[0]] as the comparator of the sort by type reads it:
    the first type, and for a record without one the text of
    [undefined]. *)
Definition mainType (p : Pokemon.t) : string :=
  match JsArray.first (Pokemon.types p) with
  | Some t => t
  | None => "undefined"
  end.

(** A collation orders the strings: what is not before is after or equal,
    and the order is transitive. *)
Definition Consistent (compare : string -> string -> Z) : Prop :=
  (forall a b, 0 <= compare a b -> compare b a <= 0)
  /\ (forall a b c, compare a b <= 0 -> compare b c <= 0 -> compare a c <= 0).

(** No two members of the set are the same value. *)
Fixpoint distinct (s : JsSet.t) : bool :=
  match s with
  | [] => true
  | x :: r => negb (existsb (sameValueZero x) r) && distinct r
  end.

(** The state after a run of events, an exception ending only the
    listener that threw. *)
Definition run (localeCompare : string -> string -> Z) (events : list Event) (st : State)
  : State :=
  fold_left (fun st ev => snd (handle localeCompare ev st)) events st.

(** Every listener of the run returns. *)
Fixpoint allReturn (localeCompare : string -> string -> Z) (events : list Event)
    (st : State) : Prop :=
  match events with
  | [] => True
  | ev :: rest =>
      fst (handle localeCompare ev st) = inr JUndefined
      /\ allReturn localeCompare rest (snd (handle localeCompare ev st))
  end.

(** The events whose listener calls [applyFilters]. *)
Definition refreshes (ev : Event) : bool :=
  match ev with
  | LoadMoreClick | EnterKey _ => false
  | _ => true
  end.

(** The last entry of [stats] that is named [name]. *)
Definition lastStat (name : string) (stats : list Payload.StatEntry)
  : option Payload.StatEntry :=
  List.find (fun s => String.eqb (Resource.name (Payload.stat s)) name) (rev stats).

(* ===================================================================== *)
(** * Sample data *)
(* ===================================================================== *)

(** A collation to run the model with: the order of the code units. *)
Definition codeUnitCompare (a b : string) : Z :=
  match String.compare a b with
  | Lt => -1
  | Eq => 0
  | Gt => 1
  end.

(** A payload such as the API serves, with the given id, name and types. *)
Definition samplePayload (id : Z) (name : string) (types : list string) : Payload.t :=
  Payload.mk id name
    (map (fun t => Payload.mkType (Resource.mk t)) types)
    (Payload.mkSprites None (Some "sprite.png"))
    [Payload.mkStat (Resource.mk "hp") 45; Payload.mkStat (Resource.mk "speed") 45]
    7 69
    [Payload.mkAbility (Resource.mk "overgrow")]
    [Payload.mkMove (Resource.mk "tackle")].

Definition bulbasaur : Pokemon.t :=
  transformPokemonData (samplePayload 1 "bulbasaur" ["grass"; "poison"]).
Definition charmander : Pokemon.t :=
  transformPokemonData (samplePayload 4 "charmander" ["fire"]).
Definition squirtle : Pokemon.t :=
  transformPokemonData (samplePayload 7 "squirtle" ["water"]).

(** A record the transformer makes of a payload that lists no type. *)
Definition missingno (id : Z) : Pokemon.t :=
  transformPokemonData (samplePayload id "missingno" []).

(** The record of number [id] in a catalogue of normal-type specimens. *)
Definition specimen (id : Z) : Payload.t :=
  samplePayload id ("specimen-" +:+ JsNumber.toString id) ["normal"].

Definition specimens (n : Z) : list Pokemon.t :=
  map (fun id => transformPokemonData (specimen id)) (seqZ 1 n).

(** A store that holds nothing and works. *)
Definition emptyStore : Storage.t := Storage.mk ∅ true true.

(** A store that holds nothing and refuses every write. *)
Definition fullStore : Storage.t := Storage.mk ∅ true false.

(** A store that has [text] under the favourites key. *)
Definition storeHolding (text : string) : Storage.t :=
  Storage.mk (<[favoritesKey := text]> ∅) true true.

(** The controller showing the first page of [records], all of them
    selected, with [loading] as its busy flag. *)
Definition browsing (records : list Pokemon.t) (loading : bool) : State :=
  renderPokemon
    (withIsLoading loading
       (withFilteredPokemon records (withPokemon records (constructor emptyStore)))).

(** An API that serves every specimen. *)
Definition fetchAll (id : Z) : JsError + Payload.t := inr (specimen id).


(** The controller once [init] has run against [fetchAll]. *)
Definition afterInit : State :=
  match init codeUnitCompare fetchAll 152 (constructor emptyStore) with
  | Some (_, st) => st
  | None => constructor emptyStore
  end.

(** A species with an entry in German and one in English. *)
Definition sampleSpecies (text : string) : Species.t :=
  Species.mk
    (Some
       [Species.mkEntry "Ein Samen auf dem Ruecken." (Resource.mk "de");
        Species.mkEntry text (Resource.mk "en")]).

(** The page with three records on it, the modal closed and no request
    in flight. *)
Definition gallery : Page :=
  mkPage (browsing [bulbasaur; charmander; squirtle] false)
    (Modal.mk false "" Modal.Static) [].

(** The same page once the details of charmander have been asked for and
    have arrived. *)
Definition detailsOfCharmander : Page :=
  pageRun codeUnitCompare
    [CardClick 4; SpeciesSettled 0 (inr (sampleSpecies "The flame on its tail."))]
    gallery.

(** Projections of a state built by the setters, computed by need. *)
Ltac state_norm :=
  lazy beta iota zeta delta
    [pokemon filteredPokemon favorites currentPage isLoading currentFilters
     dom localStorage console
     withPokemon withFilteredPokemon withFavorites withCurrentPage
     withIsLoading withCurrentFilters withDom withLocalStorage consoleWrite
     Dom.pokeContainer Dom.emptyState Dom.loadMore Dom.clearSearch
     Dom.searchInput Dom.toggleFavorites Dom.totalCount Dom.showingCount
     Dom.favoritesCount Dom.notification Dom.loadingScreen
     Dom.withCards Dom.withLoadMore Dom.withClearSearch Dom.withSearchInput
     Dom.withToggleFavorites Dom.withStats Dom.withNotification
     Dom.withLoadingScreen
     updateStats showLoading hideLoading hideLoadingScreen showNotification
     toggleLoadMore toggleClearSearch renderPokemon createPokemonCard].

(* ===================================================================== *)
(** * Properties of the built-ins *)
(* ===================================================================== *)

Section StringFacts.

Import JsString.

Lemma startsWith_spec (s sub : string) :
  startsWith s sub = true <-> exists post, s = sub +:+ post.
Proof.
  revert s; induction sub as [|a sub IH]; intros s; simpl.
  - split; [intros _; exists s; reflexivity | reflexivity].
  - destruct s as [|b s].
    + split; [discriminate | intros [post H]; discriminate].
    + rewrite andb_true_iff, IH. split.
      * intros [Hab [post ->]]. apply Ascii.eqb_eq in Hab. subst. now exists post.
      * intros [post H]. injection H as -> ->. split; [apply Ascii.eqb_refl | now exists post].
Qed.

(** [includes] decides the occurrence of [sub] in [s]. *)
Lemma includes_spec (s sub : string) :
  includes s sub = true <-> Substring sub s.
Proof.
  unfold Substring. induction s as [|c s IH].
  - cbn [includes]. rewrite orb_false_r, startsWith_spec. split.
    + intros [post H]. exists EmptyString, post. exact H.
    + intros [pre [post H]]. destruct pre; [now exists post | discriminate].
  - cbn [includes]. rewrite orb_true_iff, startsWith_spec, IH. split.
    + intros [[post H] | [pre [post H]]].
      * exists EmptyString, post. exact H.
      * exists (String c pre), post. simpl. now rewrite H.
    + intros [pre [post H]]. destruct pre as [|d pre].
      * left. now exists post.
      * right. simpl in H. injection H as _ H. now exists pre, post.
Qed.

Lemma truthy_spec (s : string) : truthy s = true <-> s <> EmptyString.
Proof. destruct s; simpl; split; congruence. Qed.

End StringFacts.

Section ArrayFacts.

Context {A : Type} (compareFn : A -> A -> JsError + Z).

Lemma insert_Permutation (x : A) (l l' : list A) :
  JsArray.insert compareFn x l = inr l' -> Permutation (x :: l) l'.
Proof.
  revert l'; induction l as [|y r IH]; intros l' H; simpl in H.
  - injection H as <-. reflexivity.
  - destruct (compareFn x y) as [e|c]; [discriminate|].
    destruct (c <? 0).
    + injection H as <-. reflexivity.
    + destruct (JsArray.insert compareFn x r) as [e|r'] eqn:E; [discriminate|].
      injection H as <-. rewrite perm_swap. constructor. now apply IH.
Qed.

Lemma sortInto_Permutation (l sorted l' : list A) :
  JsArray.sortInto compareFn sorted l = inr l' -> Permutation (sorted ++ l) l'.
Proof.
  revert sorted; induction l as [|x r IH]; intros sorted H; simpl in H.
  - injection H as <-. now rewrite app_nil_r.
  - destruct (JsArray.insert compareFn x sorted) as [e|s'] eqn:E; [discriminate|].
    apply IH in H. apply insert_Permutation in E.
    rewrite <- H, <- E. rewrite <- Permutation_middle. reflexivity.
Qed.

(** The sorted array holds the elements of the array, each as often. *)
Lemma sort_Permutation (l l' : list A) :
  JsArray.sort compareFn l = inr l' -> Permutation l l'.
Proof. intros H. now apply sortInto_Permutation in H. Qed.

(** The sort throws only what the comparator throws, on two elements of
    the array. *)
Lemma insert_throws (x : A) (l : list A) (e : JsError) :
  JsArray.insert compareFn x l = inl e ->
  exists y, In y l /\ compareFn x y = inl e.
Proof.
  induction l as [|y r IH]; intros H; simpl in H; [discriminate|].
  destruct (compareFn x y) as [e'|c] eqn:E.
  - injection H as ->. exists y. split; [now left | exact E].
  - destruct (c <? 0); [discriminate|].
    destruct (JsArray.insert compareFn x r) as [e'|r']; [|discriminate].
    injection H as ->. destruct IH as [z [Hz Hc]]; [reflexivity|].
    exists z. split; [now right | exact Hc].
Qed.

Lemma sortInto_throws (l sorted : list A) (e : JsError) :
  JsArray.sortInto compareFn sorted l = inl e ->
  exists x y, In x l /\ In y (sorted ++ l) /\ compareFn x y = inl e.
Proof.
  revert sorted; induction l as [|x r IH]; intros sorted H; simpl in H; [discriminate|].
  destruct (JsArray.insert compareFn x sorted) as [e'|s'] eqn:E.
  - injection H as ->. apply insert_throws in E as [y [Hy Hc]].
    exists x, y. repeat split; [now left | apply in_or_app; now left | exact Hc].
  - apply IH in H as [a [b [Ha [Hb Hc]]]].
    exists a, b. repeat split; [now right | | exact Hc].
    apply insert_Permutation in E.
    apply in_app_or in Hb as [Hb|Hb].
    + apply (Permutation_in _ (Permutation_sym E)) in Hb.
      destruct Hb as [<-|Hb]; apply in_or_app; [right; now left | now left].
    + apply in_or_app. right. now right.
Qed.

Lemma sort_throws (l : list A) (e : JsError) :
  JsArray.sort compareFn l = inl e ->
  exists x y, In x l /\ In y l /\ compareFn x y = inl e.
Proof. intros H. now apply sortInto_throws in H. Qed.

(** A comparator that returns on every pair lets the sort return. *)
Lemma sort_returns (l : list A) :
  (forall x y, In x l -> In y l -> exists c, compareFn x y = inr c) ->
  exists l', JsArray.sort compareFn l = inr l'.
Proof.
  intros H. destruct (JsArray.sort compareFn l) as [e|l'] eqn:E; [|now exists l'].
  apply sort_throws in E as [x [y [Hx [Hy Hc]]]].
  destruct (H x y Hx Hy) as [c Hc']. congruence.
Qed.

Lemma slice0_firstn (n : Z) (l : list A) :
  0 <= n -> JsArray.slice 0 n l = firstn (Z.to_nat n) l.
Proof.
  intros Hn. unfold JsArray.slice. cbn zeta.
  replace (0 <? 0) with false by reflexivity.
  destruct (Z.ltb_spec n 0) as [?|_]; [lia|].
  rewrite (Z.min_l 0) by lia. change (Z.to_nat 0) with O. change (skipn 0 l) with l.
  destruct (Z.le_gt_cases n (Z.of_nat (length l))).
  - f_equal. lia.
  - rewrite !firstn_all2 by lia. reflexivity.
Qed.

(** A slice from 0 is a prefix, whatever its end. *)
Lemma slice0_prefix (n : Z) (l : list A) :
  exists rest, l = JsArray.slice 0 n l ++ rest.
Proof.
  unfold JsArray.slice. cbn zeta.
  replace (0 <? 0) with false by reflexivity.
  rewrite (Z.min_l 0) by lia. change (Z.to_nat 0) with O. change (skipn 0 l) with l.
  eexists. symmetry. apply firstn_skipn.
Qed.

End ArrayFacts.

(* ===================================================================== *)
(** * Properties of the filter / sort / paginate engine *)
(* ===================================================================== *)

(** Two states, or two pages, with the same fields are the same. *)
Lemma State_ext (s1 s2 : State) :
  pokemon s1 = pokemon s2 ->
  filteredPokemon s1 = filteredPokemon s2 ->
  favorites s1 = favorites s2 ->
  currentPage s1 = currentPage s2 ->
  isLoading s1 = isLoading s2 ->
  currentFilters s1 = currentFilters s2 ->
  dom s1 = dom s2 ->
  localStorage s1 = localStorage s2 ->
  console s1 = console s2 ->
  s1 = s2.
Proof. destruct s1, s2. cbn. intros. now subst. Qed.

Lemma Dom_ext (d1 d2 : Dom.t) :
  Dom.pokeContainer d1 = Dom.pokeContainer d2 ->
  Dom.emptyState d1 = Dom.emptyState d2 ->
  Dom.loadMore d1 = Dom.loadMore d2 ->
  Dom.clearSearch d1 = Dom.clearSearch d2 ->
  Dom.searchInput d1 = Dom.searchInput d2 ->
  Dom.toggleFavorites d1 = Dom.toggleFavorites d2 ->
  Dom.totalCount d1 = Dom.totalCount d2 ->
  Dom.showingCount d1 = Dom.showingCount d2 ->
  Dom.favoritesCount d1 = Dom.favoritesCount d2 ->
  Dom.notification d1 = Dom.notification d2 ->
  Dom.loadingScreen d1 = Dom.loadingScreen d2 ->
  d1 = d2.
Proof. destruct d1, d2. cbn. intros. now subst. Qed.

Section EngineFacts.

Variable localeCompare : string -> string -> Z.

Local Abbreviation applyFilters := (applyFilters localeCompare).
Local Abbreviation recompute := (recompute localeCompare).

(** *** The three filters keep records of their input *)

Lemma searchFilter_In filters all p :
  In p (searchFilter filters all) -> In p all.
Proof.
  unfold searchFilter. destruct (JsString.truthy _); [|trivial].
  intros H. now apply filter_In in H.
Qed.

Lemma typeFilter_In filters all p :
  In p (typeFilter filters all) -> In p all.
Proof.
  unfold typeFilter. destruct (negb _); [|trivial].
  intros H. now apply filter_In in H.
Qed.

Lemma favoritesFilter_In filters favs all p :
  In p (favoritesFilter filters favs all) -> In p all.
Proof.
  unfold favoritesFilter. destruct (Filters.showFavorites _); [|trivial].
  intros H. now apply filter_In in H.
Qed.

Lemma selected_In all filters favs p :
  In p (selected all filters favs) ->
  In p (searchFilter filters all) /\ In p (typeFilter filters all).
Proof.
  unfold selected. intros H. apply favoritesFilter_In in H. split.
  - now apply typeFilter_In in H.
  - revert H. unfold typeFilter. destruct (negb _); [|apply searchFilter_In].
    rewrite !filter_In. intros [H1 H2]. split; [|exact H2].
    now apply searchFilter_In in H1.
Qed.

Lemma recompute_In all filters favs l p :
  recompute all filters favs = inr l ->
  In p l -> In p (selected all filters favs).
Proof.
  intros H Hp. apply sort_Permutation in H.
  now apply (Permutation_in _ (Permutation_sym H)).
Qed.

(** *** [applyFilters], case by case *)

Lemma applyFilters_returns st l :
  recompute (pokemon st) (currentFilters st) (favorites st) = inr l ->
  applyFilters st =
  (inr JUndefined,
   toggleLoadMore
     (updateStats (renderPokemon (withCurrentPage 1 (withFilteredPokemon l st))))).
Proof. intros H. unfold applyFilters, bind, eval, exec. now rewrite H. Qed.

Lemma applyFilters_throws st e :
  recompute (pokemon st) (currentFilters st) (favorites st) = inl e ->
  applyFilters st = (inl e, st).
Proof. intros H. unfold applyFilters, bind, eval, exec. now rewrite H. Qed.

Lemma applyFilters_cases st :
  (exists l,
      recompute (pokemon st) (currentFilters st) (favorites st) = inr l /\
      applyFilters st =
      (inr JUndefined,
       toggleLoadMore
         (updateStats (renderPokemon (withCurrentPage 1 (withFilteredPokemon l st))))))
  \/ (exists e,
        recompute (pokemon st) (currentFilters st) (favorites st) = inl e /\
        applyFilters st = (inl e, st)).
Proof.
  destruct (recompute (pokemon st) (currentFilters st) (favorites st)) as [e|l] eqn:E.
  - right. exists e. split; [reflexivity | now apply applyFilters_throws].
  - left. exists l. split; [reflexivity | now apply applyFilters_returns].
Qed.

(** What a call that returns has written. *)
Lemma applyFilters_effect st v st' :
  applyFilters st = (inr v, st') ->
  recompute (pokemon st) (currentFilters st) (favorites st) = inr (filteredPokemon st')
  /\ currentPage st' = 1
  /\ pokemon st' = pokemon st
  /\ currentFilters st' = currentFilters st
  /\ favorites st' = favorites st
  /\ isLoading st' = isLoading st
  /\ localStorage st' = localStorage st
  /\ Dom.notification (dom st') = Dom.notification (dom st)
  /\ console st' = console st.
Proof.
  intros H. destruct (applyFilters_cases st) as [[l [E R]]|[e [E R]]];
    rewrite R in H; [|discriminate].
  injection H as _ <-. rewrite E. repeat split.
  unfold renderPokemon. simpl. now destruct (JsArray.slice _ _ _).
Qed.

(** *** The comparator *)

Lemma compareFn_returns sortKey a b :
  Typed a -> exists c, compareFn localeCompare sortKey a b = inr c.
Proof.
  intros Ha. unfold compareFn.
  destruct (String.eqb sortKey "name"); [eauto|].
  destruct (String.eqb sortKey "type"); [|eauto].
  destruct (Pokemon.types a) eqn:E; [contradiction|]. simpl. eauto.
Qed.

Lemma compareFn_throws sortKey a b e :
  compareFn localeCompare sortKey a b = inl e -> sortKey = "type" /\ Pokemon.types a = [].
Proof.
  unfold compareFn.
  destruct (String.eqb sortKey "name"); [discriminate|].
  destruct (String.eqb_spec sortKey "type") as [->|_]; [|discriminate].
  destruct (Pokemon.types a); [split; reflexivity | discriminate].
Qed.


(** With a type on every record, [applyFilters] returns. *)
Lemma applyFilters_returns_on_typed st :
  Forall Typed (pokemon st) ->
  exists st', applyFilters st = (inr JUndefined, st').
Proof.
  intros Hall. rewrite List.Forall_forall in Hall.
  destruct (applyFilters_cases st) as [[l [E R]]|[e [E R]]]; [eauto|].
  exfalso. apply sort_throws in E as [x [y [Hx [_ Hc]]]].
  apply selected_In in Hx as [Hx _]. apply searchFilter_In in Hx.
  apply compareFn_throws in Hc as [_ Hc]. exact (Hall x Hx Hc).
Qed.

(** A call that throws met a record without a type, under the sort key
    ["type"], and has written nothing. *)
Lemma applyFilters_throws_inv st e st' :
  applyFilters st = (inl e, st') ->
  Filters.sort (currentFilters st) = "type"
  /\ st' = st
  /\ exists p, In p (pokemon st) /\ Pokemon.types p = [].
Proof.
  intros H.
  destruct (applyFilters_cases st) as [[l [E R]]|[e' [E R]]];
    rewrite R in H; [discriminate|].
  injection H as -> <-.
  apply sort_throws in E as [x [y [Hx [_ Hc]]]].
  apply selected_In in Hx as [Hx _]. apply searchFilter_In in Hx.
  apply compareFn_throws in Hc as [Hk Hc]. eauto.
Qed.

(** *** The search filter *)

(** C2.  With a non-empty search text, every record the search filter of
    [applyFilters] keeps is a record of its input that contains the text
    as a substring of its name, of its display name in lower case, or of
    its padded number; and so does every record of the filtered set a
    call of [applyFilters] leaves. *)
Theorem search_filter_keeps_matches (filters : Filters.t) :
  Filters.search filters <> "" ->
  (forall all p,
      In p (searchFilter filters all) ->
      In p all /\ MatchesSearch (Filters.search filters) p)
  /\ (forall st v st',
         currentFilters st = filters ->
         applyFilters st = (inr v, st') ->
         forall p, In p (filteredPokemon st') ->
                   MatchesSearch (Filters.search filters) p).
Proof.
  intros Hs.
  assert (Hstep : forall all p,
             In p (searchFilter filters all) ->
             In p all /\ MatchesSearch (Filters.search filters) p).
  { intros all p. unfold searchFilter.
    apply truthy_spec in Hs. rewrite Hs.
    rewrite filter_In, !orb_true_iff, !includes_spec.
    unfold MatchesSearch. tauto. }
  split; [exact Hstep|].
  intros st v st' Hf H p Hp.
  apply applyFilters_effect in H as [H _].
  apply (recompute_In _ _ _ _ p H) in Hp.
  apply selected_In in Hp as [Hp _]. rewrite Hf in Hp.
  now apply Hstep in Hp.
Qed.

(** *** The type filter *)

(** C7.  With a type filter other than ["all"], every record the type
    filter of [applyFilters] keeps has that very string among its types;
    and so does every record of the filtered set a call of [applyFilters]
    leaves. *)
Theorem type_filter_keeps_members (filters : Filters.t) :
  Filters.type filters <> "all" ->
  (forall filtered p,
      In p (typeFilter filters filtered) ->
      In p filtered /\ In (Filters.type filters) (Pokemon.types p))
  /\ (forall st v st',
         currentFilters st = filters ->
         applyFilters st = (inr v, st') ->
         forall p, In p (filteredPokemon st') ->
                   In (Filters.type filters) (Pokemon.types p)).
Proof.
  intros Ht.
  assert (Hstep : forall filtered p,
             In p (typeFilter filters filtered) ->
             In p filtered /\ In (Filters.type filters) (Pokemon.types p)).
  { intros filtered p. unfold typeFilter.
    destruct (String.eqb_spec (Filters.type filters) "all") as [E|_]; [contradiction|].
    simpl. rewrite filter_In. intros [Hin Hinc]. split; [exact Hin|].
    unfold JsArray.includes in Hinc. apply existsb_exists in Hinc as [t [Hin' Heq]].
    apply String.eqb_eq in Heq. now subst. }
  split; [exact Hstep|].
  intros st v st' Hf H p Hp.
  apply applyFilters_effect in H as [H _].
  apply (recompute_In _ _ _ _ p H) in Hp.
  apply selected_In in Hp as [_ Hp]. rewrite Hf in Hp.
  now apply Hstep in Hp.
Qed.

(** *** Determinism and idempotence *)

(** C6.  The filtered set [applyFilters] leaves, or the exception it ends
    with, is the function [recompute] of the full record set, the filter
    state and the favourites, whatever the rest of the state is; and a
    second call straight after the first returns the same and leaves the
    whole state as the first call left it. *)
Theorem applyFilters_pure_idempotent (st : State) :
  filteredOutput (applyFilters st)
  = recompute (pokemon st) (currentFilters st) (favorites st)
  /\ (forall st2,
         pokemon st2 = pokemon st ->
         currentFilters st2 = currentFilters st ->
         favorites st2 = favorites st ->
         filteredOutput (applyFilters st2) = filteredOutput (applyFilters st))
  /\ applyFilters (snd (applyFilters st)) = applyFilters st.
Proof.
  assert (Hout : forall s,
             filteredOutput (applyFilters s)
             = recompute (pokemon s) (currentFilters s) (favorites s)).
  { intros s. destruct (applyFilters_cases s) as [[l [E R]]|[e [E R]]];
      rewrite R, E; reflexivity. }
  split; [apply Hout|]. split.
  - intros st2 H1 H2 H3. rewrite !Hout. now rewrite H1, H2, H3.
  - destruct (applyFilters_cases st) as [[l [E R]]|[e [E R]]]; rewrite R; cbn [snd].
    + set (st' := toggleLoadMore _).
      rewrite (applyFilters_returns st' l) by exact E.
      f_equal. subst st'.
      apply State_ext; try reflexivity.
      apply Dom_ext; try reflexivity; state_norm;
        destruct (JsArray.slice 0 (1 * pokemonPerPage) l); reflexivity.
    + exact R.
Qed.

(** *** The comparator's error branch *)

(** C10.  When every record of the full set has at least one type, the
    comparator returns on every pair of them, for every sort key, and
    [applyFilters] returns for every filter state.  Conversely a call of
    [applyFilters] that throws has the sort key ["type"], leaves the state
    untouched and has met a record without a type.  The transformer gives
    a record as many types as the payload lists, so none exactly when the
    payload lists none. *)
Theorem applyFilters_throws_only_on_untyped :
  (forall st,
      Forall Typed (pokemon st) ->
      (forall sortKey a b,
          In a (pokemon st) -> In b (pokemon st) ->
          exists c, compareFn localeCompare sortKey a b = inr c)
      /\ exists st', applyFilters st = (inr JUndefined, st'))
  /\ (forall st e st',
         applyFilters st = (inl e, st') ->
         Filters.sort (currentFilters st) = "type"
         /\ st' = st
         /\ exists p, In p (pokemon st) /\ Pokemon.types p = [])
  /\ (forall data,
         length (Pokemon.types (transformPokemonData data))
         = length (Payload.types data)).
Proof.
  split; [|split].
  - intros st Hall. split.
    + intros sortKey a b Ha _. apply compareFn_returns.
      rewrite List.Forall_forall in Hall. now apply Hall.
    + now apply applyFilters_returns_on_typed.
  - apply applyFilters_throws_inv.
  - intros data. simpl. now rewrite length_map.
Qed.

End EngineFacts.
Section PaginationFacts.

(** The records on screen after [renderPokemon]. *)
Lemma visible_renderPokemon st :
  Dom.visible (dom (renderPokemon st))
  = JsArray.slice 0 (currentPage st * pokemonPerPage) (filteredPokemon st).
Proof.
  unfold Dom.visible, renderPokemon. cbn [dom withDom].
  destruct (JsArray.slice 0 (currentPage st * pokemonPerPage) (filteredPokemon st));
    [reflexivity|].
  cbn [Dom.pokeContainer Dom.withCards]. rewrite map_map.
  unfold createPokemonCard. cbn [Dom.shown]. apply map_id.
Qed.

Lemma loadMorePokemon_loading st :
  isLoading st = true -> loadMorePokemon st = st.
Proof. intros H. unfold loadMorePokemon. now rewrite H. Qed.

Lemma loadMorePokemon_last st :
  currentPage st >= totalPages st -> loadMorePokemon st = st.
Proof.
  intros H. unfold loadMorePokemon. destruct (isLoading st); [reflexivity|].
  fold (totalPages st).
  destruct (Z.geb_spec (currentPage st) (totalPages st)); [reflexivity | lia].
Qed.

Lemma loadMorePokemon_advance st :
  isLoading st = false -> currentPage st < totalPages st ->
  loadMorePokemon st
  = toggleLoadMore (renderPokemon (withCurrentPage (currentPage st + 1) st)).
Proof.
  intros Hl H. unfold loadMorePokemon. rewrite Hl. fold (totalPages st).
  destruct (Z.geb_spec (currentPage st) (totalPages st)); [lia | reflexivity].
Qed.

(** [loadMorePokemon] writes the page number and the page, nothing else. *)
Lemma loadMorePokemon_frame st :
  pokemon (loadMorePokemon st) = pokemon st
  /\ filteredPokemon (loadMorePokemon st) = filteredPokemon st
  /\ favorites (loadMorePokemon st) = favorites st
  /\ isLoading (loadMorePokemon st) = isLoading st
  /\ currentFilters (loadMorePokemon st) = currentFilters st
  /\ localStorage (loadMorePokemon st) = localStorage st.
Proof.
  unfold loadMorePokemon. destruct (isLoading st) eqn:E; [now rewrite E|].
  destruct (_ >=? _); [now rewrite E|]. repeat split. exact E.
Qed.

Lemma visible_loadMorePokemon st :
  isLoading st = false -> currentPage st < totalPages st ->
  Dom.visible (dom (loadMorePokemon st))
  = JsArray.slice 0 ((currentPage st + 1) * pokemonPerPage) (filteredPokemon st).
Proof.
  intros Hl H. rewrite loadMorePokemon_advance by assumption.
  change (dom (toggleLoadMore ?s)) with (Dom.withLoadMore (currentPage s <? totalPages s) (dom s)).
  change (Dom.visible (Dom.withLoadMore ?b ?d)) with (Dom.visible d).
  now rewrite visible_renderPokemon.
Qed.

Lemma totalPages_spec st :
  totalPages st = (Z.of_nat (length (filteredPokemon st)) + 19) / 20.
Proof.
  unfold totalPages, JsNumber.ceilDiv, pokemonPerPage.
  set (n := Z.of_nat _).
  assert (Hn : 0 <= n) by (subst n; lia).
  pose proof (Z.div_mod (- n) 20 ltac:(lia)) as H1.
  pose proof (Z.mod_pos_bound (- n) 20 ltac:(lia)) as H2.
  pose proof (Z.div_mod (n + 19) 20 ltac:(lia)) as H3.
  pose proof (Z.mod_pos_bound (n + 19) 20 ltac:(lia)) as H4.
  lia.
Qed.


Lemma currentPage_loadMorePokemon st :
  isLoading st = false -> currentPage st < totalPages st ->
  currentPage (loadMorePokemon st) = currentPage st + 1.
Proof. intros Hl H. now rewrite loadMorePokemon_advance by assumption. Qed.

Lemma totalPages_loadMorePokemon st :
  totalPages (loadMorePokemon st) = totalPages st.
Proof.
  unfold totalPages.
  now destruct (loadMorePokemon_frame st) as (_ & -> & _).
Qed.

(** C3.  The records on screen after [renderPokemon] are a prefix of the
    filtered set, whatever the page number, and for a page number that is
    not negative they are its first [currentPage * 20] records (all of them
    when there are fewer); so they are after every page advance, which
    therefore grows the prefix by one page; [loadMorePokemon] on the last page, or beyond,
    changes nothing at all; and with 45 filtered records the pages show
    20, 40 and 45 records, a fourth request leaving the 45. *)
Theorem visible_slice_is_growing_prefix :
  (forall st,
      exists rest,
        filteredPokemon st = Dom.visible (dom (renderPokemon st)) ++ rest)
  /\ (forall st,
      0 <= currentPage st ->
      Dom.visible (dom (renderPokemon st))
      = firstn (Z.to_nat (currentPage st * 20)) (filteredPokemon st))
  /\ (forall st,
         isLoading st = false -> 0 <= currentPage st ->
         currentPage st < totalPages st ->
         Dom.visible (dom (loadMorePokemon st))
         = firstn (Z.to_nat ((currentPage st + 1) * 20)) (filteredPokemon st))
  /\ (forall st, currentPage st >= totalPages st -> loadMorePokemon st = st)
  /\ (forall st,
         length (filteredPokemon st) = 45%nat ->
         isLoading st = false -> currentPage st = 1 ->
         let page1 := renderPokemon st in
         let page2 := loadMorePokemon page1 in
         let page3 := loadMorePokemon page2 in
         length (Dom.visible (dom page1)) = 20%nat
         /\ length (Dom.visible (dom page2)) = 40%nat
         /\ length (Dom.visible (dom page3)) = 45%nat
         /\ Dom.visible (dom page3) = filteredPokemon st
         /\ currentPage page3 = 3
         /\ loadMorePokemon page3 = page3).
Proof.
  split; [|split; [|split; [|split]]].
  - intros st. rewrite visible_renderPokemon. apply slice0_prefix.
  - intros st H. rewrite visible_renderPokemon.
    apply slice0_firstn. unfold pokemonPerPage. lia.
  - intros st Hl H0 H. rewrite visible_loadMorePokemon by assumption.
    apply slice0_firstn. unfold pokemonPerPage. lia.
  - apply loadMorePokemon_last.
  - intros st Hlen Hl Hcp page1 page2 page3.
    assert (Htp : totalPages st = 3)
      by (rewrite totalPages_spec, Hlen; reflexivity).
    assert (F1 : filteredPokemon page1 = filteredPokemon st) by reflexivity.
    assert (T1 : totalPages page1 = 3) by exact Htp.
    assert (L1 : isLoading page1 = false) by exact Hl.
    assert (C1 : currentPage page1 = 1) by exact Hcp.
    assert (C2 : currentPage page2 = 2).
    { unfold page2. rewrite currentPage_loadMorePokemon by (assumption || lia). lia. }
    destruct (loadMorePokemon_frame page1) as (_ & F2 & _ & L2 & _).
    fold page2 in F2, L2. rewrite L1 in L2. rewrite F1 in F2.
    assert (T2 : totalPages page2 = 3)
      by (unfold page2; now rewrite totalPages_loadMorePokemon).
    assert (C3 : currentPage page3 = 3).
    { unfold page3. rewrite currentPage_loadMorePokemon by (assumption || lia). lia. }
    assert (T3 : totalPages page3 = 3)
      by (unfold page3; now rewrite totalPages_loadMorePokemon).
    assert (V3 : Dom.visible (dom page3) = filteredPokemon st).
    { unfold page3. rewrite visible_loadMorePokemon by (assumption || lia).
      rewrite C2, F2, slice0_firstn by (unfold pokemonPerPage; lia).
      apply firstn_all2. rewrite Hlen. unfold pokemonPerPage. lia. }
    repeat split.
    + unfold page1. rewrite visible_renderPokemon, Hcp.
      rewrite slice0_firstn by (unfold pokemonPerPage; lia).
      rewrite length_take, Hlen. reflexivity.
    + unfold page2. rewrite visible_loadMorePokemon by (assumption || lia).
      rewrite C1, F1, slice0_firstn by (unfold pokemonPerPage; lia).
      rewrite length_take, Hlen. reflexivity.
    + now rewrite V3.
    + exact V3.
    + exact C3.
    + apply loadMorePokemon_last. lia.
Qed.

(** C8, as amended.  A call of [applyFilters] that returns leaves
    [currentPage] at 1, so every listener that changes a field of the filter
    state does when it returns, and it returns whenever every record has a
    type; [loadMorePokemon] on a page that is not the last adds one to
    [currentPage] when no load is in progress, and leaves the state as it is
    while one is. *)
Theorem currentPage_reset_by_filters_not_by_paging (localeCompare : string -> string -> Z) :
  (forall st v st',
      applyFilters localeCompare st = (inr v, st') -> currentPage st' = 1)
  /\ (forall ev st v st',
         changesFilters ev = true ->
         handle localeCompare ev st = (inr v, st') -> currentPage st' = 1)
  /\ (forall ev st,
         changesFilters ev = true -> Forall Typed (pokemon st) ->
         exists st', handle localeCompare ev st = (inr JUndefined, st')
                     /\ currentPage st' = 1)
  /\ (forall st,
         isLoading st = false -> currentPage st < totalPages st ->
         currentPage (loadMorePokemon st) = currentPage st + 1
         /\ currentFilters (loadMorePokemon st) = currentFilters st
         /\ filteredPokemon (loadMorePokemon st) = filteredPokemon st)
  /\ (forall st, isLoading st = true -> loadMorePokemon st = st).
Proof.
  assert (Hreset : forall st v st',
             applyFilters localeCompare st = (inr v, st') -> currentPage st' = 1).
  { intros st v st' H. now apply applyFilters_effect in H as (_ & H & _). }
  assert (Hev : forall ev st v st',
             changesFilters ev = true ->
             handle localeCompare ev st = (inr v, st') -> currentPage st' = 1).
  { intros ev st v st' Hc H.
    destruct ev; try discriminate Hc; unfold handle, bind, exec in H;
      match type of H with
      | context [applyFilters localeCompare ?s] =>
          destruct (applyFilters localeCompare s) as [[e|w] s'] eqn:E;
          [discriminate|]; apply Hreset in E
      end;
      injection H as _ <-; exact E. }
  split; [exact Hreset|]. split; [exact Hev|]. split; [|split].
  - intros ev st Hc Hall.
    assert (Hret : forall s, pokemon s = pokemon st ->
               exists s', applyFilters localeCompare s = (inr JUndefined, s')).
    { intros s Hs.
      destruct (applyFilters_returns_on_typed localeCompare s) as [s' Hs'];
        [now rewrite Hs | eauto]. }
    destruct ev; try discriminate Hc; unfold handle, bind, exec;
      match goal with
      | |- context [applyFilters localeCompare ?s] =>
          destruct (Hret s) as [s' E]; [reflexivity|]; rewrite E;
          apply Hreset in E
      end; eexists; (split; [reflexivity | exact E]).
  - intros st Hl H. split; [now apply currentPage_loadMorePokemon|].
    now destruct (loadMorePokemon_frame st) as (_ & -> & _ & _ & -> & _).
  - apply loadMorePokemon_loading.
Qed.

End PaginationFacts.

(* ===================================================================== *)
(** * Properties of the favourites store *)
(* ===================================================================== *)

Section SetFacts.

Lemma has_add_int (s : JsSet.t) (n : Z) :
  JsSet.has (JsSet.add s (JInt n)) (JInt n) = true.
Proof.
  unfold JsSet.add. destruct (JsSet.has s (JInt n)) eqn:E; [exact E|].
  unfold JsSet.has. rewrite existsb_app. cbn.
  rewrite Z.eqb_refl. now rewrite orb_true_r.
Qed.

Lemma has_delete (s : JsSet.t) (v : JsValue) :
  JsSet.has (JsSet.delete s v) v = false.
Proof.
  unfold JsSet.has, JsSet.delete. induction s as [|x r IH]; [reflexivity|].
  cbn [List.filter]. destruct (sameValueZero v x) eqn:E; cbn [negb]; [exact IH|].
  cbn [existsb]. now rewrite E, IH.
Qed.



End SetFacts.

Section FavoritesFacts.

Variable localeCompare : string -> string -> Z.

Lemma saveFavorites_cases st :
  (Storage.writable (localStorage st) = true
   /\ saveFavorites st
      = (inr JUndefined,
         updateStats (withLocalStorage (saved (favorites st) (localStorage st)) st)))
  \/ (Storage.writable (localStorage st) = false
      /\ saveFavorites st
         = (inr JUndefined,
            consoleWrite
              (ConsoleError "Error saving favorites:"
                 (QuotaExceededError "The quota has been exceeded"))
              st)).
Proof.
  unfold saveFavorites, tryCatch, bind, gets, eval, exec, Storage.setItem.
  destruct (Storage.writable (localStorage st)) eqn:W; [left | right];
    (split; [reflexivity|]); [|reflexivity].
  unfold saved. now rewrite W.
Qed.

(** [saveFavorites] always returns, and writes the store and the page. *)
Lemma saveFavorites_effect st :
  exists st',
    saveFavorites st = (inr JUndefined, st')
    /\ favorites st' = favorites st
    /\ pokemon st' = pokemon st
    /\ currentFilters st' = currentFilters st
    /\ Dom.notification (dom st') = Dom.notification (dom st)
    /\ (Storage.writable (localStorage st) = true ->
        localStorage st' = saved (favorites st) (localStorage st))
    /\ (Storage.writable (localStorage st) = false ->
        localStorage st' = localStorage st).
Proof.
  destruct (saveFavorites_cases st) as [[W ->]|[W ->]]; eexists;
    (split; [reflexivity|]); repeat split; try reflexivity; intros; congruence.
Qed.

(** [toggleFavorite] in steps: the set and the message, the store, the
    page. *)
Lemma toggleFavorite_steps pokemonId st :
  let member := JsSet.has (favorites st) (JInt pokemonId) in
  let favs :=
    if member then JsSet.delete (favorites st) (JInt pokemonId)
    else JsSet.add (favorites st) (JInt pokemonId) in
  let st1 :=
    showNotification (toggleMessage (negb member)) "success" (withFavorites favs st) in
  toggleFavorite localeCompare pokemonId st
  = match saveFavorites st1 with
    | (inr _, st2) =>
        match applyFilters localeCompare st2 with
        | (inr _, st3) => (inr JUndefined, st3)
        | (inl e, st3) => (inl e, st3)
        end
    | (inl e, st2) => (inl e, st2)
    end.
Proof.
  cbv zeta. unfold toggleFavorite, bind, exec, ret.
  destruct (JsSet.has (favorites st) (JInt pokemonId)); cbn [negb toggleMessage];
    destruct (saveFavorites _) as [[e|v] st2]; try reflexivity;
    destruct (applyFilters localeCompare st2) as [[e|w] st3]; reflexivity.
Qed.

(** What [toggleFavorite] has written when it ends, either way. *)
Lemma toggleFavorite_effect pokemonId st :
  let member := JsSet.has (favorites st) (JInt pokemonId) in
  let r := toggleFavorite localeCompare pokemonId st in
  favorites (snd r)
  = (if member then JsSet.delete (favorites st) (JInt pokemonId)
     else JsSet.add (favorites st) (JInt pokemonId))
  /\ Dom.notification (dom (snd r)) = Some (toggleMessage (negb member), "success")
  /\ (Storage.writable (localStorage st) = true ->
      localStorage (snd r) = saved (favorites (snd r)) (localStorage st))
  /\ (Storage.writable (localStorage st) = false ->
      localStorage (snd r) = localStorage st)
  /\ pokemon (snd r) = pokemon st
  /\ (fst r = inr JUndefined
      \/ exists e, fst r = inl e /\ exists p, In p (pokemon st) /\ Pokemon.types p = []).
Proof.
  cbv zeta. rewrite toggleFavorite_steps. cbv zeta.
  set (favs := if JsSet.has _ _ then _ else _).
  set (st1 := showNotification _ _ _).
  destruct (saveFavorites_effect st1) as (st2 & -> & F2 & P2 & C2 & N2 & W2 & W2').
  change (favorites st1) with favs in F2, W2.
  change (localStorage st1) with (localStorage st) in W2, W2'.
  change (pokemon st1) with (pokemon st) in P2.
  change (Dom.notification (dom st1))
    with (Some (toggleMessage (negb (JsSet.has (favorites st) (JInt pokemonId))), "success"))
    in N2.
  destruct (applyFilters localeCompare st2) as [[e|w] st3] eqn:E; cbn [fst snd].
  - apply applyFilters_throws_inv in E as (_ & -> & p & Hp & Ht).
    rewrite F2, N2, P2. repeat split; try assumption.
    right. exists e. split; [reflexivity|]. exists p. now rewrite <- P2.
  - apply applyFilters_effect in E as (_ & _ & P3 & _ & F3 & _ & L3 & N3 & _).
    rewrite F3, N3, P3, L3, F2, N2, P2. repeat split; try assumption. now left.
Qed.



(** *** Loading *)

Lemma loadFavorites_eq st :
  loadFavorites st
  = match Storage.getItem favoritesKey (localStorage st) with
    | inl e =>
        (inr JUndefined, consoleWrite (ConsoleError "Error loading favorites:" e) st)
    | inr None => (inr JUndefined, st)
    | inr (Some text) =>
        if JsString.truthy text then
          match JSON.parse text with
          | inl e =>
              (inr JUndefined,
               consoleWrite (ConsoleError "Error loading favorites:" e) st)
          | inr v =>
              match JsSet.ofIterable v with
              | inl e =>
                  (inr JUndefined,
                   consoleWrite (ConsoleError "Error loading favorites:" e) st)
              | inr s => (inr JUndefined, withFavorites s st)
              end
          end
        else (inr JUndefined, st)
    end.
Proof.
  unfold loadFavorites, tryCatch, bind, eval, exec, ret.
  destruct (Storage.getItem favoritesKey (localStorage st)) as [e|[text|]];
    try reflexivity.
  destruct (JsString.truthy text); [|reflexivity].
  destruct (JSON.parse text) as [e|v]; [reflexivity|].
  destruct (JsSet.ofIterable v); reflexivity.
Qed.

(** What [loadFavorites] leaves alone: all but the favourites and the
    console. *)
Lemma loadFavorites_frame st :
  let r := loadFavorites st in
  fst r = inr JUndefined
  /\ pokemon (snd r) = pokemon st
  /\ filteredPokemon (snd r) = filteredPokemon st
  /\ currentPage (snd r) = currentPage st
  /\ isLoading (snd r) = isLoading st
  /\ currentFilters (snd r) = currentFilters st
  /\ dom (snd r) = dom st
  /\ localStorage (snd r) = localStorage st.
Proof.
  cbv zeta. rewrite loadFavorites_eq.
  destruct (Storage.getItem favoritesKey (localStorage st)) as [e|[text|]];
    try (repeat split; fail).
  destruct (JsString.truthy text); [|repeat split].
  destruct (JSON.parse text) as [e|v]; [repeat split|].
  destruct (JsSet.ofIterable v); repeat split.
Qed.

Lemma ofIterable_memberless v :
  Memberless v ->
  JsSet.ofIterable v = inr JsSet.empty \/ exists e, JsSet.ofIterable v = inl e.
Proof. destruct v; cbn; intros H; try contradiction; eauto. Qed.

(** C9, as amended.  [loadFavorites] never throws.  Run on the new
    controller it leaves the empty set whenever the store cannot be read,
    has no entry under the favourites key or an empty one, or has an entry
    that is not JSON or decodes to [null], a boolean, a number or an
    object.  Any other entry is loaded: the set holds the elements of the
    decoded array, whatever they are, or the characters of the decoded
    string. *)
Theorem loadFavorites_catches_and_defaults :
  (forall st, fst (loadFavorites st) = inr JUndefined)
  /\ (forall store,
         NothingToLoad store ->
         favorites (snd (loadFavorites (constructor store))) = JsSet.empty)
  /\ (forall store text v,
         Storage.readable store = true ->
         Storage.entries store !! favoritesKey = Some text ->
         text <> "" ->
         JSON.parse text = inr v ->
         match v with
         | JArray items =>
             favorites (snd (loadFavorites (constructor store)))
             = fold_left JsSet.add items JsSet.empty
         | JString s =>
             favorites (snd (loadFavorites (constructor store)))
             = fold_left JsSet.add (map JString (JsSet.codePoints None s)) JsSet.empty
         | _ => favorites (snd (loadFavorites (constructor store))) = JsSet.empty
         end).
Proof.
  split; [|split].
  - intros st. rewrite loadFavorites_eq.
    destruct (Storage.getItem favoritesKey (localStorage st)) as [e|[text|]];
      try reflexivity.
    destruct (JsString.truthy text); [|reflexivity].
    destruct (JSON.parse text) as [e|v]; [reflexivity|].
    destruct (JsSet.ofIterable v); reflexivity.
  - intros store H. rewrite loadFavorites_eq.
    change (localStorage (constructor store)) with store.
    unfold Storage.getItem.
    destruct (Storage.readable store) eqn:Hr; [|reflexivity].
    destruct H as [H|[H|[H|(text & H & Hp)]]]; [congruence | | |]; rewrite H;
      try reflexivity.
    destruct (JsString.truthy text); [|reflexivity].
    destruct Hp as [[e ->]|(v & -> & Hv)]; [reflexivity|].
    destruct (ofIterable_memberless v Hv) as [->|[e ->]]; reflexivity.
  - intros store text v Hr He Ht Hp. rewrite loadFavorites_eq.
    change (localStorage (constructor store)) with store.
    unfold Storage.getItem. rewrite Hr, He.
    apply truthy_spec in Ht. rewrite Ht, Hp.
    destruct v; reflexivity.
Qed.

End FavoritesFacts.

(* ===================================================================== *)
(** * Properties of the batch fetcher *)
(* ===================================================================== *)

Section LoaderFacts.

Variable localeCompare : string -> string -> Z.
Variable fetch : Z -> JsError + Payload.t.

Lemma fulfilledValues_app (l1 l2 : list Settled) :
  fulfilledValues (l1 ++ l2) = fulfilledValues l1 ++ fulfilledValues l2.
Proof.
  induction l1 as [|[v|e] r IH]; cbn [fulfilledValues app]; [reflexivity| |exact IH].
  now rewrite IH.
Qed.

Lemma fetched_nil first count : count <= 0 -> fetched fetch first count = [].
Proof. intros H. unfold fetched. now rewrite seqZ_nil. Qed.

Lemma fetched_app first n1 n2 :
  0 <= n1 -> 0 <= n2 ->
  fetched fetch first (n1 + n2) = fetched fetch first n1 ++ fetched fetch (first + n1) n2.
Proof.
  intros H1 H2. unfold fetched.
  now rewrite seqZ_app, map_app, fulfilledValues_app by assumption.
Qed.


(** ** The inner loop *)

Section Loop.

Variables totalPokemon batchSize : Z.

Local Abbreviation fill := (fillBatch fetch totalPokemon batchSize).
Local Abbreviation results := (batchResults fetch totalPokemon batchSize).
Local Abbreviation body := (loadBatch localeCompare fetch totalPokemon batchSize).
Local Abbreviation loop := (loadBatches localeCompare fetch totalPokemon batchSize).

Lemma fillBatch_eq n i j :
  (Z.to_nat (totalPokemon + 1 - j) <= n)%nat ->
  fill n i j
  = map (fetchPokemonData fetch)
      (seqZ j (Z.min (i + batchSize) (totalPokemon + 1) - j)).
Proof.
  revert j; induction n as [|n IH]; intros j Hn; cbn [fillBatch].
  - rewrite seqZ_nil by lia. reflexivity.
  - destruct (Z.ltb_spec j (i + batchSize)); cbn [andb];
      [destruct (Z.leb_spec j totalPokemon)|].
    + rewrite seqZ_cons by lia. cbn [map]. f_equal.
      rewrite IH by lia. do 2 f_equal. lia.
    + rewrite seqZ_nil by lia. reflexivity.
    + rewrite seqZ_nil by lia. reflexivity.
Qed.

(** The batch that starts at [i] holds the results for the next
    [batchSize] ids, or for those up to [totalPokemon] when fewer
    remain. *)
Lemma batchResults_eq i :
  results i
  = map (fetchPokemonData fetch)
      (seqZ i (Z.min batchSize (totalPokemon + 1 - i))).
Proof.
  unfold batchResults. rewrite fillBatch_eq by lia. do 2 f_equal. lia.
Qed.

(** One turn of the outer loop after the first. *)
Lemma loadBatch_later i st :
  i <> 1 ->
  body i st
  = (inr JUndefined,
     updateStats
       (withPokemon
          (pokemon st ++ fetched fetch i (Z.min batchSize (totalPokemon + 1 - i))) st)).
Proof.
  intros Hi. unfold loadBatch, bind, exec, ret.
  destruct (Z.eqb_spec i 1); [contradiction|].
  now rewrite batchResults_eq.
Qed.

(** The first turn: the batch, then [applyFilters]. *)
Lemma loadBatch_first st :
  body 1 st
  = applyFilters localeCompare
      (updateStats
         (withPokemon
            (pokemon st ++ fetched fetch 1 (Z.min batchSize (totalPokemon + 1 - 1))) st)).
Proof.
  unfold loadBatch, bind, exec. cbn [Z.eqb Pos.eqb].
  rewrite batchResults_eq.
  now destruct (applyFilters localeCompare _) as [[e|v] s].
Qed.

Lemma SameSession_refl st : SameSession st st.
Proof. repeat split. Qed.

Lemma SameSession_trans s1 s2 s3 :
  SameSession s1 s2 -> SameSession s2 s3 -> SameSession s1 s3.
Proof.
  unfold SameSession. intros (A1 & A2 & A3 & A4 & A5 & A6) (B1 & B2 & B3 & B4 & B5 & B6).
  repeat split; congruence.
Qed.

(** From the second turn on, with a positive batch size, the loop ends
    within as many turns as ids remain, and has appended the fetched
    records of all of them. *)
Lemma loadBatches_later fuel :
  1 <= batchSize ->
  forall i st,
    1 < i -> (Z.to_nat (totalPokemon + 1 - i) < fuel)%nat ->
    exists st',
      loop fuel i st = Some (inr JUndefined, st')
      /\ pokemon st' = pokemon st ++ fetched fetch i (totalPokemon + 1 - i)
      /\ filteredPokemon st' = filteredPokemon st
      /\ SameSession st st'.
Proof.
  intros Hb. induction fuel as [|fuel IH]; intros i st Hi Hf; [lia|].
  cbn [loadBatches]. destruct (Z.leb_spec i totalPokemon) as [Hle|Hgt].
  - rewrite loadBatch_later by lia.
    set (st1 := updateStats _).
    destruct (IH (i + batchSize) st1) as (st' & -> & P & F & S); [lia..|].
    exists st'. split; [reflexivity|]. split; [|split; [exact F | exact S]].
    rewrite P. change (pokemon st1) with
      (pokemon st ++ fetched fetch i (Z.min batchSize (totalPokemon + 1 - i))).
    rewrite <- app_assoc. f_equal.
    destruct (Z.le_gt_cases batchSize (totalPokemon + 1 - i)).
    + rewrite Z.min_l by lia.
      rewrite <- fetched_app by lia. f_equal. lia.
    + rewrite Z.min_r by lia.
      rewrite (fetched_nil (i + batchSize)) by lia. now rewrite app_nil_r.
  - exists st. split; [reflexivity|]. rewrite fetched_nil by lia.
    rewrite app_nil_r. repeat split.
Qed.


Lemma applyFilters_returns_unless_type st :
  Filters.sort (currentFilters st) <> "type" ->
  exists st', applyFilters localeCompare st = (inr JUndefined, st').
Proof.
  intros Hs. destruct (applyFilters localeCompare st) as [[e|v] st'] eqn:E.
  - now apply applyFilters_throws_inv in E as (E & _).
  - destruct (applyFilters_cases localeCompare st) as [(l & _ & R)|(e & _ & R)];
      rewrite R in E; [|discriminate].
    injection E as <- <-. eauto.
Qed.

(** The whole loop, when the first render returns. *)
Lemma loadBatches_all fuel st :
  1 <= batchSize ->
  (forall s, pokemon s = pokemon st ++ fetched fetch 1 (Z.min batchSize totalPokemon) ->
             currentFilters s = currentFilters st ->
             exists s', applyFilters localeCompare s = (inr JUndefined, s')) ->
  (Z.to_nat totalPokemon < fuel)%nat ->
  exists st',
    loop fuel 1 st = Some (inr JUndefined, st')
    /\ pokemon st' = pokemon st ++ fetched fetch 1 totalPokemon
    /\ SameSession st st'.
Proof.
  intros Hb Hrender Hf. destruct fuel as [|fuel]; [lia|].
  cbn [loadBatches]. destruct (Z.leb_spec 1 totalPokemon) as [Hle|Hgt].
  - rewrite loadBatch_first.
    replace (totalPokemon + 1 - 1) with totalPokemon by lia.
    set (st0 := updateStats _).
    destruct (Hrender st0) as [st1 E]; [reflexivity..|]. rewrite E.
    apply applyFilters_effect in E as (_ & _ & P1 & C1 & F1 & L1 & S1 & N1 & K1).
    destruct (loadBatches_later fuel Hb (1 + batchSize) st1)
      as (st' & -> & P & _ & S); [lia..|].
    exists st'. split; [reflexivity|]. split.
    + rewrite P, P1.
      change (pokemon st0)
        with (pokemon st ++ fetched fetch 1 (Z.min batchSize totalPokemon)).
      rewrite <- app_assoc. f_equal.
      destruct (Z.le_gt_cases batchSize totalPokemon).
      * rewrite Z.min_l by lia. rewrite <- fetched_app by lia. f_equal. lia.
      * rewrite Z.min_r by lia. rewrite (fetched_nil (1 + batchSize)) by lia.
        now rewrite app_nil_r.
    + apply (SameSession_trans st st1 st'); [|exact S].
      unfold SameSession. rewrite F1, C1, L1, S1, N1, K1. repeat split.
  - exists st. split; [reflexivity|]. rewrite fetched_nil by lia.
    rewrite app_nil_r. split; [reflexivity | apply SameSession_refl].
Qed.

(** [loadPokemon], when the first render returns. *)
Lemma loadPokemonWith_all fuel st :
  1 <= batchSize ->
  (forall s, pokemon s = pokemon st ++ fetched fetch 1 (Z.min batchSize totalPokemon) ->
             currentFilters s = currentFilters st ->
             exists s', applyFilters localeCompare s = (inr JUndefined, s')) ->
  (Z.to_nat totalPokemon < fuel)%nat ->
  exists st',
    loadPokemonWith localeCompare fetch totalPokemon batchSize fuel st
    = Some (inr JUndefined, st')
    /\ pokemon st' = pokemon st ++ fetched fetch 1 totalPokemon
    /\ isLoading st' = false
    /\ favorites st' = favorites st
    /\ currentFilters st' = currentFilters st
    /\ localStorage st' = localStorage st
    /\ Dom.notification (dom st') = Dom.notification (dom st)
    /\ console st'
       = console st
         ++ [ConsoleLog
               ("✅ Loaded "
                +:+ JsNumber.toString (Z.of_nat (length (pokemon st')))
                +:+ " Pokémon")].
Proof.
  intros Hb Hrender Hf. unfold loadPokemonWith.
  destruct (loadBatches_all fuel (showLoading st) Hb Hrender Hf)
    as (st' & -> & P & F & C & L & S & N & K).
  eexists. split; [reflexivity|].
  repeat split; try assumption.
  cbn [console hideLoading withIsLoading consoleWrite]. now rewrite K.
Qed.

End Loop.

(** With a batch size of zero the loop never leaves its first turn. *)
Lemma loadBatches_stuck totalPokemon fuel st :
  1 <= totalPokemon -> pokemon st = [] ->
  loadBatches localeCompare fetch totalPokemon 0 fuel 1 st = None.
Proof.
  intros Ht. revert st; induction fuel as [|fuel IH]; intros st Hp; [reflexivity|].
  cbn [loadBatches]. destruct (Z.leb_spec 1 totalPokemon); [|lia].
  rewrite loadBatch_first. rewrite Z.min_l by lia.
  rewrite fetched_nil by lia. rewrite app_nil_r.
  set (st0 := updateStats _).
  destruct (applyFilters_returns_on_typed localeCompare st0) as [st1 E].
  { change (pokemon st0) with (pokemon st). rewrite Hp. constructor. }
  rewrite E. apply applyFilters_effect in E as (_ & _ & P1 & _).
  apply IH. rewrite P1. exact Hp.
Qed.


(** More fuel does not change what the loop returns. *)
Lemma loadBatches_more_fuel totalPokemon batchSize fuel fuel' i st r :
  (fuel <= fuel')%nat ->
  loadBatches localeCompare fetch totalPokemon batchSize fuel i st = Some r ->
  loadBatches localeCompare fetch totalPokemon batchSize fuel' i st = Some r.
Proof.
  revert fuel' i st; induction fuel as [|fuel IH]; intros fuel' i st Hle H;
    [discriminate|].
  destruct fuel' as [|fuel']; [lia|]. cbn [loadBatches] in *.
  destruct (i <=? totalPokemon); [|exact H].
  destruct (loadBatch localeCompare fetch totalPokemon batchSize i st) as [[e|v] st1];
    [exact H|].
  apply IH; [lia | exact H].
Qed.

Lemma loadPokemonWith_more_fuel totalPokemon batchSize fuel fuel' st r :
  (fuel <= fuel')%nat ->
  loadPokemonWith localeCompare fetch totalPokemon batchSize fuel st = Some r ->
  loadPokemonWith localeCompare fetch totalPokemon batchSize fuel' st = Some r.
Proof.
  intros Hle. unfold loadPokemonWith.
  destruct (loadBatches _ _ _ _ fuel 1 _) as [r0|] eqn:E; [|discriminate].
  now rewrite (loadBatches_more_fuel _ _ _ _ _ _ _ Hle E).
Qed.







End LoaderFacts.

Section SortFacts.

Context {A : Type} (key : A -> Z).

Lemma insert_byKey_sorted (x : A) (l : list A) :
  StronglySorted (fun a b => key a <= key b) l ->
  exists l',
    JsArray.insert (byKey key) x l = inr l'
    /\ StronglySorted (fun a b => key a <= key b) l'.
Proof.
  induction l as [|y r IH]; intros Hs; cbn [JsArray.insert].
  - eexists. split; [reflexivity|]. repeat constructor.
  - unfold byKey at 1. apply StronglySorted_inv in Hs as [Hr Hy].
    destruct (Z.ltb_spec (key x - key y) 0) as [Hlt|Hge].
    + eexists. split; [reflexivity|]. constructor; [now constructor|].
      constructor; [lia|]. eapply List.Forall_impl; [|exact Hy]. cbn. intros; lia.
    + destruct (IH Hr) as (r' & E & Hr'). rewrite E.
      eexists. split; [reflexivity|]. constructor; [exact Hr'|].
      apply insert_Permutation in E. rewrite <- E. constructor; [lia | exact Hy].
Qed.

(** Sorting by an integer key returns, and returns the elements in
    ascending order of the key. *)
Lemma sort_byKey_sorted (l : list A) :
  exists l',
    JsArray.sort (byKey key) l = inr l'
    /\ StronglySorted (fun a b => key a <= key b) l'
    /\ Permutation l l'.
Proof.
  unfold JsArray.sort.
  assert (H : forall sorted,
             StronglySorted (fun a b => key a <= key b) sorted ->
             exists l',
               JsArray.sortInto (byKey key) sorted l = inr l'
               /\ StronglySorted (fun a b => key a <= key b) l').
  { induction l as [|x r IH]; intros sorted Hs; cbn [JsArray.sortInto].
    - eauto.
    - destruct (insert_byKey_sorted x sorted Hs) as (s' & -> & Hs'). now apply IH. }
  destruct (H [] ltac:(constructor)) as (l' & E & Hs).
  exists l'. split; [exact E|]. split; [exact Hs|].
  now apply sortInto_Permutation in E.
Qed.

End SortFacts.

Section OrderFacts.

Variable localeCompare : string -> string -> Z.

(** Under the default sort key, or any key other than ["name"] and
    ["type"], [applyFilters] returns and leaves the selected records in
    ascending order of their ids. *)
Theorem filtered_set_sorted_by_id (st : State) :
  Filters.sort (currentFilters st) <> "name" ->
  Filters.sort (currentFilters st) <> "type" ->
  exists st',
    applyFilters localeCompare st = (inr JUndefined, st')
    /\ StronglySorted (fun a b => Pokemon.id a <= Pokemon.id b) (filteredPokemon st')
    /\ Permutation (selected (pokemon st) (currentFilters st) (favorites st))
         (filteredPokemon st').
Proof.
  intros Hn Ht.
  destruct (sort_byKey_sorted Pokemon.id
              (selected (pokemon st) (currentFilters st) (favorites st)))
    as (l & E & Hs & Hp).
  assert (R : recompute localeCompare (pokemon st) (currentFilters st) (favorites st)
              = inr l).
  { unfold recompute, compareFn.
    apply String.eqb_neq in Hn, Ht. rewrite Hn, Ht. exact E. }
  rewrite (applyFilters_returns _ _ _ R). eexists. split; [reflexivity|].
  split; [exact Hs | exact Hp].
Qed.

End OrderFacts.

(* ===================================================================== *)
(** * Properties of the listeners *)
(* ===================================================================== *)

Section ListenerFacts.

Variable localeCompare : string -> string -> Z.

Lemma applyFilters_UpToDate st v st' :
  applyFilters localeCompare st = (inr v, st') -> UpToDate localeCompare st'.
Proof.
  intros H. apply applyFilters_effect in H as (R & _ & P & C & F & _).
  unfold UpToDate. now rewrite P, C, F.
Qed.

(** Every listener that changes the filter state or the favourites leaves,
    when it returns, a filtered set that is the recomputation over the new
    state, on its first page. *)
Theorem listeners_recompute (ev : Event) (st : State) (v : JsValue) (st' : State) :
  changesFilters ev = true \/ (exists pokemonId, ev = FavoriteButtonClick pokemonId) ->
  handle localeCompare ev st = (inr v, st') ->
  UpToDate localeCompare st' /\ currentPage st' = 1.
Proof.
  intros [Hc|[pokemonId ->]] H.
  - destruct ev; try discriminate Hc; unfold handle, bind, exec in H;
      match type of H with
      | context [applyFilters localeCompare ?s] =>
          destruct (applyFilters localeCompare s) as [[e|w] s'] eqn:E;
          [discriminate|];
          pose proof (applyFilters_UpToDate _ _ _ E) as U;
          apply applyFilters_effect in E as (_ & E & _)
      end;
      injection H as _ <-; split; assumption.
  - cbn [handle] in H. rewrite toggleFavorite_steps in H. cbv zeta in H.
    destruct (saveFavorites _) as [[e|w] st2]; [discriminate|].
    destruct (applyFilters localeCompare st2) as [[e|w'] st3] eqn:E; [discriminate|].
    injection H as _ <-. split; [now apply applyFilters_UpToDate in E|].
    now apply applyFilters_effect in E as (_ & E & _).
Qed.

(** Every listener keeps the page number at 1 or above. *)
Theorem listeners_keep_page_positive (ev : Event) (st : State) :
  1 <= currentPage st ->
  1 <= currentPage (snd (handle localeCompare ev st)).
Proof.
  intros Hp.
  assert (Hmore : 1 <= currentPage (loadMorePokemon st)).
  { unfold loadMorePokemon. destruct (isLoading st); [exact Hp|].
    destruct (_ >=? _); [exact Hp|].
    change (1 <= currentPage st + 1). lia. }
  destruct ev; unfold handle, bind, exec, ret; cbn [snd];
    try exact Hmore;
    try (match goal with
         | |- context [applyFilters localeCompare ?s] =>
             change (1 <= currentPage s) in Hp;
             destruct (applyFilters localeCompare s) as [[e|w] s'] eqn:E;
             [apply applyFilters_throws_inv in E as (_ & -> & _); exact Hp
             |apply applyFilters_effect in E as (_ & E & _); cbn [snd];
              try change (1 <= currentPage s'); rewrite E; lia]
         end).
  - destruct inSearchInput; [exact Hp | exact Hmore].
  - rewrite toggleFavorite_steps. cbv zeta.
    set (st1 := showNotification _ _ _).
    destruct (saveFavorites_cases st1) as [[_ ->]|[_ ->]];
      match goal with
      | |- context [applyFilters localeCompare ?s] =>
          assert (Hs : 1 <= currentPage s) by exact Hp;
          destruct (applyFilters localeCompare s) as [[e|w] s'] eqn:E;
          [apply applyFilters_throws_inv in E as (_ & -> & _); exact Hs
          |apply applyFilters_effect in E as (_ & E & _); cbn [snd]; rewrite E; lia]
      end.
Qed.

End ListenerFacts.

(* ===================================================================== *)
(** * Properties of the serialization *)
(* ===================================================================== *)

Section JsonFacts.

Import DecimalString Decimal.

Lemma digits_stop (acc : Z) (len : N) (rest : string) :
  NoDigitAhead rest -> JSON.digits acc len rest = (acc, len, rest).
Proof. destruct rest as [|c r]; cbn; [reflexivity|]. now intros ->. Qed.

Lemma append_cons (c : ascii) (s r : string) :
  String c s +:+ r = String c (s +:+ r).
Proof. reflexivity. Qed.

Lemma append_nil (r : string) : EmptyString +:+ r = r.
Proof. reflexivity. Qed.

Lemma digits_step (acc : Z) (len : N) (c : ascii) (r : string) :
  JSON.isDigit c = true ->
  JSON.digits acc len (String c r)
  = JSON.digits (10 * acc + JSON.digitVal c) (len + 1)%N r.
Proof. intros H. cbn [JSON.digits]. now rewrite H. Qed.

(** Reading the digits of [u] after the digits that made [acc]. *)
Lemma digits_of_uint_acc (u : uint) (acc : positive) (len : N) (rest : string) :
  NoDigitAhead rest ->
  exists len',
    JSON.digits (Z.pos acc) len (NilEmpty.string_of_uint u +:+ rest)
    = (Z.pos (Pos.of_uint_acc u acc), len', rest).
Proof.
  intros Hr. revert acc len.
  induction u as [|u IH|u IH|u IH|u IH|u IH|u IH|u IH|u IH|u IH|u IH]; intros acc len;
    cbn [NilEmpty.string_of_uint Pos.of_uint_acc];
    [rewrite append_nil, digits_stop by exact Hr; eauto|..];
    rewrite append_cons, digits_step by reflexivity;
    match goal with
    | |- context [JSON.digits ?a ?l _] =>
        match goal with
        | |- context [Z.pos (Pos.of_uint_acc u ?p)] =>
            replace a with (Z.pos p) by (cbv [JSON.digitVal]; cbn; lia)
        end
    end; apply IH.
Qed.

Lemma digits_of_uint (u : uint) (rest : string) :
  NonzeroHead u -> NoDigitAhead rest ->
  exists len',
    JSON.digits 0 0 (NilEmpty.string_of_uint u +:+ rest)
    = (Z.of_N (Pos.of_uint u), len', rest).
Proof.
  intros Hu Hr. destruct u; try contradiction;
    cbn [NilEmpty.string_of_uint Pos.of_uint];
    rewrite append_cons, digits_step by reflexivity;
    match goal with
    | |- context [Z.of_N (N.pos (Pos.of_uint_acc ?u ?p))] =>
        destruct (digits_of_uint_acc u p (0 + 1)%N rest Hr) as [len' H]
    end; exists len'; exact H.
Qed.

Lemma to_uint_NonzeroHead (p : positive) : NonzeroHead (Pos.to_uint p).
Proof.
  pose proof (DecimalPos.Unsigned.to_uint_nonnil p) as Hnil.
  pose proof (DecimalPos.Unsigned.to_uint_nonzero p) as Hz.
  pose proof (DecimalPos.Unsigned.to_of (Pos.to_uint p)) as Hn.
  rewrite DecimalPos.Unsigned.of_to in Hn. cbn [N.to_uint] in Hn.
  destruct (Pos.to_uint p) as [|u| | | | | | | | | ]; try exact I; [contradiction|].
  rewrite DecimalFacts.unorm_D0 in Hn.
  assert (Hu : u <> Nil) by (intros ->; now apply Hz).
  pose proof (DecimalFacts.nb_digits_unorm u Hu) as Hlen.
  rewrite <- Hn in Hlen. cbn [Decimal.nb_digits] in Hlen. lia.
Qed.

(** ** What [JSON.stringify] writes for an integer *)

Lemma trimZeros_nil_zeros (d : string) :
  JSON.trimZeros d = EmptyString -> d = JSON.zeros (String.length d).
Proof.
  induction d as [|c r IH]; [reflexivity|]. cbn [JSON.trimZeros].
  destruct (JSON.trimZeros r) eqn:E; [|discriminate].
  destruct (N.eqb_spec (N_of_ascii c) 48) as [Hc|Hc]; [|discriminate].
  intros _. cbn [String.length JSON.zeros]. rewrite <- IH by reflexivity.
  f_equal. unfold JSON.chr. rewrite <- Hc. symmetry. apply ascii_N_embedding.
Qed.

Lemma trimZeros_length (d : string) :
  (String.length (JSON.trimZeros d) <= String.length d)%nat.
Proof.
  induction d as [|c r IH]; [reflexivity|]. cbn [JSON.trimZeros].
  destruct (JSON.trimZeros r); [|cbn [String.length] in *; lia].
  destruct (_ =? _)%N; cbn [String.length]; lia.
Qed.

Lemma trimZeros_restore (d : string) :
  JSON.trimZeros d
  +:+ JSON.zeros (String.length d - String.length (JSON.trimZeros d))
  = d.
Proof.
  induction d as [|c r IH]; [reflexivity|]. cbn [JSON.trimZeros].
  destruct (JSON.trimZeros r) as [|c' t] eqn:E.
  - apply trimZeros_nil_zeros in E.
    destruct (N.eqb_spec (N_of_ascii c) 48) as [Hc|Hc].
    + cbn [String.length]. rewrite append_nil, Nat.sub_0_r.
      cbn [JSON.zeros]. rewrite <- E. f_equal.
      unfold JSON.chr. rewrite <- Hc. apply ascii_N_embedding.
    + cbn [String.length]. rewrite append_cons, append_nil.
      replace (S (String.length r) - 1)%nat with (String.length r) by lia.
      now rewrite <- E.
  - cbn [String.length] in *. rewrite append_cons. f_equal. exact IH.
Qed.

Lemma numberToString_plain (n : Z) :
  Plain n -> JSON.numberToString n 0 = JsNumber.toString n.
Proof.
  unfold Plain, JSON.numberToString, JsNumber.toString. intros Hp.
  destruct n as [|p|p]; [reflexivity|..]; cbn [Z.eqb Z.ltb Z.compare];
    cbv zeta; set (d := JSON.natString _) in *;
    pose proof (trimZeros_length d) as Hk;
    (destruct (Z.leb_spec (Z.of_nat (String.length (JSON.trimZeros d)))
                 (Z.of_nat (String.length d) - Z.of_N 0)) as [_|?]; [|lia]);
    (destruct (Z.leb_spec (Z.of_nat (String.length d) - Z.of_N 0) 21) as [_|?]; [|lia]);
    cbn [andb];
    replace (Z.to_nat (Z.of_nat (String.length d) - Z.of_N 0
                       - Z.of_nat (String.length (JSON.trimZeros d))))
      with (String.length d - String.length (JSON.trimZeros d))%nat by lia;
    rewrite trimZeros_restore; subst d;
    unfold JSON.natString; cbn [Z.abs_N N.to_uint Z.to_int NilZero.string_of_int];
    reflexivity.
Qed.

(** ** Reading an integer back *)

Lemma Delimited_NoDigitAhead rest : Delimited rest -> NoDigitAhead rest.
Proof. intros [r [-> | ->]]; reflexivity. Qed.

(** A numeral that starts with a digit from 1 to 9 and ends at a
    delimiter is read as the integer its digits make. *)
Lemma parseNumber_digits (c : ascii) (r : string) (v : Z) (len : N) (rest : string) :
  (49 <= N_of_ascii c <= 57)%N ->
  JSON.digits 0 0 (String c r) = (v, len, rest) ->
  Delimited rest ->
  JSON.parseNumber (String c r) = Some (JNumber v 0, rest).
Proof.
  intros Hc Hd Hr. unfold JSON.parseNumber.
  destruct (N.eqb_spec (N_of_ascii c) 45); [lia|].
  destruct (N.eqb_spec (N_of_ascii c) 48); [lia|].
  unfold JSON.isDigit.
  destruct (N.leb_spec 48 (N_of_ascii c)); [|lia].
  destruct (N.leb_spec (N_of_ascii c) 57); [|lia].
  cbn [andb]. rewrite Hd.
  destruct Hr as [r' [-> | ->]]; cbn; unfold JSON.decimal; cbn; do 3 f_equal; lia.
Qed.

Lemma parseNumber_uint (u : uint) (rest : string) :
  NonzeroHead u -> Delimited rest ->
  JSON.parseNumber (NilEmpty.string_of_uint u +:+ rest)
  = Some (JNumber (Z.of_N (Pos.of_uint u)) 0, rest).
Proof.
  intros Hu Hr.
  destruct (digits_of_uint u rest Hu (Delimited_NoDigitAhead _ Hr)) as [len' Hd].
  destruct u; try contradiction; cbn [NilEmpty.string_of_uint] in *;
    rewrite append_cons in *;
    (eapply parseNumber_digits; [vm_compute; split; discriminate | exact Hd | exact Hr]).
Qed.

Lemma parseNumber_minus (c : ascii) (r : string) (v : Z) (len : N) (rest : string) :
  (49 <= N_of_ascii c <= 57)%N ->
  JSON.digits 0 0 (String c r) = (v, len, rest) ->
  Delimited rest ->
  JSON.parseNumber (String "-" (String c r)) = Some (JNumber (- v) 0, rest).
Proof.
  intros Hc Hd Hr. unfold JSON.parseNumber.
  change (N_of_ascii "-" =? 45)%N with true. cbv iota.
  destruct (N.eqb_spec (N_of_ascii c) 48); [lia|].
  unfold JSON.isDigit.
  destruct (N.leb_spec 48 (N_of_ascii c)); [|lia].
  destruct (N.leb_spec (N_of_ascii c) 57); [|lia].
  cbn [andb]. rewrite Hd.
  destruct Hr as [r' [-> | ->]]; cbn; unfold JSON.decimal; cbn; do 3 f_equal; lia.
Qed.

(** The text of an integer, then a delimiter, is read back as the
    integer. *)
Lemma parseNumber_toString (n : Z) (rest : string) :
  Delimited rest ->
  JSON.parseNumber (JsNumber.toString n +:+ rest) = Some (JInt n, rest).
Proof.
  intros Hr. unfold JsNumber.toString, JInt.
  destruct n as [|p|p]; cbn [Z.to_int NilZero.string_of_int].
  - destruct Hr as [r [-> | ->]]; reflexivity.
  - pose proof (to_uint_NonzeroHead p) as Hu.
    replace (NilZero.string_of_uint (Pos.to_uint p))
      with (NilEmpty.string_of_uint (Pos.to_uint p))
      by (now destruct (Pos.to_uint p)).
    rewrite parseNumber_uint by assumption.
    now rewrite DecimalPos.Unsigned.of_to.
  - pose proof (to_uint_NonzeroHead p) as Hu.
    replace (NilZero.string_of_uint (Pos.to_uint p))
      with (NilEmpty.string_of_uint (Pos.to_uint p))
      by (now destruct (Pos.to_uint p)).
    destruct (digits_of_uint (Pos.to_uint p) rest Hu (Delimited_NoDigitAhead _ Hr))
      as [len' Hd].
    rewrite DecimalPos.Unsigned.of_to in Hd.
    rewrite append_cons.
    destruct (Pos.to_uint p) as [|u|u|u|u|u|u|u|u|u|u]; try contradiction;
      cbn [NilEmpty.string_of_uint] in *; rewrite append_cons in *;
      (rewrite (parseNumber_minus _ _ (Z.pos p) len' rest);
       [reflexivity | vm_compute; split; discriminate | exact Hd | exact Hr]).
Qed.

(** The head of an integer's text is a digit or the minus sign, so
    [parseValue] reads a number there. *)
Lemma parseValue_toString (fuel : nat) (n : Z) (rest : string) :
  Delimited rest ->
  JSON.parseValue (S fuel) (JsNumber.toString n +:+ rest) = Some (JInt n, rest).
Proof.
  intros Hr. rewrite <- (parseNumber_toString n rest Hr).
  unfold JsNumber.toString.
  destruct n as [|p|p]; cbn [Z.to_int NilZero.string_of_int]; [reflexivity| |].
  - pose proof (to_uint_NonzeroHead p) as Hu.
    destruct (Pos.to_uint p); try contradiction; reflexivity.
  - reflexivity.
Qed.

(** ** Arrays of integers *)

Lemma join_cons2 (x y : string) (l : list string) :
  JSON.join "," (x :: y :: l) = x +:+ "," +:+ JSON.join "," (y :: l).
Proof. reflexivity. Qed.

Lemma append_assoc (a b c : string) : (a +:+ b) +:+ c = a +:+ b +:+ c.
Proof. induction a as [|x a IH]; [reflexivity|]. rewrite !append_cons. now rewrite IH. Qed.

Lemma stringify_ids (ids : list Z) :
  Forall Plain ids ->
  JSON.stringify (JArray (map JInt ids)) = "[" +:+ idTexts ids +:+ "]".
Proof.
  intros Hp. cbn [JSON.stringify]. do 2 f_equal. unfold idTexts.
  rewrite map_map. f_equal. apply map_ext_in. intros n Hn.
  rewrite List.Forall_forall in Hp. cbn [JInt JSON.stringify].
  unfold JInt. cbn [JSON.stringify]. now apply numberToString_plain, Hp.
Qed.

Lemma parseElements_ids (fuel : nat) (ids : list Z) :
  forall (n : nat) (acc : list JsValue) (id : Z) (tail : string),
    (length ids < n)%nat ->
    JSON.parseElements (JSON.parseValue (S fuel)) n acc
      (idTexts (id :: ids) +:+ "]" +:+ tail)
    = Some (acc ++ map JInt (id :: ids), tail).
Proof.
  induction ids as [|id' ids IH]; intros n acc id tail Hn;
    (destruct n as [|n]; [cbn [length] in Hn; lia|]); cbn [JSON.parseElements].
  - unfold idTexts. cbn [map JSON.join].
    rewrite parseValue_toString by (exists tail; now right).
    reflexivity.
  - unfold idTexts. cbn [map]. rewrite join_cons2. rewrite !append_assoc.
    rewrite parseValue_toString
      by (eexists; left; reflexivity).
    cbn [JSON.skipSpace String.append JSON.isSpace N_of_ascii N_of_digits].
    change (JSON.parseElements (JSON.parseValue (S fuel)) n (acc ++ [JInt id])
              (JSON.skipSpace (idTexts (id' :: ids) +:+ "]" +:+ tail))
            = Some (acc ++ map JInt (id :: id' :: ids), tail)).
    replace (JSON.skipSpace (idTexts (id' :: ids) +:+ "]" +:+ tail))
      with (idTexts (id' :: ids) +:+ "]" +:+ tail).
    + rewrite IH by (cbn [length] in Hn; lia). now rewrite <- app_assoc.
    + unfold idTexts. cbn [map]. 
      assert (Hh : forall m r, JSON.skipSpace (JsNumber.toString m +:+ r)
                              = JsNumber.toString m +:+ r).
      { intros m r. unfold JsNumber.toString.
        destruct m as [|p|p]; cbn [Z.to_int NilZero.string_of_int]; [reflexivity| |reflexivity].
        pose proof (to_uint_NonzeroHead p) as Hu.
        destruct (Pos.to_uint p); try contradiction; reflexivity. }
      destruct ids as [|id'' ids'].
      * cbn [map JSON.join]. now rewrite Hh.
      * cbn [map]. rewrite join_cons2. rewrite !append_assoc. now rewrite Hh.
Qed.

Lemma toString_head (n : Z) (rest : string) :
  exists d r,
    JsNumber.toString n +:+ rest = String d r
    /\ JSON.isSpace d = false
    /\ (N_of_ascii d =? 93)%N = false.
Proof.
  unfold JsNumber.toString.
  destruct n as [|p|p]; cbn [Z.to_int NilZero.string_of_int].
  - do 2 eexists. split; [reflexivity|]. split; reflexivity.
  - pose proof (to_uint_NonzeroHead p) as Hu.
    destruct (Pos.to_uint p); try contradiction;
      (do 2 eexists; split; [reflexivity|]; split; reflexivity).
  - do 2 eexists. split; [reflexivity|]. split; reflexivity.
Qed.

Lemma idTexts_head (id : Z) (ids : list Z) (rest : string) :
  exists d r,
    idTexts (id :: ids) +:+ rest = String d r
    /\ JSON.isSpace d = false
    /\ (N_of_ascii d =? 93)%N = false.
Proof.
  unfold idTexts. destruct ids as [|id' ids]; cbn [map].
  - cbn [JSON.join]. apply toString_head.
  - rewrite join_cons2, append_assoc. apply toString_head.
Qed.

Lemma length_append (a b : string) :
  String.length (a +:+ b) = (String.length a + String.length b)%nat.
Proof.
  induction a as [|c a IH]; [reflexivity|].
  rewrite append_cons. cbn [String.length]. now rewrite IH.
Qed.

Lemma toString_nonempty (n : Z) : (1 <= String.length (JsNumber.toString n))%nat.
Proof.
  destruct (toString_head n EmptyString) as (d & r & E & _).
  pose proof (length_append (JsNumber.toString n) EmptyString) as H.
  rewrite E in H. cbn [String.length] in H. lia.
Qed.

Lemma idTexts_length (id : Z) (ids : list Z) (rest : string) :
  (length ids < String.length (idTexts (id :: ids) +:+ rest))%nat.
Proof.
  rewrite length_append.
  assert (H : (length ids < String.length (idTexts (id :: ids)))%nat); [|lia].
  revert id. induction ids as [|id' ids IH]; intros id.
  - unfold idTexts. cbn [map JSON.join length]. apply toString_nonempty.
  - unfold idTexts in *. cbn [map]. rewrite join_cons2, !length_append.
    specialize (IH id'). cbn [map] in IH. cbn [length String.length]. 
    pose proof (toString_nonempty id). lia.
Qed.

(** One step of [parseValue] on an array that is not empty. *)
Lemma parseValue_array (fuel : nat) (d : ascii) (r : string) :
  JSON.isSpace d = false -> (N_of_ascii d =? 93)%N = false ->
  JSON.parseValue (S fuel) (String "[" (String d r))
  = match
      JSON.parseElements (JSON.parseValue fuel) (String.length (String d r)) []
        (String d r)
    with
    | Some (items, r2) => Some (JArray items, r2)
    | None => None
    end.
Proof.
  intros Hs Hb. cbn [JSON.parseValue].
  change (N_of_ascii "[" =? 110)%N with false.
  change (N_of_ascii "[" =? 116)%N with false.
  change (N_of_ascii "[" =? 102)%N with false.
  change (N_of_ascii "[" =? 34)%N with false.
  change (N_of_ascii "[" =? 91)%N with true. cbv iota.
  cbn [JSON.skipSpace]. now rewrite Hs, Hb.
Qed.

(** [JSON.parse] gives back the array of integers [JSON.stringify] wrote. *)
Lemma parse_stringify_ids (ids : list Z) :
  Forall Plain ids ->
  JSON.parse (JSON.stringify (JArray (map JInt ids))) = inr (JArray (map JInt ids)).
Proof.
  intros Hp. rewrite stringify_ids by exact Hp. unfold JSON.parse.
  destruct ids as [|id ids]; [reflexivity|].
  rewrite append_cons, append_nil.
  change (JSON.skipSpace (String "[" ?r)) with (String "[" r).
  destruct (idTexts_head id ids "]") as (d & r & E & Hs & Hb).
  pose proof (parseElements_ids (String.length (idTexts (id :: ids) +:+ "]"))
                ids (String.length (idTexts (id :: ids) +:+ "]")) [] id EmptyString
                (idTexts_length id ids "]")) as Hpe.
  change ("]" +:+ EmptyString) with "]" in Hpe.
  cbn [String.length]. rewrite E in *.
  rewrite parseValue_array by assumption.
  cbn [String.length] in *. rewrite Hpe. reflexivity.
Qed.

(** ** Sets of integer ids *)

Lemma has_ids (ids : list Z) (n : Z) :
  JsSet.has (map JInt ids) (JInt n) = true <-> In n ids.
Proof.
  unfold JsSet.has. rewrite existsb_exists. split.
  - intros (x & Hx & Hs). apply in_map_iff in Hx as (m & <- & Hm).
    cbn in Hs. apply andb_true_iff in Hs as [Hs _].
    apply Z.eqb_eq in Hs. now subst.
  - intros Hn. exists (JInt n). split; [now apply in_map|].
    cbn. now rewrite Z.eqb_refl.
Qed.

Lemma add_ids (ids : list Z) (n : Z) :
  ~ In n ids -> JsSet.add (map JInt ids) (JInt n) = map JInt (ids ++ [n]).
Proof.
  intros Hn. unfold JsSet.add.
  destruct (JsSet.has (map JInt ids) (JInt n)) eqn:E.
  - now apply has_ids in E.
  - now rewrite map_app.
Qed.

Lemma delete_ids (ids : list Z) (n : Z) :
  JsSet.delete (map JInt ids) (JInt n)
  = map JInt (List.filter (fun m => negb (n =? m)) ids).
Proof.
  unfold JsSet.delete. induction ids as [|m ids IH]; [reflexivity|].
  cbn [map List.filter]. rewrite IH.
  change (sameValueZero (JInt n) (JInt m)) with ((n =? m) && true).
  rewrite andb_true_r. now destruct (n =? m).
Qed.

(** [new Set] of an array of distinct ids holds them in the same order. *)
Lemma ofIterable_ids (ids : list Z) :
  List.NoDup ids -> JsSet.ofIterable (JArray (map JInt ids)) = inr (map JInt ids).
Proof.
  intros Hd. cbn [JsSet.ofIterable]. f_equal.
  assert (H : forall acc,
             List.NoDup (acc ++ ids) ->
             fold_left JsSet.add (map JInt ids) (map JInt acc) = map JInt (acc ++ ids)).
  { clear Hd. induction ids as [|n ids IH]; intros acc Hn.
    - now rewrite app_nil_r.
    - cbn [map fold_left]. rewrite add_ids.
      + rewrite IH; rewrite <- app_assoc; [reflexivity | exact Hn].
      + apply List.NoDup_remove_2 in Hn. intros Hin. apply Hn.
        apply in_or_app. now left. }
  apply (H []). exact Hd.
Qed.

(** What [saveFavorites] wrote for a set of distinct plain ids is what
    [loadFavorites] reads back on the next start. *)
Theorem saved_favorites_reload (ids : list Z) (store : Storage.t) :
  List.NoDup ids -> Forall Plain ids -> Storage.readable store = true ->
  loadFavorites (constructor (saved (map JInt ids) store))
  = (inr JUndefined,
     withFavorites (map JInt ids) (constructor (saved (map JInt ids) store))).
Proof.
  intros Hd Hp Hr. rewrite loadFavorites_eq.
  change (localStorage (constructor ?s)) with s.
  unfold Storage.getItem, saved at 1 2. cbn [Storage.readable Storage.entries].
  rewrite Hr, lookup_insert_eq.
  unfold JsSet.toArray. rewrite parse_stringify_ids by exact Hp.
  rewrite stringify_ids by exact Hp. rewrite append_cons. cbn [JsString.truthy].
  now rewrite ofIterable_ids.
Qed.

(** After [toggleFavorite] on a set of distinct plain ids, with a store
    that can be read and written, a new controller started on the store
    loads exactly the set that is in memory. *)
Theorem toggled_favorites_reload (localeCompare : string -> string -> Z)
    (pokemonId : Z) (ids : list Z) (st : State) :
  favorites st = map JInt ids ->
  List.NoDup ids -> Forall Plain ids -> Plain pokemonId ->
  Storage.readable (localStorage st) = true ->
  Storage.writable (localStorage st) = true ->
  favorites
    (snd (loadFavorites
            (constructor
               (localStorage (snd (toggleFavorite localeCompare pokemonId st))))))
  = favorites (snd (toggleFavorite localeCompare pokemonId st)).
Proof.
  intros Hf Hd Hp Hid Hr Hw.
  destruct (toggleFavorite_effect localeCompare pokemonId st) as (F & _ & W & _).
  cbv zeta in F, W. specialize (W Hw). rewrite W.
  assert (Hids : exists ids',
             favorites (snd (toggleFavorite localeCompare pokemonId st)) = map JInt ids'
             /\ List.NoDup ids' /\ Forall Plain ids').
  { rewrite F, Hf. destruct (JsSet.has (map JInt ids) (JInt pokemonId)) eqn:E.
    - rewrite delete_ids. eexists. split; [reflexivity|]. split.
      + now apply List.NoDup_filter.
      + apply List.Forall_forall. intros n Hn. apply filter_In in Hn as [Hn _].
        rewrite List.Forall_forall in Hp. now apply Hp.
    - assert (Hn : ~ In pokemonId ids).
      { intros Hin. apply has_ids in Hin. congruence. }
      rewrite add_ids by exact Hn. eexists. split; [reflexivity|]. split.
      + apply List.NoDup_app; [exact Hd | repeat constructor; intros [] |].
        intros x Hx [<-|[]]. contradiction.
      + apply Forall_app. split; [exact Hp | now constructor]. }
  destruct Hids as (ids' & -> & Hd' & Hp').
  now rewrite saved_favorites_reload.
Qed.

End JsonFacts.

(* ===================================================================== *)
(** * Properties of the selection *)
(* ===================================================================== *)

Section SelectionFacts.

Variable localeCompare : string -> string -> Z.

Lemma filter_andb {A : Type} (f g : A -> bool) (l : list A) :
  List.filter f (List.filter g l) = List.filter (fun x => g x && f x) l.
Proof.
  induction l as [|x r IH]; [reflexivity|]. cbn [List.filter].
  destruct (g x); cbn [andb List.filter]; [|exact IH].
  destruct (f x); now rewrite IH.
Qed.

Lemma filter_all {A : Type} (l : list A) : List.filter (fun _ => true) l = l.
Proof. induction l as [|x r IH]; [reflexivity|]. cbn. now rewrite IH. Qed.

Lemma searchFilter_filter filters l :
  searchFilter filters l
  = List.filter
      (fun p =>
         negb (JsString.truthy (Filters.search filters))
         || (JsString.includes (Pokemon.name p) (Filters.search filters)
             || JsString.includes (JsString.toLowerCase (Pokemon.displayName p))
                  (Filters.search filters)
             || JsString.includes (Pokemon.number p) (Filters.search filters)))
      l.
Proof.
  unfold searchFilter. destruct (JsString.truthy (Filters.search filters)).
  - reflexivity.
  - exact (eq_sym (filter_all l)).
Qed.

Lemma typeFilter_filter filters l :
  typeFilter filters l
  = List.filter
      (fun p =>
         String.eqb (Filters.type filters) "all"
         || JsArray.includes (Pokemon.types p) (Filters.type filters))
      l.
Proof.
  unfold typeFilter. destruct (String.eqb (Filters.type filters) "all").
  - exact (eq_sym (filter_all l)).
  - reflexivity.
Qed.

Lemma favoritesFilter_filter filters favs l :
  favoritesFilter filters favs l
  = List.filter
      (fun p =>
         negb (Filters.showFavorites filters) || JsSet.has favs (JInt (Pokemon.id p)))
      l.
Proof.
  unfold favoritesFilter. destruct (Filters.showFavorites filters).
  - reflexivity.
  - exact (eq_sym (filter_all l)).
Qed.

(** The three filters in a row keep the records that pass the test, in
    the order of the catalogue. *)
Lemma selected_filter all filters favs :
  selected all filters favs = List.filter (passes filters favs) all.
Proof.
  unfold selected.
  rewrite searchFilter_filter, typeFilter_filter, favoritesFilter_filter.
  rewrite !filter_andb. apply List.filter_ext. intros p. unfold passes.
  now rewrite andb_assoc.
Qed.

Lemma passes_spec filters favs p :
  passes filters favs p = true <-> Passes filters favs p.
Proof.
  unfold passes, Passes, MatchesSearch.
  rewrite !andb_true_iff, !orb_true_iff, !negb_true_iff, !includes_spec.
  rewrite String.eqb_eq.
  assert (Hs : JsString.truthy (Filters.search filters) = false
               <-> Filters.search filters = "").
  { destruct (Filters.search filters); cbn; split; congruence. }
  assert (Ht : JsArray.includes (Pokemon.types p) (Filters.type filters) = true
               <-> In (Filters.type filters) (Pokemon.types p)).
  { unfold JsArray.includes. rewrite existsb_exists. split.
    - intros (t & Hin & E). apply String.eqb_eq in E. now subst.
    - intros Hin. exists (Filters.type filters). split; [exact Hin|].
      apply String.eqb_refl. }
  rewrite Hs, Ht. tauto.
Qed.

(** Whatever the sort key, the filtered set a call of [applyFilters]
    leaves holds the records of the catalogue that pass every filter that
    is on, each as often as the catalogue has it, and the counter shows
    how many they are; before the sort they are in the order of the
    catalogue. *)
Theorem filtered_set_is_the_passing_records (st : State) (v : JsValue) (st' : State) :
  applyFilters localeCompare st = (inr v, st') ->
  Permutation
    (List.filter (passes (currentFilters st) (favorites st)) (pokemon st))
    (filteredPokemon st')
  /\ (forall p,
         In p (filteredPokemon st') <->
         In p (pokemon st) /\ Passes (currentFilters st) (favorites st) p)
  /\ Dom.showingCount (dom st')
     = Z.of_nat
         (length (List.filter (passes (currentFilters st) (favorites st)) (pokemon st)))
  /\ selected (pokemon st) (currentFilters st) (favorites st)
     = List.filter (passes (currentFilters st) (favorites st)) (pokemon st).
Proof.
  intros H.
  destruct (applyFilters_cases localeCompare st) as [(l & E & R)|(e & _ & R)];
    rewrite R in H; [|discriminate].
  injection H as _ <-.
  apply sort_Permutation in E. rewrite selected_filter in E.
  change (filteredPokemon (toggleLoadMore ?s)) with (filteredPokemon s).
  change (filteredPokemon (updateStats ?s)) with (filteredPokemon s).
  change (filteredPokemon (renderPokemon ?s)) with (filteredPokemon s).
  cbn [filteredPokemon withCurrentPage withFilteredPokemon].
  split; [exact E|]. split; [|split].
  - intros p. rewrite <- passes_spec, <- filter_In. split; intros Hin.
    + now apply (Permutation_in _ (Permutation_sym E)).
    + now apply (Permutation_in _ E).
  - change (Dom.showingCount (dom (toggleLoadMore ?s))) with (Dom.showingCount (dom s)).
    change (Dom.showingCount (dom (updateStats ?s)))
      with (Z.of_nat (length (filteredPokemon s))).
    change (filteredPokemon (renderPokemon ?s)) with (filteredPokemon s).
    cbn [filteredPokemon withCurrentPage withFilteredPokemon].
    now rewrite (Permutation_length E).
  - apply selected_filter.
Qed.

End SelectionFacts.

(* ===================================================================== *)
(** * What the listeners leave alone, and what they keep in step *)
(* ===================================================================== *)

Section PageFacts.

Variable localeCompare : string -> string -> Z.

(** What [applyFilters] leaves alone, whether it returns or throws. *)
Lemma applyFilters_frame st :
  let st' := snd (applyFilters localeCompare st) in
  pokemon st' = pokemon st
  /\ favorites st' = favorites st
  /\ isLoading st' = isLoading st
  /\ currentFilters st' = currentFilters st
  /\ localStorage st' = localStorage st
  /\ console st' = console st
  /\ Dom.clearSearch (dom st') = Dom.clearSearch (dom st)
  /\ Dom.toggleFavorites (dom st') = Dom.toggleFavorites (dom st)
  /\ Dom.searchInput (dom st') = Dom.searchInput (dom st)
  /\ Dom.notification (dom st') = Dom.notification (dom st)
  /\ Dom.loadingScreen (dom st') = Dom.loadingScreen (dom st).
Proof.
  cbv zeta.
  destruct (applyFilters_cases localeCompare st) as [(l & _ & ->)|(e & _ & ->)];
    cbn [snd]; [|repeat split].
  state_norm.
  destruct (JsArray.slice 0 (1 * pokemonPerPage) l); repeat split.
Qed.

(** A call of [applyFilters] that returns leaves the page in step with
    the state. *)
Lemma applyFilters_InSync st v st' :
  applyFilters localeCompare st = (inr v, st') -> InSync st'.
Proof.
  intros H.
  destruct (applyFilters_cases localeCompare st) as [(l & _ & R)|(e & _ & R)];
    rewrite R in H; [|discriminate].
  injection H as _ <-. unfold InSync, totalPages. state_norm.
  destruct (JsArray.slice 0 (1 * pokemonPerPage) l); repeat split.
Qed.

Lemma loadMorePokemon_InSync st : InSync st -> InSync (loadMorePokemon st).
Proof.
  intros H. unfold loadMorePokemon.
  destruct (isLoading st); [exact H|].
  destruct (_ >=? _); [exact H|].
  destruct H as (_ & _ & _ & T & S & F).
  unfold InSync, totalPages. state_norm.
  match goal with
  | |- context [JsArray.slice ?a ?b ?c] => destruct (JsArray.slice a b c)
  end; repeat split; first [exact T | exact S | exact F].
Qed.

Lemma loadMorePokemon_ControlsInSync st :
  ControlsInSync st -> ControlsInSync (loadMorePokemon st).
Proof.
  intros H. unfold loadMorePokemon.
  destruct (isLoading st); [exact H|].
  destruct (_ >=? _); [exact H|].
  destruct H as (C & T). unfold ControlsInSync. state_norm.
  match goal with
  | |- context [JsArray.slice ?a ?b ?c] => destruct (JsArray.slice a b c)
  end; split; first [exact C | exact T].
Qed.

(** What a listener leaves alone, whether it returns or throws. *)
Lemma handle_frame (ev : Event) (st : State) :
  let st' := snd (handle localeCompare ev st) in
  pokemon st' = pokemon st
  /\ isLoading st' = isLoading st
  /\ ((forall pokemonId, ev <> FavoriteButtonClick pokemonId) ->
      favorites st' = favorites st
      /\ localStorage st' = localStorage st
      /\ console st' = console st)
  /\ (changesFilters ev = false -> currentFilters st' = currentFilters st).
Proof.
  cbv zeta.
  pose proof (loadMorePokemon_frame st) as (MP & MF & MV & ML & MC & MS).
  assert (MK : console (loadMorePokemon st) = console st).
  { unfold loadMorePokemon. destruct (isLoading st); [reflexivity|].
    now destruct (_ >=? _). }
  destruct ev; unfold handle, bind, exec, ret; cbn [snd changesFilters];
    try (match goal with
         | |- context [applyFilters localeCompare ?s] =>
             destruct (applyFilters_cases localeCompare s) as [(l & _ & R)|(e & _ & R)];
             rewrite R; cbn [snd]; state_norm;
             try (destruct (JsArray.slice 0 (1 * pokemonPerPage) l));
             repeat split; intros; first [reflexivity | congruence]
         end).
  - repeat split; intros; assumption.
  - destruct inSearchInput; cbn [snd]; repeat split; intros; assumption.
  - pose proof (toggleFavorite_effect localeCompare pokemonId st) as (_ & _ & _ & _ & P & _).
    cbv zeta in P. split; [exact P|]. split; [|split].
    + rewrite toggleFavorite_steps. cbv zeta.
      set (st1 := showNotification _ _ _).
      destruct (saveFavorites_cases st1) as [[_ ->]|[_ ->]];
        match goal with
        | |- context [applyFilters localeCompare ?s] =>
            pose proof (applyFilters_frame s) as (_ & _ & L & _);
            cbv zeta in L;
            destruct (applyFilters localeCompare s) as [[e|w] s']; cbn [snd] in *;
            exact L
        end.
    + intros Hne. now destruct (Hne pokemonId).
    + intros _. rewrite toggleFavorite_steps. cbv zeta.
      set (st1 := showNotification _ _ _).
      destruct (saveFavorites_cases st1) as [[_ ->]|[_ ->]];
        match goal with
        | |- context [applyFilters localeCompare ?s] =>
            pose proof (applyFilters_frame s) as (_ & _ & _ & C & _);
            cbv zeta in C;
            destruct (applyFilters localeCompare s) as [[e|w] s']; cbn [snd] in *;
            exact C
        end.
Qed.

(** No listener touches the catalogue or the loading flag; only a click
    on a favourite button touches the favourites, the store and the
    console; and the listeners that page or toggle a favourite leave the
    filter state as it is.  That holds whether the listener returns or
    throws. *)
Theorem listeners_keep_catalogue (ev : Event) (st : State) :
  let st' := snd (handle localeCompare ev st) in
  pokemon st' = pokemon st
  /\ isLoading st' = isLoading st
  /\ ((forall pokemonId, ev <> FavoriteButtonClick pokemonId) ->
      favorites st' = favorites st
      /\ localStorage st' = localStorage st
      /\ console st' = console st)
  /\ (changesFilters ev = false -> currentFilters st' = currentFilters st).
Proof. apply handle_frame. Qed.

(** Every listener that returns keeps the page in step with the state:
    the cards are the first pages of the filtered set with the favourite
    flags of now, the empty-state message shows exactly when there is no
    card, the button to load more exactly when a page is left, the
    counters show the three sizes, the button that clears the search
    shows exactly when there is a search text and the favourites toggle is
    lit exactly when its filter is on. *)
Lemma handle_InSync (ev : Event) (st : State) (v : JsValue) (st' : State) :
  InSync st -> ControlsInSync st ->
  handle localeCompare ev st = (inr v, st') ->
  InSync st' /\ ControlsInSync st'.
Proof.
  intros HI HC H.
  assert (Hap : forall s w s',
             applyFilters localeCompare s = (inr w, s') ->
             InSync s'
             /\ currentFilters s' = currentFilters s
             /\ Dom.clearSearch (dom s') = Dom.clearSearch (dom s)
             /\ Dom.toggleFavorites (dom s') = Dom.toggleFavorites (dom s)).
  { intros s w s' E. split; [exact (applyFilters_InSync _ _ _ E)|].
    pose proof (applyFilters_frame s) as (_ & _ & _ & C & _ & _ & X & T & _).
    cbv zeta in C, X, T. rewrite E in C, X, T. now repeat split. }
  destruct HC as (HX & HT).
  destruct ev; unfold handle, bind, exec, ret in H.
  - (* search input *)
    match type of H with
    | context [applyFilters localeCompare ?s] =>
        destruct (applyFilters localeCompare s) as [[e|w] s'] eqn:E; [discriminate|];
        apply Hap in E as (I & C & X & T)
    end.
    injection H as _ <-. split.
    + destruct I as (I1 & I2 & I3 & I4 & I5 & I6).
      unfold InSync, totalPages in *. state_norm. now repeat split.
    + split; [reflexivity|].
      change (Dom.toggleFavorites (dom s') = Filters.showFavorites (currentFilters s')).
      rewrite T, C. exact HT.
  - (* clear search *)
    match type of H with
    | context [applyFilters localeCompare ?s] =>
        destruct (applyFilters localeCompare s) as [[e|w] s'] eqn:E; [discriminate|];
        apply Hap in E as (I & C & X & T)
    end.
    injection H as _ <-. split.
    + destruct I as (I1 & I2 & I3 & I4 & I5 & I6).
      unfold InSync, totalPages in *. state_norm. now repeat split.
    + split; [reflexivity|].
      change (Dom.toggleFavorites (dom s') = Filters.showFavorites (currentFilters s')).
      rewrite T, C. exact HT.
  - (* type filter *)
    match type of H with
    | context [applyFilters localeCompare ?s] =>
        destruct (applyFilters localeCompare s) as [[e|w] s'] eqn:E; [discriminate|];
        apply Hap in E as (I & C & X & T)
    end.
    injection H as _ <-. split; [exact I|].
    unfold ControlsInSync. rewrite X, T, C. split; [exact HX | exact HT].
  - (* sort select *)
    match type of H with
    | context [applyFilters localeCompare ?s] =>
        destruct (applyFilters localeCompare s) as [[e|w] s'] eqn:E; [discriminate|];
        apply Hap in E as (I & C & X & T)
    end.
    injection H as _ <-. split; [exact I|].
    unfold ControlsInSync. rewrite X, T, C. split; [exact HX | exact HT].
  - (* favourites toggle *)
    match type of H with
    | context [applyFilters localeCompare ?s] =>
        destruct (applyFilters localeCompare s) as [[e|w] s'] eqn:E; [discriminate|];
        apply Hap in E as (I & C & X & T)
    end.
    injection H as _ <-. split; [exact I|].
    unfold ControlsInSync. rewrite X, T, C. split; [exact HX | reflexivity].
  - (* load more *)
    injection H as _ <-. split.
    + now apply loadMorePokemon_InSync.
    + apply loadMorePokemon_ControlsInSync. now split.
  - (* Enter *)
    destruct inSearchInput; injection H as _ <-.
    + split; [exact HI | now split].
    + split; [now apply loadMorePokemon_InSync|].
      apply loadMorePokemon_ControlsInSync. now split.
  - (* favourite button *)
    rewrite toggleFavorite_steps in H. cbv zeta in H.
    set (st1 := showNotification _ _ _) in H.
    assert (H1 : currentFilters st1 = currentFilters st
                 /\ Dom.clearSearch (dom st1) = Dom.clearSearch (dom st)
                 /\ Dom.toggleFavorites (dom st1) = Dom.toggleFavorites (dom st))
      by (repeat split).
    destruct H1 as (C1 & X1 & T1).
    destruct (saveFavorites_cases st1) as [[_ R]|[_ R]]; rewrite R in H;
      match type of H with
      | context [applyFilters localeCompare ?s] =>
          destruct (applyFilters localeCompare s) as [[e|w] s'] eqn:E; [discriminate|];
          apply Hap in E as (I & C & X & T)
      end;
      injection H as _ <-; (split; [exact I|]);
      unfold ControlsInSync; rewrite X, T, C;
      (split; [exact HX | exact HT]).
Qed.

End PageFacts.

(* ===================================================================== *)
(** * Properties of the start-up *)
(* ===================================================================== *)

Section StartFacts.

Variable localeCompare : string -> string -> Z.
Variable fetch : Z -> JsError + Payload.t.

(** A batch after the first appends its records and shows the new
    total; after two of them the page is as after one batch that holds
    both. *)
Lemma later_batches_merge l1 l2 st :
  updateStats (withPokemon ((pokemon st ++ l1) ++ l2) (updateStats (withPokemon (pokemon st ++ l1) st)))
  = updateStats (withPokemon (pokemon st ++ l1 ++ l2) st).
Proof.
  apply State_ext; try reflexivity.
  - cbn [pokemon updateStats withDom withPokemon]. now rewrite app_assoc.
  - state_norm. now rewrite app_assoc.
Qed.

(** The state after the loop, from its second turn on. *)
Lemma loadBatches_later_state totalPokemon batchSize fuel :
  1 <= batchSize ->
  forall i st,
    1 < i -> (Z.to_nat (totalPokemon + 1 - i) < fuel)%nat ->
    loadBatches localeCompare fetch totalPokemon batchSize fuel i st
    = Some (inr JUndefined,
            if i <=? totalPokemon
            then updateStats
                   (withPokemon (pokemon st ++ fetched fetch i (totalPokemon + 1 - i)) st)
            else st).
Proof.
  intros Hb. induction fuel as [|fuel IH]; intros i st Hi Hf; [lia|].
  cbn [loadBatches]. destruct (Z.leb_spec i totalPokemon) as [Hle|Hgt]; [|reflexivity].
  rewrite loadBatch_later by lia.
  rewrite IH by lia. do 2 f_equal.
  destruct (Z.leb_spec (i + batchSize) totalPokemon) as [Hle'|Hgt'].
  - rewrite Z.min_l by lia.
    change (pokemon (updateStats (withPokemon ?l st))) with l.
    rewrite later_batches_merge. do 3 f_equal.
    replace (totalPokemon + 1 - i) with (batchSize + (totalPokemon + 1 - (i + batchSize)))
      by lia.
    now rewrite fetched_app by lia.
  - now rewrite Z.min_r by lia.
Qed.

(** Appending records and showing the new total keeps the page in step. *)
Lemma InSync_later_batch l st :
  InSync st -> InSync (updateStats (withPokemon l st)).
Proof.
  intros (C & E & M & _ & S & F). unfold InSync, totalPages in *.
  repeat split; first [exact C | exact E | exact M | exact S | exact F | reflexivity].
Qed.

(** The page is in step by what it shows of the three lists. *)
Lemma InSync_same (s s' : State) :
  pokemon s' = pokemon s ->
  filteredPokemon s' = filteredPokemon s ->
  favorites s' = favorites s ->
  currentPage s' = currentPage s ->
  Dom.pokeContainer (dom s') = Dom.pokeContainer (dom s) ->
  Dom.emptyState (dom s') = Dom.emptyState (dom s) ->
  Dom.loadMore (dom s') = Dom.loadMore (dom s) ->
  Dom.totalCount (dom s') = Dom.totalCount (dom s) ->
  Dom.showingCount (dom s') = Dom.showingCount (dom s) ->
  Dom.favoritesCount (dom s') = Dom.favoritesCount (dom s) ->
  InSync s -> InSync s'.
Proof.
  intros P F V C D1 D2 D3 D4 D5 D6 H.
  unfold InSync, totalPages, createPokemonCard in *.
  rewrite P, F, V, C, D1, D2, D3, D4, D5, D6. exact H.
Qed.

(** The steps that end [loadPokemon] and [init] touch nothing the page is
    in step by. *)
Lemma InSync_consoleWrite entry s : InSync s -> InSync (consoleWrite entry s).
Proof. apply InSync_same; reflexivity. Qed.

Lemma InSync_hideLoading s : InSync s -> InSync (hideLoading s).
Proof. apply InSync_same; reflexivity. Qed.

Lemma InSync_hideLoadingScreen s : InSync s -> InSync (hideLoadingScreen s).
Proof. apply InSync_same; reflexivity. Qed.

Lemma InSync_showNotification message kind s :
  InSync s -> InSync (showNotification message kind s).
Proof. apply InSync_same; reflexivity. Qed.

(** [loadPokemon] when the render of the first batch returns [l]. *)
Lemma loadPokemonWith_returns totalPokemon batchSize st l :
  1 <= batchSize -> 1 <= totalPokemon ->
  let st0 :=
    updateStats
      (withPokemon (pokemon st ++ fetched fetch 1 (Z.min batchSize totalPokemon))
         (showLoading st)) in
  recompute localeCompare (pokemon st0) (currentFilters st0) (favorites st0) = inr l ->
  let st2 :=
    toggleLoadMore
      (updateStats (renderPokemon (withCurrentPage 1 (withFilteredPokemon l st0)))) in
  let st3 :=
    if 1 + batchSize <=? totalPokemon
    then updateStats
           (withPokemon
              (pokemon st2
               ++ fetched fetch (1 + batchSize) (totalPokemon + 1 - (1 + batchSize)))
              st2)
    else st2 in
  forall fuel,
    (Z.to_nat totalPokemon < fuel)%nat ->
    loadPokemonWith localeCompare fetch totalPokemon batchSize fuel st
    = Some (inr JUndefined,
            hideLoading
              (consoleWrite
                 (ConsoleLog
                    ("✅ Loaded "
                     +:+ JsNumber.toString (Z.of_nat (length (pokemon st3)))
                     +:+ " Pokémon"))
                 st3)).
Proof.
  intros Hb Ht st0 Hrec st2 st3 fuel Hf.
  destruct fuel as [|fuel]; [lia|].
  unfold loadPokemonWith. cbn [loadBatches].
  destruct (Z.leb_spec 1 totalPokemon); [|lia].
  rewrite loadBatch_first.
  replace (totalPokemon + 1 - 1) with totalPokemon by lia.
  match goal with
  | |- context [applyFilters localeCompare ?s] => change s with st0
  end.
  rewrite (applyFilters_returns localeCompare st0 l Hrec). fold st2.
  rewrite loadBatches_later_state by lia. reflexivity.
Qed.

(** [loadPokemon] never throws and never stays in its loop.  For every
    total and every batch size of at least one, fuel beyond the total is
    enough; the call returns [undefined] with [isLoading] off and leaves
    the favourites, the store and the filter state as they were.  Either
    every batch was appended, and the notification is as it was; or the
    render of the first batch threw, which takes the sort key ["type"] and
    a record without a type: then the first batch alone was appended, the
    filtered set is as it was, the exception is on the console and the
    page shows the error notification. *)
Theorem loadPokemon_never_throws (totalPokemon batchSize : Z) (st : State) :
  1 <= batchSize ->
  exists st',
    (forall fuel,
        (Z.to_nat totalPokemon < fuel)%nat ->
        loadPokemonWith localeCompare fetch totalPokemon batchSize fuel st
        = Some (inr JUndefined, st'))
    /\ isLoading st' = false
    /\ favorites st' = favorites st
    /\ localStorage st' = localStorage st
    /\ currentFilters st' = currentFilters st
    /\ ((pokemon st' = pokemon st ++ fetched fetch 1 totalPokemon
         /\ Dom.notification (dom st') = Dom.notification (dom st))
        \/ (exists e p,
               Filters.sort (currentFilters st) = "type"
               /\ In p (pokemon st') /\ Pokemon.types p = []
               /\ pokemon st'
                  = pokemon st ++ fetched fetch 1 (Z.min batchSize totalPokemon)
               /\ filteredPokemon st' = filteredPokemon st
               /\ console st' = console st ++ [ConsoleError "Error loading Pokémon:" e]
               /\ Dom.notification (dom st')
                  = Some ("Error loading Pokémon data", "error"))).
Proof.
  intros Hb.
  assert (Hfuel : forall st',
             loadPokemonWith localeCompare fetch totalPokemon batchSize
               (S (Z.to_nat totalPokemon)) st
             = Some (inr JUndefined, st') ->
             forall fuel,
               (Z.to_nat totalPokemon < fuel)%nat ->
               loadPokemonWith localeCompare fetch totalPokemon batchSize fuel st
               = Some (inr JUndefined, st')).
  { intros st' R fuel Hf.
    apply (loadPokemonWith_more_fuel _ _ _ _ (S (Z.to_nat totalPokemon))); [lia | exact R]. }
  unfold loadPokemonWith in Hfuel |- *.
  cbn [loadBatches] in Hfuel.
  destruct (Z.leb_spec 1 totalPokemon) as [Hle|Hgt].
  - rewrite loadBatch_first in Hfuel.
    replace (totalPokemon + 1 - 1) with totalPokemon in Hfuel by lia.
    set (st0 := updateStats _) in Hfuel.
    destruct (applyFilters localeCompare st0) as [[e|w] st1] eqn:E.
    + apply applyFilters_throws_inv in E as (Hs & -> & p & Hp & Ht).
      eexists. split; [apply Hfuel; reflexivity|].
      repeat split. right. exists e, p. repeat split; assumption.
    + rewrite loadBatches_later_state in Hfuel by lia.
      apply applyFilters_effect in E as (_ & _ & P1 & C1 & F1 & L1 & S1 & N1 & K1).
      eexists. split; [apply Hfuel; reflexivity|].
      destruct (Z.leb_spec (1 + batchSize) totalPokemon) as [Hle'|Hgt'].
      * split; [reflexivity|]. split; [exact F1|]. split; [exact S1|].
        split; [exact C1|]. left. split; [|exact N1].
        change (pokemon (hideLoading (consoleWrite ?c (updateStats (withPokemon ?l ?s)))))
          with l.
        rewrite P1.
        change (pokemon st0)
          with (pokemon st ++ fetched fetch 1 (Z.min batchSize totalPokemon)).
        rewrite Z.min_l by lia. rewrite <- app_assoc. f_equal.
        replace totalPokemon with (batchSize + (totalPokemon + 1 - (1 + batchSize))) at 2
          by lia.
        now rewrite fetched_app by lia.
      * split; [reflexivity|]. split; [exact F1|]. split; [exact S1|].
        split; [exact C1|]. left. split; [|exact N1].
        change (pokemon (hideLoading (consoleWrite ?c ?s))) with (pokemon s).
        rewrite P1.
        change (pokemon st0)
          with (pokemon st ++ fetched fetch 1 (Z.min batchSize totalPokemon)).
        now rewrite Z.min_r by lia.
  - eexists. split; [apply Hfuel; reflexivity|].
    repeat split. left. split; [|reflexivity].
    rewrite fetched_nil by lia. symmetry. apply app_nil_r.
Qed.

(** [init] on a new controller, whatever the store holds and whichever
    requests fail: it returns, with fuel beyond the 151 ids; the catalogue
    holds the record of every request that succeeded, in the order of the
    ids; the filtered set holds the records of the first batch, the ids 1
    to 20, in ascending order of their ids, on its first page; the page is
    in step with that state; the loading screen is hidden, the success
    notification shows, and the store is as it was. *)
Theorem init_shows_the_first_batch (store : Storage.t) :
  exists st',
    (forall fuel,
        (151 < fuel)%nat ->
        init localeCompare fetch fuel (constructor store) = Some (inr JUndefined, st'))
    /\ pokemon st' = fetched fetch 1 151
    /\ Permutation (fetched fetch 1 20) (filteredPokemon st')
    /\ StronglySorted (fun a b => Pokemon.id a <= Pokemon.id b) (filteredPokemon st')
    /\ currentPage st' = 1
    /\ isLoading st' = false
    /\ InSync st'
    /\ Dom.loadingScreen (dom st') = false
    /\ Dom.notification (dom st') = Some ("Pokédex loaded successfully!", "success")
    /\ favorites st' = favorites (snd (loadFavorites (constructor store)))
    /\ localStorage st' = store.
Proof.
  pose proof (loadFavorites_frame (constructor store)) as (R1 & P1 & F1 & G1 & L1 & C1 & D1 & S1).
  cbv zeta in R1, P1, F1, G1, L1, C1, D1, S1.
  destruct (loadFavorites (constructor store)) as [r1 st1] eqn:E1.
  cbn [fst snd] in *. subst r1.
  change (pokemon (constructor store)) with (@nil Pokemon.t) in P1.
  change (currentFilters (constructor store)) with (Filters.mk "" "all" "number" false) in C1.
  change (localStorage (constructor store)) with store in S1.
  set (st0 :=
         updateStats
           (withPokemon (pokemon st1 ++ fetched fetch 1 (Z.min 20 151)) (showLoading st1))).
  assert (HP0 : pokemon st0 = fetched fetch 1 20).
  { change (pokemon st0) with (pokemon st1 ++ fetched fetch 1 (Z.min 20 151)).
    now rewrite P1. }
  destruct (sort_byKey_sorted Pokemon.id (fetched fetch 1 20)) as (l & Hsort & Hsorted & Hperm).
  assert (Hrec : recompute localeCompare (pokemon st0) (currentFilters st0) (favorites st0)
                 = inr l).
  { rewrite HP0. change (currentFilters st0) with (currentFilters st1). rewrite C1.
    exact Hsort. }
  pose proof (loadPokemonWith_returns 151 20 st1 l ltac:(lia) ltac:(lia) Hrec) as Hload.
  cbv zeta in Hload.
  pose proof (applyFilters_returns localeCompare st0 l Hrec) as Hap.
  set (st2 := toggleLoadMore _) in Hap, Hload.
  pose proof (applyFilters_InSync localeCompare st0 JUndefined st2 Hap) as Hsync.
  change (1 + 20 <=? 151) with true in Hload. cbv iota in Hload.
  set (st3 := updateStats (withPokemon _ st2)) in Hload.
  eexists. split.
  { intros fuel Hf. unfold init. rewrite E1. unfold loadPokemon.
    rewrite (Hload fuel) by exact Hf. reflexivity. }
  assert (HP2 : pokemon st2 = fetched fetch 1 20) by exact HP0.
  split; [|split; [exact Hperm|split; [exact Hsorted|split; [reflexivity|split;
    [reflexivity|split; [|split; [reflexivity|split; [reflexivity|split;
    [reflexivity|exact S1]]]]]]]]].
  - change (pokemon st2 ++ fetched fetch (1 + 20) (151 + 1 - (1 + 20))
            = fetched fetch 1 151).
    rewrite HP2. change (151 + 1 - (1 + 20)) with 131.
    change 151 with (20 + 131). now rewrite fetched_app by lia.
  - apply InSync_consoleWrite, InSync_showNotification, InSync_hideLoadingScreen,
      InSync_hideLoading, InSync_consoleWrite.
    exact (InSync_later_batch _ st2 Hsync).
Qed.

End StartFacts.

(* ===================================================================== *)
(** * Paging to the end *)
(* ===================================================================== *)

Section PagingFacts.

Lemma iter_loadMorePokemon_frame (st : State) (n : nat) :
  filteredPokemon (Nat.iter n loadMorePokemon st) = filteredPokemon st
  /\ isLoading (Nat.iter n loadMorePokemon st) = isLoading st
  /\ totalPages (Nat.iter n loadMorePokemon st) = totalPages st.
Proof.
  induction n as [|n (F & L & T)]; [repeat split|]. rewrite Nat.iter_succ.
  destruct (loadMorePokemon_frame (Nat.iter n loadMorePokemon st))
    as (_ & F' & _ & L' & _).
  rewrite totalPages_loadMorePokemon, F', L'. now repeat split.
Qed.

(** While pages are left, each click adds one to the page number. *)
Lemma iter_loadMorePokemon_page (st : State) (n : nat) :
  isLoading st = false ->
  currentPage st + Z.of_nat n <= Z.max (currentPage st) (totalPages st) ->
  currentPage (Nat.iter n loadMorePokemon st) = currentPage st + Z.of_nat n.
Proof.
  intros Hl. induction n as [|n IH]; intros Hn; [cbn; lia|].
  rewrite Nat.iter_succ.
  destruct (iter_loadMorePokemon_frame st n) as (F & L & T).
  rewrite currentPage_loadMorePokemon; [rewrite IH; lia | congruence |].
  rewrite T, IH; lia.
Qed.

(** From a page that is not the last, clicking the button to load more
    as often as pages are left shows a page more each time, the button
    staying on the page until the last click hides it; the filtered set is
    then on the page in full, and further clicks change nothing. *)
Theorem load_more_reaches_the_end (st : State) :
  isLoading st = false -> 1 <= currentPage st -> currentPage st < totalPages st ->
  let clicks n := Nat.iter n loadMorePokemon st in
  let left := Z.to_nat (totalPages st - currentPage st) in
  (forall j,
      (1 <= j <= left)%nat ->
      currentPage (clicks j) = currentPage st + Z.of_nat j
      /\ Dom.visible (dom (clicks j))
         = firstn (Z.to_nat ((currentPage st + Z.of_nat j) * 20)) (filteredPokemon st)
      /\ Dom.loadMore (dom (clicks j)) = negb (j =? left)%nat)
  /\ (forall k,
         (left <= k)%nat ->
         clicks k = clicks left
         /\ Dom.visible (dom (clicks k)) = filteredPokemon st).
Proof.
  intros Hl Hp Ht clicks left. subst clicks. cbv beta.
  assert (Hstep : forall j,
             (1 <= j <= left)%nat ->
             currentPage (Nat.iter j loadMorePokemon st) = currentPage st + Z.of_nat j
             /\ Dom.visible (dom (Nat.iter j loadMorePokemon st))
                = firstn (Z.to_nat ((currentPage st + Z.of_nat j) * 20))
                    (filteredPokemon st)
             /\ Dom.loadMore (dom (Nat.iter j loadMorePokemon st))
                = negb (j =? left)%nat).
  { intros j Hj. destruct j as [|j]; [lia|].
    rewrite Nat.iter_succ. set (s := Nat.iter j loadMorePokemon st).
    destruct (iter_loadMorePokemon_frame st j) as (F & L & T). fold s in F, L, T.
    assert (C : currentPage s = currentPage st + Z.of_nat j).
    { apply iter_loadMorePokemon_page; [exact Hl | lia]. }
    assert (Hlt : currentPage s < totalPages s) by (rewrite C, T; lia).
    assert (Hl' : isLoading s = false) by congruence.
    split; [|split].
    - rewrite currentPage_loadMorePokemon by assumption. lia.
    - rewrite visible_loadMorePokemon by assumption.
      rewrite slice0_firstn by (unfold pokemonPerPage; lia).
      rewrite F, C. unfold pokemonPerPage. do 2 f_equal. lia.
    - rewrite loadMorePokemon_advance by assumption.
      change (Dom.loadMore (dom (toggleLoadMore ?x)))
        with (currentPage x <? totalPages x).
      change (currentPage (renderPokemon (withCurrentPage ?p ?x))) with p.
      change (totalPages (renderPokemon (withCurrentPage ?p ?x))) with (totalPages x).
      rewrite C, T.
      destruct (Nat.eqb_spec (S j) left) as [E|E]; cbn [negb].
      + apply Z.ltb_ge. lia.
      + apply Z.ltb_lt. lia. }
  split; [exact Hstep|].
  assert (Hleft : (1 <= left)%nat) by lia.
  destruct (Hstep left ltac:(lia)) as (C & V & _).
  assert (Hfix : loadMorePokemon (Nat.iter left loadMorePokemon st)
                 = Nat.iter left loadMorePokemon st).
  { apply loadMorePokemon_last.
    destruct (iter_loadMorePokemon_frame st left) as (_ & _ & T).
    rewrite C, T. lia. }
  assert (Hsame : forall k,
             (left <= k)%nat ->
             Nat.iter k loadMorePokemon st = Nat.iter left loadMorePokemon st).
  { intros k Hk. induction k as [|k IH]; [lia|].
    destruct (Nat.eq_dec (S k) left) as [<-|Hne]; [reflexivity|].
    rewrite Nat.iter_succ. rewrite IH by lia. exact Hfix. }
  intros k Hk. split; [now apply Hsame|].
  rewrite (Hsame k Hk), V. apply firstn_all2.
  pose proof (totalPages_spec st) as Hs.
  pose proof (Z.div_mod (Z.of_nat (length (filteredPokemon st)) + 19) 20 ltac:(lia)) as H1.
  pose proof (Z.mod_pos_bound (Z.of_nat (length (filteredPokemon st)) + 19) 20 ltac:(lia))
    as H2.
  lia.
Qed.

End PagingFacts.

(* ===================================================================== *)
(** * Properties of the transformer *)
(* ===================================================================== *)

Section TransformFacts.

Lemma append_empty (s : string) : s +:+ "" = s.
Proof. induction s as [|c s IH]; [reflexivity|]. rewrite append_cons. now rewrite IH. Qed.

Lemma length_zeros (n : nat) : String.length (JSON.zeros n) = n.
Proof. induction n as [|n IH]; [reflexivity|]. cbn [JSON.zeros String.length]. now rewrite IH. Qed.

(** Padding with the one character ["0"] writes zeros. *)
Lemma cycleTake_zeros (n : nat) (cur : string) :
  cur = "0" \/ cur = "" -> JsString.cycleTake n "0" cur = JSON.zeros n.
Proof.
  revert cur. induction n as [|n IH]; intros cur Hc; [reflexivity|].
  destruct Hc as [-> | ->]; cbn [JsString.cycleTake JSON.zeros];
    (rewrite IH by (now right)); reflexivity.
Qed.

Lemma padStart_zeros (s : string) :
  JsString.padStart 3 "0" s = JSON.zeros (3 - String.length s) +:+ s.
Proof. unfold JsString.padStart. rewrite cycleTake_zeros by (now left). reflexivity. Qed.

(** Zeros at the head of a numeral do not change what it reads as. *)
Lemma digits_zeros (k : nat) (len : N) (s : string) :
  exists len', JSON.digits 0 len (JSON.zeros k +:+ s) = JSON.digits 0 len' s.
Proof.
  revert len. induction k as [|k IH]; intros len; [now exists len|].
  cbn [JSON.zeros]. rewrite append_cons, digits_step by reflexivity.
  change (10 * 0 + JSON.digitVal (JSON.chr 48)) with 0. apply IH.
Qed.

(** The text of an integer that is not negative reads as the integer. *)
Lemma digits_toString (n : Z) (len : N) :
  0 <= n ->
  exists len', JSON.digits 0 len (JsNumber.toString n +:+ "") = (n, len', "").
Proof.
  intros Hn. unfold JsNumber.toString.
  destruct n as [|p|p]; [| |lia]; cbn [Z.to_int NilZero.string_of_int].
  - eexists. reflexivity.
  - pose proof (to_uint_NonzeroHead p) as Hu.
    replace (NilZero.string_of_uint (Pos.to_uint p))
      with (NilEmpty.string_of_uint (Pos.to_uint p))
      by (now destruct (Pos.to_uint p)).
    assert (H : forall u acc l,
               exists l',
                 JSON.digits (Z.pos acc) l (NilEmpty.string_of_uint u +:+ "")
                 = (Z.pos (Pos.of_uint_acc u acc), l', "")).
    { intros u acc l. apply digits_of_uint_acc. exact I. }
    destruct (Pos.to_uint p) as [|u|u|u|u|u|u|u|u|u|u] eqn:E; try contradiction;
      cbn [NilEmpty.string_of_uint]; rewrite append_cons, digits_step by reflexivity;
      match goal with
      | |- context [JSON.digits ?a ?l _] =>
          let q := eval vm_compute in a in
          match q with
          | Z.pos ?acc =>
              change a with (Z.pos acc);
              destruct (H u acc l) as [l' ->]; exists l'; f_equal; f_equal;
              pose proof (DecimalPos.Unsigned.of_to p) as Hof;
              rewrite E in Hof; cbn [Pos.of_uint] in Hof;
              injection Hof as Hof; now rewrite <- Hof
          end
      end.
Qed.

(** The padded number of a payload whose id is a safe integer, as the ids
    of a JSON body of the API are: the id in decimal, with zeros before it
    up to three characters and never cut.  For an id from 0 to 999 that is
    the three decimal digits of the id, hundreds, tens and units.  The
    number tells the id: two payloads whose ids are safe integers and not
    negative get the same number only when they have the same id. *)
Theorem number_is_the_padded_id :
  (forall data,
      SafeInteger (Payload.id data) ->
      let number := Pokemon.number (transformPokemonData data) in
      let text := JsNumber.toString (Payload.id data) in
      number = JSON.zeros (3 - String.length text) +:+ text
      /\ String.length number = Nat.max 3 (String.length text)
      /\ (0 <= Payload.id data <= 999 ->
          number
          = String (JSON.chr (48 + Z.to_N (Payload.id data / 100)))
              (String (JSON.chr (48 + Z.to_N (Payload.id data / 10 mod 10)))
                 (String (JSON.chr (48 + Z.to_N (Payload.id data mod 10))) ""))))
  /\ (forall data1 data2,
         SafeInteger (Payload.id data1) -> SafeInteger (Payload.id data2) ->
         0 <= Payload.id data1 -> 0 <= Payload.id data2 ->
         Pokemon.number (transformPokemonData data1)
         = Pokemon.number (transformPokemonData data2) ->
         Payload.id data1 = Payload.id data2).
Proof.
  assert (Hnum : forall data,
             Pokemon.number (transformPokemonData data)
             = JSON.zeros (3 - String.length (JsNumber.toString (Payload.id data)))
               +:+ JsNumber.toString (Payload.id data)).
  { intros data. cbn [transformPokemonData Pokemon.number]. apply padStart_zeros. }
  assert (Hlen : forall data,
             String.length (Pokemon.number (transformPokemonData data))
             = Nat.max 3 (String.length (JsNumber.toString (Payload.id data)))).
  { intros data. rewrite Hnum, length_append, length_zeros. lia. }
  assert (Hread : forall data,
             0 <= Payload.id data ->
             fst (fst (JSON.digits 0 0 (Pokemon.number (transformPokemonData data) +:+ "")))
             = Payload.id data).
  { intros data Hid. rewrite Hnum, append_assoc.
    destruct (digits_zeros (3 - String.length (JsNumber.toString (Payload.id data))) 0
                (JsNumber.toString (Payload.id data) +:+ "")) as [len' ->].
    destruct (digits_toString (Payload.id data) len' Hid) as [len'' ->]. reflexivity. }
  split.
  - intros data _. cbv zeta. split; [apply Hnum|]. split; [apply Hlen|].
    intros Hid. cbn [transformPokemonData Pokemon.number].
    assert (Hall : forallb
                     (fun n =>
                        String.eqb
                          (JsString.padStart 3 "0" (JsNumber.toString n))
                          (String (JSON.chr (48 + Z.to_N (n / 100)))
                             (String (JSON.chr (48 + Z.to_N (n / 10 mod 10)))
                                (String (JSON.chr (48 + Z.to_N (n mod 10))) ""))))
                     (seqZ 0 1000) = true) by (vm_compute; reflexivity).
    rewrite forallb_forall in Hall.
    apply String.eqb_eq, Hall, list_elem_of_In, elem_of_seqZ. lia.
  - intros data1 data2 _ _ H1 H2 E.
    rewrite <- (Hread data1 H1), <- (Hread data2 H2). now rewrite E.
Qed.

(** Lowering the case of a capitalized text gives the text in lower
    case. *)
Lemma lowerChar_upperChar (c : ascii) :
  JsString.lowerChar (JsString.upperChar c) = JsString.lowerChar c.
Proof. destruct c as [[] [] [] [] [] [] [] []]; reflexivity. Qed.

Lemma toLowerCase_capitalizeFirstLetter (s : string) :
  JsString.toLowerCase (capitalizeFirstLetter s) = JsString.toLowerCase s.
Proof.
  destruct s as [|c r]; [reflexivity|].
  unfold capitalizeFirstLetter.
  cbn [JsString.charAt0 JsString.slice1 JsString.toUpperCase].
  rewrite append_cons, append_nil. cbn [JsString.toLowerCase].
  now rewrite lowerChar_upperChar.
Qed.

(** For a payload whose name is ASCII in lower case, as the API serves
    them, the display name in lower case is the name again: the search
    finds the record by its name or by its padded number, and the test of
    the display name adds no match. *)
Theorem search_matches_name_or_number (data : Payload.t) (text : string) :
  isAscii (Payload.name data) = true ->
  JsString.toLowerCase (Payload.name data) = Payload.name data ->
  JsString.toLowerCase (Pokemon.displayName (transformPokemonData data))
  = Payload.name data
  /\ (MatchesSearch text (transformPokemonData data) <->
      JsString.Substring text (Payload.name data)
      \/ JsString.Substring text (Pokemon.number (transformPokemonData data))).
Proof.
  intros _ Hlow.
  assert (Hd : JsString.toLowerCase (Pokemon.displayName (transformPokemonData data))
               = Payload.name data).
  { cbn [transformPokemonData Pokemon.displayName].
    now rewrite toLowerCase_capitalizeFirstLetter. }
  split; [exact Hd|].
  unfold MatchesSearch. rewrite Hd.
  change (Pokemon.name (transformPokemonData data)) with (Payload.name data).
  tauto.
Qed.

End TransformFacts.

(* ===================================================================== *)
(** * Properties of the description *)
(* ===================================================================== *)

Section DescriptionFacts.

Lemma replaceFormFeeds_length (text : string) :
  String.length (replaceFormFeeds text) = String.length text.
Proof. induction text as [|c r IH]; [reflexivity|]. cbn. now rewrite IH. Qed.

Lemma replaceFormFeeds_clean (text : string) : ~ HasFormFeed (replaceFormFeeds text).
Proof.
  unfold HasFormFeed. induction text as [|c r IH]; [intros []|].
  cbn [replaceFormFeeds list_ascii_of_string In]. intros [H|H]; [|now apply IH].
  destruct (N.eqb_spec (N_of_ascii c) 12) as [E|E]; [discriminate|].
  apply E. rewrite H. reflexivity.
Qed.

Lemma replaceFormFeeds_id (text : string) :
  ~ HasFormFeed text -> replaceFormFeeds text = text.
Proof.
  unfold HasFormFeed. induction text as [|c r IH]; [reflexivity|].
  cbn [replaceFormFeeds list_ascii_of_string In]. intros H.
  rewrite IH by tauto. f_equal.
  destruct (N.eqb_spec (N_of_ascii c) 12) as [E|E]; [|reflexivity].
  exfalso. apply H. left. rewrite <- E. symmetry. apply ascii_N_embedding.
Qed.

(** The code of a character is 12 exactly when it is the form feed. *)
Lemma formFeed_eqb (c : ascii) :
  (N_of_ascii c =? 12)%N = Ascii.eqb c (ascii_of_N 12).
Proof.
  destruct (Ascii.eqb_spec c (ascii_of_N 12)) as [->|Hne]; [reflexivity|].
  apply N.eqb_neq. intros E. apply Hne. rewrite <- E. symmetry.
  apply ascii_N_embedding.
Qed.

(** Character by character: a space where the text has a form feed, the
    character of the text anywhere else. *)
Lemma replaceFormFeeds_get (text : string) (i : nat) :
  String.get i (replaceFormFeeds text)
  = match String.get i text with
    | Some c => Some (if Ascii.eqb c (ascii_of_N 12) then " "%char else c)
    | None => None
    end.
Proof.
  revert i. induction text as [|c r IH]; intros i; [reflexivity|].
  cbn [replaceFormFeeds]. destruct i as [|i]; cbn [String.get].
  - now rewrite formFeed_eqb.
  - apply IH.
Qed.

Lemma replaceFormFeeds_append (a b : string) :
  replaceFormFeeds (a +:+ b) = replaceFormFeeds a +:+ replaceFormFeeds b.
Proof.
  induction a as [|c r IH]; [reflexivity|].
  rewrite append_cons. cbn [replaceFormFeeds]. now rewrite append_cons, IH.
Qed.

Lemma replaceFormFeeds_at (before after : string) :
  replaceFormFeeds (before +:+ String (ascii_of_N 12) after)
  = replaceFormFeeds before +:+ String " "%char (replaceFormFeeds after).
Proof. now rewrite replaceFormFeeds_append. Qed.

Lemma find_first {A : Type} (f : A -> bool) (before : list A) (x : A) (after : list A) :
  (forall y, In y before -> f y = false) -> f x = true ->
  List.find f (before ++ x :: after) = Some x.
Proof.
  intros Hb Hx. induction before as [|y r IH]; cbn [app List.find].
  - now rewrite Hx.
  - rewrite (Hb y) by (now left). apply IH. intros z Hz. apply Hb. now right.
Qed.

Lemma find_none {A : Type} (f : A -> bool) (l : list A) :
  (forall y, In y l -> f y = false) -> List.find f l = None.
Proof.
  intros H. induction l as [|y r IH]; [reflexivity|]. cbn [List.find].
  rewrite (H y) by (now left). apply IH. intros z Hz. apply H. now right.
Qed.

(** The description of a species is the text of the first entry whose
    language is ["en"], with a space for every form feed: at every place
    it has a space where the text has a form feed and the character of the
    text anywhere else, so that it is as long as the text and free of form
    feeds, and the text itself when that has none.  It is [null] when the
    body has no entries or none in English.  The modal shows the
    description, or its stand-in when there is none or an empty one: what
    it shows is never empty and has no form feed. *)
Theorem description_is_the_first_english_entry :
  (forall speciesData,
      Species.flavor_text_entries speciesData = None ->
      getEnglishDescription speciesData = None)
  /\ (forall speciesData entries,
         Species.flavor_text_entries speciesData = Some entries ->
         (forall entry,
             In entry entries -> Resource.name (Species.language entry) <> "en") ->
         getEnglishDescription speciesData = None)
  /\ (forall speciesData before entry after,
         Species.flavor_text_entries speciesData = Some (before ++ entry :: after) ->
         (forall e, In e before -> Resource.name (Species.language e) <> "en") ->
         Resource.name (Species.language entry) = "en" ->
         getEnglishDescription speciesData
         = Some (replaceFormFeeds (Species.flavor_text entry)))
  /\ (forall text,
         (forall i,
             String.get i (replaceFormFeeds text)
             = match String.get i text with
               | Some c => Some (if Ascii.eqb c (ascii_of_N 12) then " "%char else c)
               | None => None
               end)
         /\ (forall before after,
                replaceFormFeeds (before +:+ String (ascii_of_N 12) after)
                = replaceFormFeeds before +:+ String " "%char (replaceFormFeeds after))
         /\ String.length (replaceFormFeeds text) = String.length text
         /\ ~ HasFormFeed (replaceFormFeeds text)
         /\ (~ HasFormFeed text -> replaceFormFeeds text = text))
  /\ (forall st pokemon speciesData,
         let shown := Modal.description (createModalContent st pokemon speciesData) in
         shown <> "" /\ ~ HasFormFeed shown).
Proof.
  split; [|split; [|split; [|split]]].
  - intros speciesData H. unfold getEnglishDescription. now rewrite H.
  - intros speciesData entries H Hno. unfold getEnglishDescription. rewrite H.
    rewrite find_none; [reflexivity|].
    intros e He. apply String.eqb_neq. now apply Hno.
  - intros speciesData before entry after H Hb He. unfold getEnglishDescription.
    rewrite H. rewrite (find_first _ before entry after); [reflexivity | |].
    + intros e Hin. apply String.eqb_neq. now apply Hb.
    + now apply String.eqb_eq.
  - intros text. split; [apply replaceFormFeeds_get|].
    split; [apply replaceFormFeeds_at|]. split; [apply replaceFormFeeds_length|].
    split; [apply replaceFormFeeds_clean | apply replaceFormFeeds_id].
  - intros st pokemon speciesData. cbv zeta.
    unfold createModalContent. cbn [Modal.description].
    assert (Hdef : "No description available." <> ""
                   /\ ~ HasFormFeed "No description available.").
    { split; [discriminate|]. unfold HasFormFeed. cbn. intuition discriminate. }
    unfold getEnglishDescription.
    destruct (match Species.flavor_text_entries speciesData with
              | Some entries => List.find _ entries
              | None => None
              end) as [entry|]; [|exact Hdef].
    destruct (replaceFormFeeds (Species.flavor_text entry)) as [|c r] eqn:E;
      [exact Hdef|].
    cbn [JsString.truthy]. split; [discriminate|].
    rewrite <- E. apply replaceFormFeeds_clean.
Qed.

End DescriptionFacts.

(* ===================================================================== *)
(** * Properties of the detail modal *)
(* ===================================================================== *)

Section ModalFacts.

Variable localeCompare : string -> string -> Z.

Lemma lookup_last_request (l : list Request) (rq : Request) :
  (l ++ [rq]) !! length l = Some rq.
Proof. induction l as [|x r IH]; [reflexivity | exact IH]. Qed.

Lemma without_last_request (l : list Request) (rq : Request) :
  take (length l) (l ++ [rq]) ++ drop (S (length l)) (l ++ [rq]) = l.
Proof.
  induction l as [|x r IH]; [reflexivity|].
  cbn [length app take drop]. cbn [app]. f_equal. exact IH.
Qed.

Lemma lookup_request_before (l : list Request) (a b : Request) :
  (l ++ [a; b]) !! length l = Some a.
Proof. induction l as [|x r IH]; [reflexivity | exact IH]. Qed.

Lemma lookup_request_after (l : list Request) (a b : Request) :
  (l ++ [a; b]) !! S (length l) = Some b.
Proof. induction l as [|x r IH]; [reflexivity | exact IH]. Qed.

Lemma without_request_after (l : list Request) (a b : Request) :
  take (S (length l)) (l ++ [a; b]) ++ drop (S (S (length l))) (l ++ [a; b]) = l ++ [a].
Proof.
  induction l as [|x r IH]; [reflexivity|].
  cbn [length app take drop]. cbn [app]. f_equal. exact IH.
Qed.

(** The settling of the last request, and of the last but one. *)
Lemma settle_last (st : State) (m : Modal.t) (l : list Request) (rq : Request)
    (outcome : JsError + Species.t) :
  pageHandle localeCompare (SpeciesSettled (length l) outcome) (mkPage st m (l ++ [rq]))
  = (inr JUndefined, showPokemonDetailsResume rq outcome (mkPage st m l)).
Proof.
  cbn [pageHandle pending]. rewrite lookup_last_request.
  unfold withPending. cbn [pending master modal]. now rewrite without_last_request.
Qed.

Lemma settle_after (st : State) (m : Modal.t) (l : list Request) (a b : Request)
    (outcome : JsError + Species.t) :
  pageHandle localeCompare (SpeciesSettled (S (length l)) outcome)
    (mkPage st m (l ++ [a; b]))
  = (inr JUndefined, showPokemonDetailsResume b outcome (mkPage st m (l ++ [a]))).
Proof.
  cbn [pageHandle pending]. rewrite lookup_request_after.
  unfold withPending. cbn [pending master modal]. now rewrite without_request_after.
Qed.

Lemma showPokemonDetailsResume_species (rq : Request) (speciesData : Species.t)
    (st : State) (m : Modal.t) (l : list Request) :
  showPokemonDetailsResume rq (inr speciesData) (mkPage st m l)
  = mkPage st
      (Modal.mk (Modal.show m) (Modal.modalName m)
         (Modal.Details (createModalContent st (requestPokemon rq) speciesData)
            (requestId rq)))
      l.
Proof. reflexivity. Qed.

(** The call that finds a record: what it writes. *)
Lemma showPokemonDetails_found (pokemonId : Z) (pg : Page) (p : Pokemon.t) :
  List.find (fun q => Pokemon.id q =? pokemonId) (pokemon (master pg)) = Some p ->
  showPokemonDetails pokemonId pg
  = mkPage (master pg) (Modal.mk true (Pokemon.displayName p) Modal.Loading)
      (pending pg ++ [mkRequest p pokemonId]).
Proof. intros H. unfold showPokemonDetails. now rewrite H. Qed.

(** A click on a card whose id no record has does nothing.  A click on
    the card of a record opens the modal under the record's display name,
    with the spinner, and sends a request; when the request comes back
    with the species, the body shows the details of the record, with the
    favourite flag of that moment and the description, and the favourite
    button holds the id; when it fails, the body shows the failure and the
    exception is on the console.  In both cases the request is no longer
    in flight, and the modal is open under the same name. *)
Theorem details_open_then_settle (pokemonId : Z) (pg : Page) :
  (List.find (fun q => Pokemon.id q =? pokemonId) (pokemon (master pg)) = None ->
   pageHandle localeCompare (CardClick pokemonId) pg = (inr JUndefined, pg))
  /\ (forall p outcome,
         List.find (fun q => Pokemon.id q =? pokemonId) (pokemon (master pg)) = Some p ->
         let pg1 := snd (pageHandle localeCompare (CardClick pokemonId) pg) in
         let pg2 :=
           snd (pageHandle localeCompare
                  (SpeciesSettled (length (pending pg)) outcome) pg1) in
         Pokemon.id p = pokemonId
         /\ modal pg1 = Modal.mk true (Pokemon.displayName p) Modal.Loading
         /\ pending pg1 = pending pg ++ [mkRequest p pokemonId]
         /\ master pg1 = master pg
         /\ pending pg2 = pending pg
         /\ Modal.show (modal pg2) = true
         /\ Modal.modalName (modal pg2) = Pokemon.displayName p
         /\ match outcome with
            | inr speciesData =>
                Modal.modalBody (modal pg2)
                = Modal.Details (createModalContent (master pg) p speciesData) pokemonId
                /\ Modal.about (createModalContent (master pg) p speciesData) = p
                /\ Modal.favorite (createModalContent (master pg) p speciesData)
                   = JsSet.has (favorites (master pg)) (JInt pokemonId)
                /\ master pg2 = master pg
            | inl error =>
                Modal.modalBody (modal pg2) = Modal.Failed
                /\ master pg2
                   = consoleWrite (ConsoleError "Error loading Pokémon details:" error)
                       (master pg)
            end).
Proof.
  split.
  - intros H. cbn [pageHandle]. unfold showPokemonDetails. now rewrite H.
  - intros p outcome H. cbv zeta.
    change (snd (pageHandle localeCompare (CardClick pokemonId) pg))
      with (showPokemonDetails pokemonId pg).
    rewrite (showPokemonDetails_found _ _ _ H).
    assert (Hid : Pokemon.id p = pokemonId).
    { apply List.find_some in H as [_ H]. now apply Z.eqb_eq in H. }
    rewrite settle_last. cbn [snd].
    split; [exact Hid|]. split; [reflexivity|]. split; [reflexivity|].
    split; [reflexivity|].
    destruct outcome as [error|speciesData]; cbn; repeat split.
    now rewrite Hid.
Qed.

(** A response is written into the body whatever the modal shows by
    then.  When the details of one record are asked for, then those of
    another, and the first response comes last, the modal ends under the
    name of the second record with the details of the first.  When the
    modal is closed before the response comes, the response fills the body
    of the closed modal and does not open it. *)
Theorem late_response_is_written (pg : Page) (a b : Pokemon.t)
    (speciesA speciesB : Species.t) :
  List.find (fun q => Pokemon.id q =? Pokemon.id a) (pokemon (master pg)) = Some a ->
  List.find (fun q => Pokemon.id q =? Pokemon.id b) (pokemon (master pg)) = Some b ->
  let n := length (pending pg) in
  let crossed :=
    pageRun localeCompare
      [CardClick (Pokemon.id a); CardClick (Pokemon.id b);
       SpeciesSettled (S n) (inr speciesB); SpeciesSettled n (inr speciesA)] pg in
  let closed :=
    pageRun localeCompare
      [CardClick (Pokemon.id a); EscapeKey; SpeciesSettled n (inr speciesA)] pg in
  (Modal.show (modal crossed) = true
   /\ Modal.modalName (modal crossed) = Pokemon.displayName b
   /\ Modal.modalBody (modal crossed)
      = Modal.Details (createModalContent (master pg) a speciesA) (Pokemon.id a)
   /\ pending crossed = pending pg)
  /\ (Modal.show (modal closed) = false
      /\ Modal.modalBody (modal closed)
         = Modal.Details (createModalContent (master pg) a speciesA) (Pokemon.id a)
      /\ pending closed = pending pg).
Proof.
  intros Ha Hb. cbv zeta. unfold pageRun. cbn [fold_left].
  change (snd (pageHandle localeCompare (CardClick (Pokemon.id a)) pg))
    with (showPokemonDetails (Pokemon.id a) pg).
  rewrite (showPokemonDetails_found _ _ _ Ha).
  split.
  - change (snd (pageHandle localeCompare (CardClick ?i) ?q))
      with (showPokemonDetails i q).
    rewrite (showPokemonDetails_found _ _ b) by exact Hb. cbn [pending master modal].
    rewrite <- app_assoc. cbn [app].
    rewrite settle_after. cbn [snd]. rewrite showPokemonDetailsResume_species.
    rewrite settle_last. cbn [snd]. rewrite showPokemonDetailsResume_species.
    repeat split.
  - change (snd (pageHandle localeCompare EscapeKey ?q)) with (closeModal q).
    unfold closeModal, withModal. cbn [pending master modal].
    rewrite settle_last. cbn [snd]. rewrite showPokemonDetailsResume_species.
    repeat split.
Qed.

Lemma modalFavoriteClick_details (pg : Page) (content : Modal.Content) (pokemonId : Z) :
  Modal.modalBody (modal pg) = Modal.Details content pokemonId ->
  pageHandle localeCompare ModalFavoriteClick pg = modalFavoriteListener localeCompare pokemonId pg.
Proof. intros H. cbn [pageHandle]. now rewrite H. Qed.

(** The favourite button of the details.  When [toggleFavorite] returns,
    the membership of the id is inverted, and the modal is open again on
    the same record with the spinner and a new request in flight; when
    that request comes back with the species the details show the new
    membership.  When [toggleFavorite] throws, the modal and the requests
    in flight are as they were.  Without details in the body there is no
    such button, and nothing happens. *)
Theorem modal_favorite_button (pg : Page) :
  (forall content pokemonId p,
      Modal.modalBody (modal pg) = Modal.Details content pokemonId ->
      List.find (fun q => Pokemon.id q =? pokemonId) (pokemon (master pg)) = Some p ->
      let member := JsSet.has (favorites (master pg)) (JInt pokemonId) in
      let r := pageHandle localeCompare ModalFavoriteClick pg in
      (forall speciesData,
          fst r = inr JUndefined ->
          JsSet.has (favorites (master (snd r))) (JInt pokemonId) = negb member
          /\ modal (snd r) = Modal.mk true (Pokemon.displayName p) Modal.Loading
          /\ pending (snd r) = pending pg ++ [mkRequest p pokemonId]
          /\ exists shown,
               Modal.modalBody
                 (modal
                    (snd (pageHandle localeCompare
                            (SpeciesSettled (length (pending pg)) (inr speciesData))
                            (snd r))))
               = Modal.Details (Modal.mkContent p (negb member) shown) pokemonId)
      /\ (forall error,
             fst r = inl error ->
             modal (snd r) = modal pg /\ pending (snd r) = pending pg)
      /\ (Forall Typed (pokemon (master pg)) -> fst r = inr JUndefined))
  /\ ((forall content pokemonId,
          Modal.modalBody (modal pg) <> Modal.Details content pokemonId) ->
      pageHandle localeCompare ModalFavoriteClick pg = (inr JUndefined, pg)).
Proof.
  split.
  - intros content pokemonId p Hbody Hfind. cbv zeta.
    rewrite (modalFavoriteClick_details pg content pokemonId Hbody).
    unfold modalFavoriteListener.
    pose proof (toggleFavorite_effect localeCompare pokemonId (master pg))
      as (F & _ & _ & _ & P & R).
    cbv zeta in F, P, R.
    assert (Hm : JsSet.has
                   (favorites (snd (toggleFavorite localeCompare pokemonId (master pg))))
                   (JInt pokemonId)
                 = negb (JsSet.has (favorites (master pg)) (JInt pokemonId))).
    { rewrite F.
      destruct (JsSet.has (favorites (master pg)) (JInt pokemonId)) eqn:E; cbn [negb].
      - apply has_delete.
      - apply has_add_int. }
    destruct (toggleFavorite localeCompare pokemonId (master pg)) as [[e|w] st] eqn:E;
      cbn [fst snd] in *.
    + split; [intros ? Hr; discriminate|]. split; [intros error _; now split|].
      intros Hall. destruct R as [R|(e' & _ & q & Hq & Ht)]; [discriminate|].
      rewrite List.Forall_forall in Hall. now destruct (Hall q Hq).
    + assert (Hfind' : List.find (fun q => Pokemon.id q =? pokemonId)
                         (pokemon (master (closeModal (withMaster st pg))))
                       = Some p).
      { cbn [closeModal withModal withMaster master]. now rewrite P. }
      rewrite (showPokemonDetails_found _ _ _ Hfind').
      assert (Hid : Pokemon.id p = pokemonId).
      { apply List.find_some in Hfind as [_ H]. now apply Z.eqb_eq in H. }
      split; [|split; [intros error Hr; discriminate | reflexivity]].
      intros speciesData _. cbn [master modal pending closeModal withModal withMaster].
      split; [exact Hm|]. split; [reflexivity|]. split; [reflexivity|].
      rewrite settle_last. cbn [snd]. rewrite showPokemonDetailsResume_species.
      unfold createModalContent. cbn [requestPokemon requestId modal Modal.modalBody].
      rewrite Hid, Hm. eexists. reflexivity.
  - intros Hno. cbn [pageHandle].
    destruct (Modal.modalBody (modal pg)) as [| |content pokemonId|] eqn:E;
      try reflexivity.
    now destruct (Hno content pokemonId).
Qed.

End ModalFacts.

(* ===================================================================== *)
(** * The sort by name and by type *)
(* ===================================================================== *)

Section CollationFacts.

Context {A : Type} (compare : string -> string -> Z) (key : A -> string).

Hypothesis compare_consistent : Consistent compare.

Local Abbreviation before := (fun a b : A => compare (key a) (key b) <= 0).

Lemma insert_collated (x : A) (l : list A) :
  StronglySorted before l ->
  exists l',
    JsArray.insert (fun a b => inr (compare (key a) (key b))) x l = inr l'
    /\ StronglySorted before l'.
Proof.
  destruct compare_consistent as [Hanti Htrans].
  induction l as [|y r IH]; intros Hs; cbn [JsArray.insert].
  - eexists. split; [reflexivity|]. repeat constructor.
  - apply StronglySorted_inv in Hs as [Hr Hy].
    destruct (Z.ltb_spec (compare (key x) (key y)) 0) as [Hlt|Hge].
    + eexists. split; [reflexivity|]. constructor; [now constructor|].
      constructor; [lia|]. eapply List.Forall_impl; [|exact Hy]. cbn.
      intros z Hz. apply (Htrans _ (key y)); [lia | exact Hz].
    + destruct (IH Hr) as (r' & E & Hr'). rewrite E.
      eexists. split; [reflexivity|]. constructor; [exact Hr'|].
      apply insert_Permutation in E. rewrite <- E.
      constructor; [now apply Hanti | exact Hy].
Qed.

(** With a consistent collation the sort by a text returns, and returns
    the elements in the order of the collation. *)
Lemma sort_collated (l : list A) :
  exists l',
    JsArray.sort (fun a b => inr (compare (key a) (key b))) l = inr l'
    /\ StronglySorted before l'
    /\ Permutation l l'.
Proof.
  unfold JsArray.sort.
  assert (H : forall sorted,
             StronglySorted before sorted ->
             exists l',
               JsArray.sortInto (fun a b => inr (compare (key a) (key b))) sorted l
               = inr l'
               /\ StronglySorted before l').
  { induction l as [|x r IH]; intros sorted Hs; cbn [JsArray.sortInto].
    - eauto.
    - destruct (insert_collated x sorted Hs) as (s' & -> & Hs'). now apply IH. }
  destruct (H [] ltac:(constructor)) as (l' & E & Hs).
  exists l'. split; [exact E|]. split; [exact Hs|].
  now apply sortInto_Permutation in E.
Qed.

End CollationFacts.

Section ComparatorFacts.

Context {A : Type} (f g : A -> A -> JsError + Z).

(** Two comparators that agree whenever an element of the array is their
    first argument sort the array alike. *)
Lemma insert_ext (x : A) (sorted : list A) :
  (forall b, f x b = g x b) ->
  JsArray.insert f x sorted = JsArray.insert g x sorted.
Proof.
  intros H. induction sorted as [|y r IH]; [reflexivity|].
  cbn [JsArray.insert]. now rewrite H, IH.
Qed.

Lemma sortInto_ext (sorted l : list A) :
  (forall a b, In a l -> f a b = g a b) ->
  JsArray.sortInto f sorted l = JsArray.sortInto g sorted l.
Proof.
  revert sorted. induction l as [|x r IH]; intros sorted H; [reflexivity|].
  cbn [JsArray.sortInto]. rewrite (insert_ext x sorted) by (intros b; apply H; now left).
  destruct (JsArray.insert g x sorted); [reflexivity|].
  apply IH. intros a b Ha. apply H. now right.
Qed.

End ComparatorFacts.

Section NameOrderFacts.

Variable localeCompare : string -> string -> Z.

Lemma compareFn_type_typed (a b : Pokemon.t) :
  Typed a ->
  compareFn localeCompare "type" a b = inr (localeCompare (mainType a) (mainType b)).
Proof.
  unfold Typed, compareFn, mainType. intros Ha. cbn [String.eqb Ascii.eqb Bool.eqb].
  destruct (Pokemon.types a); [now destruct Ha | reflexivity].
Qed.

(** With a consistent collation, [applyFilters] under the sort key
    ["name"] returns and leaves the selected records in the order of their
    display names; under the sort key ["type"], when every record has a
    type, it returns and leaves them in the order of their first types.
    No record is lost or added by the sort. *)
Theorem filtered_set_sorted_by_name_or_type (st : State) :
  Consistent localeCompare ->
  (Filters.sort (currentFilters st) = "name" ->
   exists st',
     applyFilters localeCompare st = (inr JUndefined, st')
     /\ StronglySorted
          (fun a b => localeCompare (Pokemon.displayName a) (Pokemon.displayName b) <= 0)
          (filteredPokemon st')
     /\ Permutation (selected (pokemon st) (currentFilters st) (favorites st))
          (filteredPokemon st'))
  /\ (Filters.sort (currentFilters st) = "type" ->
      Forall Typed (pokemon st) ->
      exists st',
        applyFilters localeCompare st = (inr JUndefined, st')
        /\ StronglySorted (fun a b => localeCompare (mainType a) (mainType b) <= 0)
             (filteredPokemon st')
        /\ Permutation (selected (pokemon st) (currentFilters st) (favorites st))
             (filteredPokemon st')).
Proof.
  intros Hc. split.
  - intros Hk.
    destruct (sort_collated localeCompare Pokemon.displayName Hc
                (selected (pokemon st) (currentFilters st) (favorites st)))
      as (l & E & Hs & Hp).
    assert (R : recompute localeCompare (pokemon st) (currentFilters st) (favorites st)
                = inr l).
    { unfold recompute. rewrite Hk. exact E. }
    rewrite (applyFilters_returns _ _ _ R). eexists. split; [reflexivity|].
    split; [exact Hs | exact Hp].
  - intros Hk Hall.
    destruct (sort_collated localeCompare mainType Hc
                (selected (pokemon st) (currentFilters st) (favorites st)))
      as (l & E & Hs & Hp).
    assert (R : recompute localeCompare (pokemon st) (currentFilters st) (favorites st)
                = inr l).
    { unfold recompute, JsArray.sort. rewrite Hk.
      rewrite (sortInto_ext _ (fun a b => inr (localeCompare (mainType a) (mainType b))));
        [exact E|].
      intros a b Ha. apply compareFn_type_typed.
      rewrite List.Forall_forall in Hall. apply Hall.
      apply selected_In in Ha as [Ha _]. now apply searchFilter_In in Ha. }
    rewrite (applyFilters_returns _ _ _ R). eexists. split; [reflexivity|].
    split; [exact Hs | exact Hp].
Qed.

End NameOrderFacts.

(** The order of the code units is a consistent collation. *)
Lemma compare_le_trans (a b c : string) :
  String.compare a b <> Gt -> String.compare b c <> Gt -> String.compare a c <> Gt.
Proof.
  revert b c. induction a as [|x a IH]; intros [|y b] [|z c]; cbn [String.compare];
    try congruence.
  unfold Ascii.compare.
  destruct (N.compare_spec (N_of_ascii x) (N_of_ascii y)) as [Exy|Lxy|Gxy];
    destruct (N.compare_spec (N_of_ascii y) (N_of_ascii z)) as [Eyz|Lyz|Gyz];
    destruct (N.compare_spec (N_of_ascii x) (N_of_ascii z)) as [Exz|Lxz|Gxz];
    try congruence; try lia.
  apply IH.
Qed.

Lemma codeUnitCompare_consistent : Consistent codeUnitCompare.
Proof.
  unfold Consistent, codeUnitCompare. split.
  - intros a b. rewrite (String.compare_antisym b a).
    destruct (String.compare a b); cbn [CompOpp]; lia.
  - intros a b c Hab Hbc.
    assert (H : String.compare a c <> Gt).
    { apply (compare_le_trans a b c).
      - destruct (String.compare a b); [discriminate..|lia].
      - destruct (String.compare b c); [discriminate..|lia]. }
    destruct (String.compare a c); [lia..|congruence].
Qed.

(* ===================================================================== *)
(** * The favourites as a set *)
(* ===================================================================== *)

Section DistinctFacts.

Variable localeCompare : string -> string -> Z.

Lemma sameValueZero_sym (x y : JsValue) : sameValueZero x y = sameValueZero y x.
Proof.
  destruct x, y; cbn [sameValueZero]; try reflexivity.
  - now destruct b, b0.
  - now rewrite (Z.eqb_sym m), (N.eqb_sym scale).
  - apply String.eqb_sym.
Qed.

Lemma distinct_add (s : JsSet.t) (v : JsValue) :
  distinct s = true -> distinct (JsSet.add s v) = true.
Proof.
  unfold JsSet.add. destruct (JsSet.has s v) eqn:E; [trivial|].
  unfold JsSet.has in E. induction s as [|x r IH]; [reflexivity|].
  cbn [existsb] in E. apply orb_false_iff in E as [E1 E2].
  cbn [app distinct]. rewrite !andb_true_iff, !negb_true_iff.
  intros [H1 H2]. split; [|now apply IH].
  rewrite existsb_app, H1. cbn [existsb]. now rewrite sameValueZero_sym, E1.
Qed.

Lemma existsb_filter_false {A : Type} (f g : A -> bool) (l : list A) :
  existsb f l = false -> existsb f (List.filter g l) = false.
Proof.
  induction l as [|x r IH]; [trivial|]. cbn [existsb List.filter].
  intros H. apply orb_false_iff in H as [H1 H2].
  destruct (g x); cbn [existsb]; [rewrite H1|]; now apply IH.
Qed.

Lemma distinct_delete (s : JsSet.t) (v : JsValue) :
  distinct s = true -> distinct (JsSet.delete s v) = true.
Proof.
  unfold JsSet.delete. induction s as [|x r IH]; [trivial|].
  cbn [distinct List.filter]. rewrite andb_true_iff, negb_true_iff. intros [H1 H2].
  destruct (negb (sameValueZero v x)); [|now apply IH].
  cbn [distinct]. rewrite andb_true_iff, negb_true_iff.
  split; [now apply existsb_filter_false | now apply IH].
Qed.

Lemma distinct_fold_add (items : list JsValue) (s : JsSet.t) :
  distinct s = true -> distinct (fold_left JsSet.add items s) = true.
Proof.
  revert s. induction items as [|v r IH]; intros s H; [exact H|].
  cbn [fold_left]. now apply IH, distinct_add.
Qed.

Lemma distinct_ofIterable (v : JsValue) (s : JsSet.t) :
  JsSet.ofIterable v = inr s -> distinct s = true.
Proof.
  destruct v; cbn [JsSet.ofIterable]; intros H; try discriminate;
    injection H as <-; try reflexivity; now apply distinct_fold_add.
Qed.

(** Every listener keeps the favourites free of repetition. *)
Lemma handle_distinct (ev : Event) (st : State) :
  distinct (favorites st) = true ->
  distinct (favorites (snd (handle localeCompare ev st))) = true.
Proof.
  intros H.
  destruct (ev) eqn:Hev;
    try (assert (Hne : forall pokemonId, ev <> FavoriteButtonClick pokemonId)
           by (intros ? ->; discriminate);
         pose proof (handle_frame localeCompare ev st) as (_ & _ & K & _);
         cbv zeta in K; destruct (K Hne) as (K1 & _); subst ev; now rewrite K1).
  pose proof (toggleFavorite_effect localeCompare pokemonId st) as (F & _).
  cbv zeta in F. cbn [handle]. rewrite F.
  destruct (JsSet.has (favorites st) (JInt pokemonId));
    [now apply distinct_delete | now apply distinct_add].
Qed.

(** The favourites never hold a value twice: whatever text the store
    holds, a stored array with repeated elements included, the set
    [loadFavorites] leaves on a new controller has no two members that are
    the same value; and every listener keeps it so, whether it returns or
    throws.  So the favourites counter counts each id once. *)
Theorem favorites_stay_distinct :
  (forall store,
      distinct (favorites (snd (loadFavorites (constructor store)))) = true)
  /\ (forall ev st,
         distinct (favorites st) = true ->
         distinct (favorites (snd (handle localeCompare ev st))) = true)
  /\ (forall s v, distinct s = true -> JsSet.has s v = true -> JsSet.add s v = s)
  /\ (forall s n,
         distinct s = true ->
         (length (List.filter (sameValueZero (JInt n)) s) <= 1)%nat).
Proof.
  split; [|split; [|split]].
  - intros store. rewrite loadFavorites_eq.
    destruct (Storage.getItem favoritesKey (localStorage (constructor store)))
      as [e|[text|]]; try reflexivity.
    destruct (JsString.truthy text); [|reflexivity].
    destruct (JSON.parse text) as [e|v]; [reflexivity|].
    destruct (JsSet.ofIterable v) as [e|s] eqn:E; [reflexivity|].
    exact (distinct_ofIterable v s E).
  - intros ev st. apply handle_distinct.
  - intros s v _ H. unfold JsSet.add. now rewrite H.
  - intros s n. induction s as [|x r IH]; [cbn; lia|].
    cbn [distinct List.filter]. rewrite andb_true_iff, negb_true_iff. intros [H1 H2].
    specialize (IH H2).
    destruct (sameValueZero (JInt n) x) eqn:E; [|exact IH].
    cbn [length].
    assert (Hnone : List.filter (sameValueZero (JInt n)) r = []).
    { clear IH H2. induction r as [|y r IH]; [reflexivity|].
      cbn [existsb] in H1. apply orb_false_iff in H1 as [Hy Hr].
      cbn [List.filter].
      destruct (sameValueZero (JInt n) y) eqn:Ey; [|now apply IH].
      exfalso. destruct x, y; cbn [sameValueZero JInt] in *; try discriminate.
      apply andb_true_iff in E as [E1 E2]. apply andb_true_iff in Ey as [Ey1 Ey2].
      apply Z.eqb_eq in E1, Ey1. apply N.eqb_eq in E2, Ey2. subst.
      now rewrite Z.eqb_refl, N.eqb_refl in Hy. }
    rewrite Hnone. cbn. lia.
Qed.

(** In the favourites view, taking a record out of the favourites takes
    it off the filtered set; and putting a record of the catalogue in,
    when it passes the other filters, puts it on. *)
Theorem favorites_view_follows_the_toggle (pokemonId : Z) (st : State) (v : JsValue)
    (st' : State) :
  Filters.showFavorites (currentFilters st) = true ->
  toggleFavorite localeCompare pokemonId st = (inr v, st') ->
  (JsSet.has (favorites st) (JInt pokemonId) = true ->
   forall p, In p (filteredPokemon st') -> Pokemon.id p <> pokemonId)
  /\ (JsSet.has (favorites st) (JInt pokemonId) = false ->
      forall p,
        In p (pokemon st) -> Pokemon.id p = pokemonId ->
        Passes (Filters.withShowFavorites false (currentFilters st)) (favorites st) p ->
        In p (filteredPokemon st')).
Proof.
  intros Hshow H.
  pose proof (toggleFavorite_effect localeCompare pokemonId st) as (F & _ & _ & _ & P & _).
  cbv zeta in F, P. rewrite H in F, P. cbn [snd] in F, P.
  rewrite toggleFavorite_steps in H. cbv zeta in H.
  set (st1 := showNotification _ _ _) in H.
  destruct (saveFavorites_effect st1) as (st2 & R2 & F2 & P2 & C2 & _).
  rewrite R2 in H.
  destruct (applyFilters localeCompare st2) as [[e|w] st3] eqn:E; [discriminate|].
  injection H as _ <-.
  assert (Hin : forall p,
             In p (filteredPokemon st3) <->
             In p (pokemon st2) /\ Passes (currentFilters st2) (favorites st2) p).
  { intros p.
    destruct (applyFilters_cases localeCompare st2) as [(l & R & Q)|(e & _ & Q)];
      rewrite Q in E; [|discriminate].
    injection E as _ <-.
    apply sort_Permutation in R. rewrite selected_filter in R.
    change (filteredPokemon (toggleLoadMore (updateStats (renderPokemon
              (withCurrentPage 1 (withFilteredPokemon l st2)))))) with l.
    rewrite <- passes_spec, <- filter_In. split; intros Hp.
    - now apply (Permutation_in _ (Permutation_sym R)).
    - now apply (Permutation_in _ R). }
  assert (C : currentFilters st2 = currentFilters st) by (rewrite C2; reflexivity).
  assert (P' : pokemon st2 = pokemon st) by (rewrite P2; reflexivity).
  assert (F' : favorites st2 = favorites st3).
  { apply applyFilters_effect in E as (_ & _ & _ & _ & E & _). now rewrite E. }
  split.
  - intros Hm p Hp <-. apply Hin in Hp as (_ & _ & _ & [Hp|Hp]).
    + rewrite C, Hshow in Hp. discriminate.
    + rewrite F', F, Hm in Hp. now rewrite has_delete in Hp.
  - intros Hm p Hp Hid (Hs & Ht & _). apply Hin. rewrite P'. split; [exact Hp|].
    rewrite C. split; [exact Hs|]. split; [exact Ht|]. right.
    rewrite F', F, Hm, Hid. apply has_add_int.
Qed.

End DistinctFacts.

(* ===================================================================== *)
(** * The fields of a record *)
(* ===================================================================== *)

Section RecordFacts.

Lemma find_app {A : Type} (f : A -> bool) (l1 l2 : list A) :
  List.find f (l1 ++ l2)
  = match List.find f l1 with
    | Some x => Some x
    | None => List.find f l2
    end.
Proof.
  induction l1 as [|x r IH]; [reflexivity|]. cbn [app List.find].
  now destruct (f x).
Qed.

(** The object the [reduce] builds holds, under a name, the value of the
    last entry of that name, or what it held before. *)
Lemma fold_stats_lookup (stats : list Payload.StatEntry) (acc : gmap string Z)
    (name : string) :
  fold_left
    (fun acc stat => <[Resource.name (Payload.stat stat) := Payload.base_stat stat]> acc)
    stats acc !! name
  = match lastStat name stats with
    | Some s => Some (Payload.base_stat s)
    | None => acc !! name
    end.
Proof.
  revert acc. induction stats as [|x r IH]; intros acc; [reflexivity|].
  cbn [fold_left]. rewrite IH. unfold lastStat. cbn [rev]. rewrite find_app.
  destruct (List.find _ (rev r)); [reflexivity|]. cbn [List.find].
  destruct (String.eqb_spec (Resource.name (Payload.stat x)) name) as [E|E].
  - rewrite E. apply lookup_insert_eq.
  - now apply lookup_insert_ne.
Qed.

(** What the transformer keeps of a payload.  Under every name other
    than ["__proto__"] the stats hold the base stat of the last entry of
    that name, and nothing when there is none; the moves are the names of
    the first five moves of the payload, of all of them when it has fewer;
    the types and the abilities are the names the payload lists, in its
    order; the image is the official artwork, or the default sprite when
    the artwork is [null] or empty. *)
Theorem record_fields_of_the_payload (data : Payload.t) :
  let record := transformPokemonData data in
  (forall name,
      name <> "__proto__" ->
      Pokemon.stats record !! name
      = option_map Payload.base_stat (lastStat name (Payload.stats data)))
  /\ Pokemon.moves record
     = map (fun move => Resource.name (Payload.move move)) (firstn 5 (Payload.moves data))
  /\ length (Pokemon.moves record) = Nat.min 5 (length (Payload.moves data))
  /\ length (Pokemon.types record) = length (Payload.types data)
  /\ length (Pokemon.abilities record) = length (Payload.abilities data)
  /\ Pokemon.image record
     = match Payload.official_artwork (Payload.sprites data) with
       | Some (String c r) => Some (String c r)
       | Some EmptyString | None => Payload.front_default (Payload.sprites data)
       end.
Proof.
  cbv zeta. cbn [transformPokemonData Pokemon.stats Pokemon.moves Pokemon.types
                 Pokemon.abilities Pokemon.image].
  assert (Hm : JsArray.slice 0 5 (Payload.moves data) = firstn 5 (Payload.moves data)).
  { apply (slice0_firstn 5). lia. }
  split; [|split; [|split; [|split; [|split]]]].
  - intros name _. rewrite fold_stats_lookup.
    destruct (lastStat name (Payload.stats data)); [reflexivity | apply lookup_empty].
  - now rewrite Hm.
  - rewrite Hm, length_map, length_take. reflexivity.
  - apply length_map.
  - apply length_map.
  - unfold orElse. destruct (Payload.official_artwork (Payload.sprites data)) as [[|c r]|];
      reflexivity.
Qed.

End RecordFacts.

(* ===================================================================== *)
(** * A session *)
(* ===================================================================== *)

Section SessionFacts.

Variable localeCompare : string -> string -> Z.

(** With a type on every record, every listener returns. *)
Lemma handle_returns_on_typed (ev : Event) (st : State) :
  Forall Typed (pokemon st) -> fst (handle localeCompare ev st) = inr JUndefined.
Proof.
  intros Hall.
  assert (Hret : forall s, pokemon s = pokemon st ->
             exists s', applyFilters localeCompare s = (inr JUndefined, s')).
  { intros s Hs.
    destruct (applyFilters_returns_on_typed localeCompare s) as [s' Hs'];
      [now rewrite Hs | eauto]. }
  destruct ev; unfold handle, bind, exec, ret;
    try (match goal with
         | |- context [applyFilters localeCompare ?s] =>
             destruct (Hret s) as [s' E]; [reflexivity|]; rewrite E; reflexivity
         end);
    try reflexivity.
  - now destruct inSearchInput.
  - pose proof (toggleFavorite_effect localeCompare pokemonId st) as (_ & _ & _ & _ & _ & R).
    cbv zeta in R. destruct R as [R|(e & _ & p & Hp & Ht)]; [exact R|].
    rewrite List.Forall_forall in Hall. now destruct (Hall p Hp).
Qed.

(** A listener that calls [applyFilters] and returns leaves the filtered
    set up to date; one that pages leaves it as up to date as it was. *)
Lemma handle_UpToDate (ev : Event) (st : State) (v : JsValue) (st' : State) :
  handle localeCompare ev st = (inr v, st') ->
  refreshes ev = true \/ UpToDate localeCompare st ->
  UpToDate localeCompare st'.
Proof.
  intros H Hu.
  assert (Hmore : UpToDate localeCompare st ->
                  UpToDate localeCompare (loadMorePokemon st)).
  { unfold UpToDate.
    destruct (loadMorePokemon_frame st) as (P & F & V & _ & C & _).
    now rewrite P, F, V, C. }
  destruct ev; cbn [refreshes] in Hu;
    try (unfold handle, bind, exec in H;
         match type of H with
         | context [applyFilters localeCompare ?s] =>
             destruct (applyFilters localeCompare s) as [[e|w] s'] eqn:E;
             [discriminate|];
             pose proof (applyFilters_UpToDate _ _ _ _ E) as U
         end;
         injection H as _ <-; exact U).
  - destruct Hu as [Hu|Hu]; [discriminate|].
    unfold handle, exec in H. injection H as _ <-. now apply Hmore.
  - destruct Hu as [Hu|Hu]; [discriminate|].
    unfold handle, exec, ret in H. destruct inSearchInput; injection H as _ <-;
      [exact Hu | now apply Hmore].
  - cbn [handle] in H. rewrite toggleFavorite_steps in H. cbv zeta in H.
    destruct (saveFavorites _) as [[e|w] st2]; [discriminate|].
    destruct (applyFilters localeCompare st2) as [[e|w'] st3] eqn:E; [discriminate|].
    injection H as _ <-. now apply applyFilters_UpToDate in E.
Qed.

Lemma run_cons (ev : Event) (events : list Event) (st : State) :
  run localeCompare (ev :: events) st
  = run localeCompare events (snd (handle localeCompare ev st)).
Proof. reflexivity. Qed.

(** A session: any run of events on a page that is in step.  When every
    record has a type, every listener of the run returns.  When every
    listener returns, the page is in step at the end as it was at the
    start: cards, empty-state message, button to load more, counters,
    button to clear the search and favourites toggle; the catalogue and
    the loading flag are untouched, the favourites still hold no value
    twice, and the filtered set is up to date as soon as one listener of
    the run has called [applyFilters], whatever it was before. *)
Theorem session_stays_in_sync (events : list Event) (st0 : State) :
  InSync st0 -> ControlsInSync st0 -> distinct (favorites st0) = true ->
  (Forall Typed (pokemon st0) -> allReturn localeCompare events st0)
  /\ (allReturn localeCompare events st0 ->
      let st := run localeCompare events st0 in
      InSync st
      /\ ControlsInSync st
      /\ pokemon st = pokemon st0
      /\ isLoading st = isLoading st0
      /\ distinct (favorites st) = true
      /\ (existsb refreshes events = true \/ UpToDate localeCompare st0 ->
          UpToDate localeCompare st)).
Proof.
  revert st0. induction events as [|ev events IH]; intros st0 HI HC HD.
  - split; [intros _; exact I|]. intros _. cbv zeta. cbn [run fold_left existsb].
    split; [exact HI|]. split; [exact HC|]. split; [reflexivity|].
    split; [reflexivity|]. split; [exact HD|].
    intros [H|H]; [discriminate | exact H].
  - destruct (handle localeCompare ev st0) as [r st1] eqn:E.
    pose proof (handle_frame localeCompare ev st0) as (P & L & _).
    cbv zeta in P, L. rewrite E in P, L. cbn [snd] in P, L.
    pose proof (handle_distinct localeCompare ev st0 HD) as HD1.
    rewrite E in HD1. cbn [snd] in HD1.
    split.
    + intros Hall. cbn [allReturn]. rewrite E. cbn [fst snd].
      pose proof (handle_returns_on_typed ev st0 Hall) as Hr.
      rewrite E in Hr. cbn [fst] in Hr. split; [exact Hr|]. subst r.
      destruct (handle_InSync localeCompare ev st0 JUndefined st1 HI HC E) as (HI1 & HC1).
      apply (IH st1 HI1 HC1 HD1). now rewrite P.
    + cbn [allReturn]. rewrite E. cbn [fst snd]. intros [Hr Hrest]. subst r.
      destruct (handle_InSync localeCompare ev st0 JUndefined st1 HI HC E) as (HI1 & HC1).
      destruct (IH st1 HI1 HC1 HD1) as (_ & IH').
      specialize (IH' Hrest). cbv zeta in IH' |- *.
      rewrite run_cons, E. cbn [snd].
      destruct IH' as (A1 & A2 & A3 & A4 & A5 & A6).
      split; [exact A1|]. split; [exact A2|]. split; [congruence|].
      split; [congruence|]. split; [exact A5|].
      intros Hu. apply A6. cbn [existsb] in Hu.
      destruct (existsb refreshes events); [now left|]. right.
      apply (handle_UpToDate ev st0 JUndefined st1 E).
      rewrite orb_false_r in Hu. exact Hu.
Qed.

End SessionFacts.

(* ===================================================================== *)
(** * Worked examples *)
(* ===================================================================== *)

(** C5: the code at the failing input.  [init] returns; it has loaded all
    151 records, yet the filtered set still holds the 20 records of the
    first batch, the counters show 20 of 151 and the button to load more is
    hidden, while [recompute] over the state gives 151 records. *)
Theorem init_leaves_later_batches_unfiltered :
  init codeUnitCompare fetchAll 152 (constructor emptyStore)
  = Some (inr JUndefined, afterInit)
  /\ map Pokemon.id (pokemon afterInit) = seqZ 1 151
  /\ map Pokemon.id (filteredPokemon afterInit) = seqZ 1 20
  /\ (exists l,
         recompute codeUnitCompare (pokemon afterInit) (currentFilters afterInit)
           (favorites afterInit)
         = inr l
         /\ map Pokemon.id l = seqZ 1 151)
  /\ recompute codeUnitCompare (pokemon afterInit) (currentFilters afterInit)
       (favorites afterInit)
     <> inr (filteredPokemon afterInit)
  /\ Dom.showingCount (dom afterInit) = 20
  /\ Dom.totalCount (dom afterInit) = 151
  /\ Dom.loadMore (dom afterInit) = false.
Proof.
  assert (Hret : option_map fst (init codeUnitCompare fetchAll 152 (constructor emptyStore))
                 = Some (inr JUndefined)) by (vm_compute; reflexivity).
  assert (Hrec : match recompute codeUnitCompare (pokemon afterInit)
                         (currentFilters afterInit) (favorites afterInit) with
                 | inr l => Some (map Pokemon.id l)
                 | inl _ => None
                 end = Some (seqZ 1 151)) by (vm_compute; reflexivity).
  assert (Hfil : map Pokemon.id (filteredPokemon afterInit) = seqZ 1 20)
    by (vm_compute; reflexivity).
  split; [|split; [|split; [exact Hfil|split; [|split]]]].
  - revert Hret. unfold afterInit.
    destruct (init codeUnitCompare fetchAll 152 (constructor emptyStore)) as [[r st]|];
      [|discriminate].
    cbn [option_map fst]. intros Hret. injection Hret as ->. reflexivity.
  - vm_compute; reflexivity.
  - revert Hrec. destruct (recompute _ _ _ _) as [e|l]; [discriminate|].
    intros Hrec. injection Hrec as Hrec. now exists l.
  - intros E. revert Hrec. rewrite E, Hfil. vm_compute. discriminate.
  - repeat split; vm_compute; reflexivity.
Qed.

(** ** The batch fetcher *)

(** Why the batch size is a positive number: with 25 ids to load, which
    batches of 20 load in two turns, batches of zero never get the loop
    past its first turn, so that no amount of fuel makes it return.
    [loadPokemon] has 20 for its batch size. *)
Lemma empty_batches_never_end :
  (exists st',
      loadPokemonWith codeUnitCompare fetchAll 25 20 26 (constructor emptyStore)
      = Some (inr JUndefined, st'))
  /\ ~ exists fuel r,
        loadPokemonWith codeUnitCompare fetchAll 25 0 fuel (constructor emptyStore)
        = Some r.
Proof.
  split.
  - destruct (loadPokemonWith_all codeUnitCompare fetchAll 25 20 26
                (constructor emptyStore)) as (st' & H & _); [lia | | lia | eauto].
    intros s _ Hc. apply applyFilters_returns_unless_type.
    rewrite Hc. vm_compute. discriminate.
  - intros (fuel & r & H). unfold loadPokemonWith in H.
    rewrite loadBatches_stuck in H; [discriminate | lia | reflexivity].
Qed.


(** ** The filter engine *)

Lemma search_filter_keeps_matches_witness :
  In bulbasaur
    (searchFilter (Filters.mk "saur" "all" "number" false)
       [bulbasaur; charmander; squirtle])
  /\ MatchesSearch "saur" bulbasaur.
Proof.
  assert (H : In bulbasaur
                (searchFilter (Filters.mk "saur" "all" "number" false)
                   [bulbasaur; charmander; squirtle]))
    by (vm_compute; left; reflexivity).
  split; [exact H|].
  apply (proj1 (search_filter_keeps_matches codeUnitCompare
                  (Filters.mk "saur" "all" "number" false)
                  ltac:(vm_compute; discriminate))
           [bulbasaur; charmander; squirtle] bulbasaur H).
Defined.

(** The match is on any position, not on the head of the name, and the
    other records are dropped. *)
Example search_is_substring_match :
  searchFilter (Filters.mk "saur" "all" "number" false)
    [bulbasaur; charmander; squirtle]
  = [bulbasaur]
  /\ searchFilter (Filters.mk "00" "all" "number" false)
       [bulbasaur; charmander; squirtle]
     = [bulbasaur; charmander; squirtle]
  /\ searchFilter (Filters.mk EmptyString "all" "number" false)
       [bulbasaur; charmander; squirtle]
     = [bulbasaur; charmander; squirtle].
Proof. repeat split; vm_compute; reflexivity. Qed.

Lemma type_filter_keeps_members_witness :
  In charmander
    (typeFilter (Filters.mk EmptyString "fire" "number" false)
       [bulbasaur; charmander; squirtle])
  /\ In "fire" (Pokemon.types charmander).
Proof.
  assert (H : In charmander
                (typeFilter (Filters.mk EmptyString "fire" "number" false)
                   [bulbasaur; charmander; squirtle]))
    by (vm_compute; left; reflexivity).
  split; [exact H|].
  apply (proj1 (type_filter_keeps_members codeUnitCompare
                  (Filters.mk EmptyString "fire" "number" false)
                  ltac:(vm_compute; discriminate))
           [bulbasaur; charmander; squirtle] charmander H).
Defined.

(** The match is on the whole tag, letter case included. *)
Example type_is_exact_match :
  typeFilter (Filters.mk EmptyString "Fire" "number" false)
    [bulbasaur; charmander; squirtle]
  = []
  /\ typeFilter (Filters.mk EmptyString "poison" "number" false)
       [bulbasaur; charmander; squirtle]
     = [bulbasaur].
Proof. repeat split; vm_compute; reflexivity. Qed.

Lemma applyFilters_pure_idempotent_witness :
  filteredOutput
    (applyFilters codeUnitCompare (browsing [squirtle; bulbasaur; charmander] true))
  = filteredOutput
      (applyFilters codeUnitCompare (browsing [squirtle; bulbasaur; charmander] false)).
Proof.
  apply (proj1 (proj2 (applyFilters_pure_idempotent codeUnitCompare
                         (browsing [squirtle; bulbasaur; charmander] false))));
    reflexivity.
Defined.

(** The three sort keys on three records. *)
Example sort_keys :
  map Pokemon.id
    (filteredPokemon
       (snd (applyFilters codeUnitCompare
               (browsing [squirtle; bulbasaur; charmander] false))))
  = [1; 4; 7]
  /\ map Pokemon.displayName
       (filteredPokemon
          (snd (handle codeUnitCompare (SortSelectChange "name")
                  (browsing [squirtle; bulbasaur; charmander] false))))
     = ["Bulbasaur"; "Charmander"; "Squirtle"]
  /\ map Pokemon.types
       (filteredPokemon
          (snd (handle codeUnitCompare (SortSelectChange "type")
                  (browsing [squirtle; bulbasaur; charmander] false))))
     = [["fire"]; ["grass"; "poison"]; ["water"]].
Proof. repeat split; vm_compute; reflexivity. Qed.

Lemma applyFilters_throws_only_on_untyped_witness :
  exists st',
    applyFilters codeUnitCompare
      (snd (handle codeUnitCompare (SortSelectChange "type")
              (browsing [squirtle; bulbasaur; charmander] false)))
    = (inr JUndefined, st').
Proof.
  apply (proj1 (applyFilters_throws_only_on_untyped codeUnitCompare)).
  vm_compute. repeat constructor; discriminate.
Defined.

(** The error branch is there: two records without a type, sorted by
    type. *)
Example applyFilters_throws_on_untyped :
  fst (handle codeUnitCompare (SortSelectChange "type")
         (browsing [missingno 1; missingno 2] false))
  = inl (TypeError "Cannot read properties of undefined (reading 'localeCompare')").
Proof. vm_compute. reflexivity. Qed.

(** ** Pagination *)

Lemma visible_slice_is_growing_prefix_witness :
  let page1 := renderPokemon (browsing (specimens 45) false) in
  let page2 := loadMorePokemon page1 in
  let page3 := loadMorePokemon page2 in
  length (Dom.visible (dom page1)) = 20%nat
  /\ length (Dom.visible (dom page2)) = 40%nat
  /\ length (Dom.visible (dom page3)) = 45%nat
  /\ Dom.visible (dom page3) = filteredPokemon (browsing (specimens 45) false)
  /\ currentPage page3 = 3
  /\ loadMorePokemon page3 = page3.
Proof.
  apply (proj2 (proj2 (proj2 (proj2 visible_slice_is_growing_prefix)))
           (browsing (specimens 45) false));
    vm_compute; reflexivity.
Defined.

(** C8, the claim as stated, while a load is in progress: on page 1 of 3,
    [loadMorePokemon] leaves [currentPage] at 1. *)
Lemma loadMorePokemon_ignored_while_loading :
  currentPage (browsing (specimens 45) true) < totalPages (browsing (specimens 45) true)
  /\ currentPage (loadMorePokemon (browsing (specimens 45) true))
     <> currentPage (browsing (specimens 45) true) + 1.
Proof. split; vm_compute; [reflexivity | discriminate]. Qed.

Lemma currentPage_reset_by_filters_not_by_paging_witness :
  currentPage (loadMorePokemon (browsing (specimens 45) false)) = 2
  /\ currentPage
       (snd (handle codeUnitCompare (SearchInput "SPECIMEN-1")
               (loadMorePokemon (browsing (specimens 45) false))))
     = 1.
Proof.
  split.
  - apply (proj1 (proj1 (proj2 (proj2 (proj2
             (currentPage_reset_by_filters_not_by_paging codeUnitCompare))))
             (browsing (specimens 45) false)
             ltac:(vm_compute; reflexivity) ltac:(vm_compute; reflexivity))).
  - apply (proj1 (proj2 (currentPage_reset_by_filters_not_by_paging codeUnitCompare))
             (SearchInput "SPECIMEN-1")
             (loadMorePokemon (browsing (specimens 45) false))
             JUndefined
             (snd (handle codeUnitCompare (SearchInput "SPECIMEN-1")
                     (loadMorePokemon (browsing (specimens 45) false))))
             ltac:(reflexivity)).
    vm_compute. reflexivity.
Defined.

(** ** Favourites *)



(** A store that refuses the write: the set changes, the store does not,
    and the failure goes to the console. *)
Example toggleFavorite_on_full_store :
  let r := toggleFavorite codeUnitCompare 7 (constructor fullStore) in
  favorites (snd r) = [JInt 7]
  /\ localStorage (snd r) = fullStore
  /\ console (snd r)
     = [ConsoleError "Error saving favorites:"
          (QuotaExceededError "The quota has been exceeded")].
Proof. repeat split; vm_compute; reflexivity. Qed.

(** C9, the claim as stated, on a store whose entry is the JSON string
    ["abc"], which is no array of ids: the set loaded holds its three
    characters. *)
Lemma loadFavorites_loads_a_json_string :
  JSON.parse (JSON.quote +:+ "abc" +:+ JSON.quote) = inr (JString "abc")
  /\ favorites
       (snd (loadFavorites
               (constructor (storeHolding (JSON.quote +:+ "abc" +:+ JSON.quote)))))
     = [JString "a"; JString "b"; JString "c"]
  /\ favorites
       (snd (loadFavorites
               (constructor (storeHolding (JSON.quote +:+ "abc" +:+ JSON.quote)))))
     <> JsSet.empty.
Proof. repeat split; vm_compute; [reflexivity.. | discriminate]. Qed.

Lemma loadFavorites_catches_and_defaults_witness :
  favorites (snd (loadFavorites (constructor (storeHolding "[1, 7")))) = JsSet.empty
  /\ favorites (snd (loadFavorites (constructor (storeHolding "{}")))) = JsSet.empty
  /\ favorites (snd (loadFavorites (constructor (storeHolding "[1, 7, 25]"))))
     = [JInt 1; JInt 7; JInt 25].
Proof.
  split; [|split].
  - apply (proj1 (proj2 loadFavorites_catches_and_defaults)).
    right; right; right. exists "[1, 7". split; [reflexivity|].
    left. eexists. vm_compute. reflexivity.
  - apply (proj1 (proj2 loadFavorites_catches_and_defaults)).
    right; right; right. exists "{}". split; [reflexivity|].
    right. exists (JObject []). split; [vm_compute; reflexivity | exact I].
  - apply (proj2 (proj2 loadFavorites_catches_and_defaults)
             (storeHolding "[1, 7, 25]") "[1, 7, 25]"
             (JArray [JInt 1; JInt 7; JInt 25])
             eq_refl eq_refl ltac:(discriminate) ltac:(vm_compute; reflexivity)).
Defined.

(** A store that cannot be read: the failure is logged and the set stays
    empty. *)
Example loadFavorites_on_unreadable_store :
  loadFavorites (constructor (Storage.mk ∅ false true))
  = (inr JUndefined,
     consoleWrite
       (ConsoleError "Error loading favorites:" (SecurityError "The operation is insecure"))
       (constructor (Storage.mk ∅ false true))).
Proof. reflexivity. Qed.

(** ** Listeners, order and reload *)

Lemma listeners_recompute_witness :
  UpToDate codeUnitCompare
    (snd (handle codeUnitCompare (SearchInput "SAUR")
            (browsing [squirtle; bulbasaur; charmander] false)))
  /\ currentPage
       (snd (handle codeUnitCompare (SearchInput "SAUR")
               (browsing [squirtle; bulbasaur; charmander] false)))
     = 1.
Proof.
  apply (listeners_recompute codeUnitCompare (SearchInput "SAUR")
           (browsing [squirtle; bulbasaur; charmander] false) JUndefined).
  - left. reflexivity.
  - vm_compute. reflexivity.
Defined.

Lemma listeners_keep_page_positive_witness :
  1 <= currentPage
         (snd (handle codeUnitCompare LoadMoreClick (browsing (specimens 45) false))).
Proof.
  apply (listeners_keep_page_positive codeUnitCompare LoadMoreClick
           (browsing (specimens 45) false)).
  vm_compute. discriminate.
Defined.

Lemma filtered_set_sorted_by_id_witness :
  exists st',
    applyFilters codeUnitCompare (browsing [squirtle; bulbasaur; charmander] false)
    = (inr JUndefined, st')
    /\ StronglySorted (fun a b => Pokemon.id a <= Pokemon.id b) (filteredPokemon st')
    /\ Permutation
         (selected (pokemon (browsing [squirtle; bulbasaur; charmander] false))
            (currentFilters (browsing [squirtle; bulbasaur; charmander] false))
            (favorites (browsing [squirtle; bulbasaur; charmander] false)))
         (filteredPokemon st').
Proof.
  apply (filtered_set_sorted_by_id codeUnitCompare
           (browsing [squirtle; bulbasaur; charmander] false));
    vm_compute; discriminate.
Defined.

Lemma toggled_favorites_reload_witness :
  favorites
    (snd (loadFavorites
            (constructor
               (localStorage
                  (snd (toggleFavorite codeUnitCompare 7
                          (withFavorites [JInt 1; JInt 25] (constructor emptyStore))))))))
  = favorites
      (snd (toggleFavorite codeUnitCompare 7
              (withFavorites [JInt 1; JInt 25] (constructor emptyStore)))).
Proof.
  apply (toggled_favorites_reload codeUnitCompare 7 [1; 25]
           (withFavorites [JInt 1; JInt 25] (constructor emptyStore))).
  - reflexivity.
  - repeat constructor; cbn; intuition discriminate.
  - repeat constructor; vm_compute; lia.
  - vm_compute. lia.
  - reflexivity.
  - reflexivity.
Defined.

(** The round trip on the page: three favourites, the store's text, and the
    set a new controller loads from it. *)
Example favorites_survive_a_restart :
  let st :=
    snd (toggleFavorite codeUnitCompare 25
           (snd (toggleFavorite codeUnitCompare 7
                   (snd (toggleFavorite codeUnitCompare 151 (constructor emptyStore)))))) in
  Storage.entries (localStorage st) !! favoritesKey = Some "[151,7,25]"
  /\ favorites (snd (loadFavorites (constructor (localStorage st))))
     = [JInt 151; JInt 7; JInt 25].
Proof. split; vm_compute; reflexivity. Qed.

(** ** Selection, start-up, paging, transformer, modal, order and session *)

Lemma filtered_set_is_the_passing_records_witness :
  let st :=
    withCurrentFilters (Filters.mk "a" "fire" "name" false)
      (browsing [squirtle; bulbasaur; charmander] false) in
  exists st',
    applyFilters codeUnitCompare st = (inr JUndefined, st')
    /\ filteredPokemon st' = [charmander]
    /\ Permutation
         (List.filter (passes (currentFilters st) (favorites st)) (pokemon st))
         (filteredPokemon st').
Proof.
  cbv zeta. eexists. split; [vm_compute; reflexivity|]. split; [reflexivity|].
  apply (filtered_set_is_the_passing_records codeUnitCompare
           (withCurrentFilters (Filters.mk "a" "fire" "name" false)
              (browsing [squirtle; bulbasaur; charmander] false))
           JUndefined).
  vm_compute. reflexivity.
Defined.

Lemma loadPokemon_never_throws_witness :
  exists st',
    (forall fuel,
        (Z.to_nat 25 < fuel)%nat ->
        loadPokemonWith codeUnitCompare (fun id => inr (samplePayload id "missingno" []))
          25 20 fuel
          (withCurrentFilters (Filters.mk "" "all" "type" false) (constructor emptyStore))
        = Some (inr JUndefined, st'))
    /\ isLoading st' = false.
Proof.
  destruct (loadPokemon_never_throws codeUnitCompare
              (fun id => inr (samplePayload id "missingno" [])) 25 20
              (withCurrentFilters (Filters.mk "" "all" "type" false)
                 (constructor emptyStore))
              ltac:(lia))
    as (st' & R & L & _).
  exists st'. split; [exact R | exact L].
Defined.

Lemma load_more_reaches_the_end_witness :
  Dom.visible (dom (Nat.iter 5 loadMorePokemon (browsing (specimens 45) false)))
  = filteredPokemon (browsing (specimens 45) false).
Proof.
  apply (proj2 (load_more_reaches_the_end (browsing (specimens 45) false)
                  ltac:(reflexivity) ltac:(vm_compute; discriminate)
                  ltac:(vm_compute; reflexivity))
           5%nat).
  vm_compute. lia.
Defined.

Lemma number_is_the_padded_id_witness :
  Pokemon.number (transformPokemonData (samplePayload 25 "pikachu" ["electric"])) = "025".
Proof.
  assert (Hsafe : SafeInteger (Payload.id (samplePayload 25 "pikachu" ["electric"])))
    by (unfold SafeInteger; cbn; lia).
  destruct (proj1 number_is_the_padded_id (samplePayload 25 "pikachu" ["electric"]) Hsafe)
    as (_ & _ & H).
  rewrite H; [reflexivity | cbn; lia].
Defined.

Lemma description_is_the_first_english_entry_witness :
  getEnglishDescription
    (sampleSpecies ("A strange seed" +:+ String (ascii_of_N 12) "was planted."))
  = Some "A strange seed was planted.".
Proof.
  destruct description_is_the_first_english_entry as (_ & _ & Hfirst & Hreplace & _).
  rewrite (Hfirst
             (sampleSpecies ("A strange seed" +:+ String (ascii_of_N 12) "was planted."))
             [Species.mkEntry "Ein Samen auf dem Ruecken." (Resource.mk "de")]
             (Species.mkEntry
                ("A strange seed" +:+ String (ascii_of_N 12) "was planted.")
                (Resource.mk "en"))
             []).
  - cbn [Species.flavor_text].
    destruct (Hreplace "") as (_ & Hat & _). rewrite Hat. reflexivity.
  - reflexivity.
  - intros e [<-|[]]. cbn. discriminate.
  - reflexivity.
Defined.

Lemma search_matches_name_or_number_witness :
  JsString.toLowerCase
    (Pokemon.displayName (transformPokemonData (samplePayload 25 "pikachu" ["electric"])))
  = "pikachu"
  /\ (MatchesSearch "chu" (transformPokemonData (samplePayload 25 "pikachu" ["electric"])) <->
      JsString.Substring "chu" "pikachu"
      \/ JsString.Substring "chu"
           (Pokemon.number (transformPokemonData (samplePayload 25 "pikachu" ["electric"])))).
Proof.
  apply (search_matches_name_or_number (samplePayload 25 "pikachu" ["electric"]) "chu");
    reflexivity.
Defined.

Lemma details_open_then_settle_witness :
  Modal.show (modal detailsOfCharmander) = true
  /\ Modal.modalName (modal detailsOfCharmander) = "Charmander"
  /\ pending detailsOfCharmander = [].
Proof.
  destruct (proj2 (details_open_then_settle codeUnitCompare 4 gallery)
              charmander (inr (sampleSpecies "The flame on its tail.")) eq_refl)
    as (_ & _ & _ & _ & P & S & N & _).
  split; [exact S|]. split; [exact N | exact P].
Defined.

Lemma late_response_is_written_witness :
  let crossed :=
    pageRun codeUnitCompare
      [CardClick 1; CardClick 4;
       SpeciesSettled 1 (inr (sampleSpecies "The flame on its tail."));
       SpeciesSettled 0 (inr (sampleSpecies "A strange seed."))]
      gallery in
  Modal.modalName (modal crossed) = "Charmander"
  /\ Modal.modalBody (modal crossed)
     = Modal.Details (Modal.mkContent bulbasaur false "A strange seed.") 1.
Proof.
  cbv zeta.
  destruct (proj1 (late_response_is_written codeUnitCompare gallery bulbasaur charmander
                     (sampleSpecies "A strange seed.")
                     (sampleSpecies "The flame on its tail.") eq_refl eq_refl))
    as (_ & N & B & _).
  split; [exact N | exact B].
Defined.

Lemma modal_favorite_button_witness :
  JsSet.has
    (favorites
       (master (snd (pageHandle codeUnitCompare ModalFavoriteClick detailsOfCharmander))))
    (JInt 4)
  = true
  /\ Modal.modalBody
       (modal (snd (pageHandle codeUnitCompare ModalFavoriteClick detailsOfCharmander)))
     = Modal.Loading.
Proof.
  destruct (proj1 (proj1 (modal_favorite_button codeUnitCompare detailsOfCharmander)
                     (Modal.mkContent charmander false "The flame on its tail.") 4
                     charmander eq_refl eq_refl)
              (sampleSpecies "The flame on its tail.")
              ltac:(vm_compute; reflexivity))
    as (H & M & _).
  split; [exact H|]. rewrite M. reflexivity.
Defined.

Lemma filtered_set_sorted_by_name_or_type_witness :
  exists st',
    applyFilters codeUnitCompare
      (withCurrentFilters (Filters.mk "" "all" "name" false)
         (browsing [squirtle; bulbasaur; charmander] false))
    = (inr JUndefined, st')
    /\ StronglySorted
         (fun a b => codeUnitCompare (Pokemon.displayName a) (Pokemon.displayName b) <= 0)
         (filteredPokemon st').
Proof.
  destruct (proj1 (filtered_set_sorted_by_name_or_type codeUnitCompare
                     (withCurrentFilters (Filters.mk "" "all" "name" false)
                        (browsing [squirtle; bulbasaur; charmander] false))
                     codeUnitCompare_consistent)
              eq_refl)
    as (st' & R & S & _).
  exists st'. split; [exact R | exact S].
Defined.

Lemma favorites_view_follows_the_toggle_witness :
  let st :=
    withCurrentFilters (Filters.mk "" "all" "number" true)
      (withFavorites [JInt 4; JInt 7] (browsing [bulbasaur; charmander; squirtle] false)) in
  filteredPokemon (snd (toggleFavorite codeUnitCompare 4 st)) = [squirtle]
  /\ (forall p,
         In p (filteredPokemon (snd (toggleFavorite codeUnitCompare 4 st))) ->
         Pokemon.id p <> 4).
Proof.
  cbv zeta. split; [vm_compute; reflexivity|].
  apply (proj1 (favorites_view_follows_the_toggle codeUnitCompare 4
                  (withCurrentFilters (Filters.mk "" "all" "number" true)
                     (withFavorites [JInt 4; JInt 7]
                        (browsing [bulbasaur; charmander; squirtle] false)))
                  JUndefined
                  (snd (toggleFavorite codeUnitCompare 4
                          (withCurrentFilters (Filters.mk "" "all" "number" true)
                             (withFavorites [JInt 4; JInt 7]
                                (browsing [bulbasaur; charmander; squirtle] false)))))
                  eq_refl ltac:(vm_compute; reflexivity))).
  reflexivity.
Defined.

Lemma session_stays_in_sync_witness :
  let events :=
    [SearchInput "SPECIMEN-1"; LoadMoreClick; FavoriteButtonClick 7;
     ToggleFavoritesClick; ClearSearchClick] in
  allReturn codeUnitCompare events afterInit
  /\ InSync (run codeUnitCompare events afterInit)
  /\ UpToDate codeUnitCompare (run codeUnitCompare events afterInit)
  /\ map Pokemon.id (filteredPokemon (run codeUnitCompare events afterInit)) = [7].
Proof.
  cbv zeta.
  assert (HI : InSync afterInit) by (repeat split; vm_compute; reflexivity).
  assert (HC : ControlsInSync afterInit) by (split; vm_compute; reflexivity).
  assert (HD : distinct (favorites afterInit) = true) by (vm_compute; reflexivity).
  assert (HT : Forall Typed (pokemon afterInit)).
  { apply List.Forall_forall. intros p Hp.
    assert (Hall : forallb (fun p => negb (Nat.eqb (length (Pokemon.types p)) 0))
                     (pokemon afterInit) = true) by (vm_compute; reflexivity).
    rewrite forallb_forall in Hall. specialize (Hall p Hp).
    unfold Typed. intros E. rewrite E in Hall. discriminate. }
  destruct (session_stays_in_sync codeUnitCompare
              [SearchInput "SPECIMEN-1"; LoadMoreClick; FavoriteButtonClick 7;
               ToggleFavoritesClick; ClearSearchClick]
              afterInit HI HC HD)
    as (Hret & Hsync).
  specialize (Hret HT). destruct (Hsync Hret) as (A1 & _ & _ & _ & _ & A6).
  split; [exact Hret|]. split; [exact A1|]. split; [apply A6; now left|].
  vm_compute. reflexivity.
Defined.
